(** * Graph surgery on Keras models: a shallow embedding of [kerasprune/prune.py]

    The development follows the Python module function by function.
    numpy arrays are a shape with row-major data, Keras layers live in a
    store indexed by object identity, and the functions of [prune.py] run
    in a state-and-exception monad over that store. *)

From stdpp Require Import gmap strings list fin_maps sorting.
From Stdlib Require Import ZArith.

Local Open Scope nat_scope.

(** ** The part of numpy that [prune.py] calls *)

Module np.

Record ndarray (A : Type) : Type := array { shape : list nat; data : list A }.
Arguments array {A} _ _.
Arguments shape {A} _.
Arguments data {A} _.

(** Number of elements of an array of shape [sh]. *)
Definition size_of (sh : list nat) : nat := foldr Nat.mul 1 sh.

Definition wf {A} (a : ndarray A) : Prop := length (data a) = size_of (shape a).

(** [np.ones(sh, dtype=bool)] *)
Definition ones (sh : list nat) : ndarray bool :=
  array sh (replicate (size_of sh) true).

(** Flat positions of the true entries, counted from [k]. *)
Fixpoint flatnonzero_from (k : nat) (l : list bool) : list nat :=
  match l with
  | [] => []
  | b :: l' => (if b then [k] else []) ++ flatnonzero_from (S k) l'
  end.

(** [np.where(m)[0]]: the first-axis coordinate of every true entry, in
    row-major order.  A 0-d array has no first axis. *)
Definition where0 (m : ndarray bool) : option (list nat) :=
  match shape m with
  | [] => None
  | _ :: rest => Some ((λ k, k / size_of rest) <$> flatnonzero_from 0 (data m))
  end.

(** The [i]-th block of [r] consecutive entries. *)
Definition chunk {A} (r i : nat) (l : list A) : list A := take r (drop (i * r) l).

(** [w[rows, :]]: needs at least two axes and every row inside the first. *)
Definition take_rows {A} (w : ndarray A) (rows : list nat) : option (ndarray A) :=
  match shape w with
  | d0 :: ((_ :: _) as rest) =>
      if forallb (λ i, i <? d0) rows
      then Some (array (length rows :: rest)
                       (flat_map (λ i, chunk (size_of rest) i (data w)) rows))
      else None
  | _ => None
  end.

(** An integer index into an axis of length [n]; negative ones count from
    the end, anything outside [-n, n) is an IndexError. *)
Definition norm_index (n : nat) (i : Z) : option nat :=
  if decide (0 ≤ i < Z.of_nat n)%Z then Some (Z.to_nat i)
  else if decide (- Z.of_nat n ≤ i < 0)%Z then Some (Z.to_nat (Z.of_nat n + i))
  else None.

Definition norm_indices (n : nat) (idx : list Z) : option (list nat) :=
  mapM (norm_index n) idx.

(** A shape split into its leading axes and its last axis. *)
Definition last_axis (sh : list nat) : option (list nat * nat) :=
  match reverse sh with
  | [] => None
  | n :: pre => Some (reverse pre, n)
  end.

(** numpy's [keep = ones(n, bool); keep[dead] = False]. *)
Definition keep_mask (n : nat) (dead : list nat) : list bool :=
  (λ j, bool_decide (j ∉ dead)) <$> seq 0 n.

Definition count_true (l : list bool) : nat := length (List.filter id l).

(** Entries of flat data (last axis of length [n]) whose last coordinate
    is kept. *)
Definition select_last {A} (n : nat) (keep : list bool) (l : list A) : list A :=
  snd <$> List.filter (λ p, default false (keep !! (fst p mod n)))
                      (zip (seq 0 (length l)) l).

(** [np.delete(w, idx, axis=-1)], indices checked and wrapped as numpy
    does since 1.19. *)
Definition delete {A} (w : ndarray A) (idx : list Z) : option (ndarray A) :=
  '(pre, n) ← last_axis (shape w);
  dead ← norm_indices n idx;
  let keep := keep_mask n dead in
  Some (array (pre ++ [count_true keep]) (select_last n keep (data w))).

(** [m = np.ones(sh, bool); m[idx, ...] = False] ([axis0 = true]) or
    [m[..., idx] = False] ([axis0 = false]). *)
Definition ones_with_false (sh : list nat) (axis0 : bool) (idx : list Z)
  : option (ndarray bool) :=
  match sh with
  | [] => None
  | d0 :: rest =>
      if axis0 then
        dead ← norm_indices d0 idx;
        Some (array sh ((λ k, bool_decide (k / size_of rest ∉ dead))
                          <$> seq 0 (size_of sh)))
      else
        '(_, n) ← last_axis sh;
        dead ← norm_indices n idx;
        Some (array sh ((λ k, bool_decide (k mod n ∉ dead))
                          <$> seq 0 (size_of sh)))
  end.

(** [np.reshape(m, [-1])] *)
Definition flatten {A} (m : ndarray A) : ndarray A :=
  array [length (data m)] (data m).

(** All multi-indices of a shape, in row-major order. *)
Fixpoint indices (sh : list nat) : list (list nat) :=
  match sh with
  | [] => [[]]
  | d :: sh' => flat_map (λ i, cons i <$> indices sh') (seq 0 d)
  end.

(** Flat position of a multi-index. *)
Fixpoint ravel (sh idx : list nat) : nat :=
  match sh, idx with
  | _ :: sh', i :: idx' => i * size_of sh' + ravel sh' idx'
  | _, _ => 0
  end.

Definition get {A} (a : ndarray A) (idx : list nat) : option A :=
  data a !! ravel (shape a) idx.

(** A list with its first and last entries exchanged. *)
Definition swap_ends {A} (l : list A) : list A :=
  match l with
  | [] => []
  | x :: t =>
      match reverse t with
      | [] => [x]
      | y :: m => y :: reverse m ++ [x]
      end
  end.

(** [np.swapaxes(a, 0, -1)] *)
Definition swapaxes_0_last {A} (a : ndarray A) : option (ndarray A) :=
  match shape a with
  | [] => None
  | _ =>
      let sh := swap_ends (shape a) in
      Some (array sh (omap (λ idx, get a (swap_ends idx)) (indices sh)))
  end.

(** [a[:k0, :k1, ..., :]], one slice per entry of [ks] and a full slice
    after them: the array needs more axes than [ks] has entries. *)
Fixpoint clip (ks sh : list nat) : option (list nat) :=
  match ks, sh with
  | [], _ :: _ => Some sh
  | k :: ks', d :: sh' => cons (k `min` d) <$> clip ks' sh'
  | _, _ => None
  end.

Definition slice_leading {A} (a : ndarray A) (ks : list nat) : option (ndarray A) :=
  sh ← clip ks (shape a);
  Some (array sh (omap (get a) (indices sh))).

(** [np.repeat(a[..., np.newaxis], f, axis=-1)] *)
Definition repeat_new_last {A} (a : ndarray A) (f : nat) : ndarray A :=
  array (shape a ++ [f]) (flat_map (replicate f) (data a)).

(** [w[mask]] for a boolean [mask] whose shape is a prefix of [w]'s. *)
Definition bool_index {A} (w : ndarray A) (mask : ndarray bool) : option (ndarray A) :=
  if decide (take (length (shape mask)) (shape w) = shape mask) then
    let trailing := drop (length (shape mask)) (shape w) in
    let rows := flatnonzero_from 0 (data mask) in
    Some (array (length rows :: trailing)
                (flat_map (λ i, chunk (size_of trailing) i (data w)) rows))
  else None.

(** [np.reshape(a, sh)] where the second-to-last entry of [sh] was
    overwritten by [-1]. *)
Definition reshape_infer_penultimate {A} (a : ndarray A) (sh : list nat)
  : option (ndarray A) :=
  match reverse sh with
  | last :: _ :: pre =>
      let known := size_of (last :: pre) in
      let total := length (data a) in
      if decide (known ≠ 0 ∧ total mod known = 0)
      then Some (array (reverse pre ++ [total / known; last]) (data a))
      else None
  | _ => None
  end.

End np.

(** ** Keras objects

    A layer is identified by its position in the store (Python object
    identity).  A node instance is the pair of a layer and an index into
    its [inbound_nodes]; every layer kind used here has one output per
    node, so the same pair also identifies the output tensor of that node
    (Keras keeps it as the tensor's history).  Node indices are the
    non-negative positions Keras assigns.  The numbers held by weight
    tensors are moved around and never computed with: their type is the
    parameter [scalar]. *)

Abbreviation layer_id := nat (only parsing).
Abbreviation node_key := (nat * nat)%type (only parsing).
Abbreviation tensor := (nat * nat)%type (only parsing).

(** A tensor shape as Keras reports it: [None] for an unknown dimension
    such as the batch axis. *)
Abbreviation kshape := (list (option nat)) (only parsing).

(** A delete mask, or Python's [None]. *)
Abbreviation mask := (option (np.ndarray bool)) (only parsing).

Inductive cfg_value (scalar : Type) : Type :=
  | CInt (z : Z)
  | CStr (s : string)
  | CTuple (t : list nat)
  | CWeights (ws : list (np.ndarray scalar)).
Arguments CInt {scalar} _.
Arguments CStr {scalar} _.
Arguments CTuple {scalar} _.
Arguments CWeights {scalar} _.

Record Node : Type := mkNode {
  inbound_layers : list layer_id;
  node_indices : list nat;
  output_shapes : kshape;
}.

Record Layer (scalar : Type) : Type := mkLayer {
  class_name : string;
  config : gmap string (cfg_value scalar);
  weights : list (np.ndarray scalar);
  inbound_nodes : list Node;
}.
Arguments mkLayer {scalar} _ _ _ _.
Arguments class_name {scalar} _.
Arguments config {scalar} _.
Arguments weights {scalar} _.
Arguments inbound_nodes {scalar} _.

(** What [prune.py] reads of a Keras [Model].  [node_depths] holds, for
    every node instance the model contains, its depth as Keras computed it
    when the model was built; [model_inbound_nodes] holds the input shapes
    of each node of the model used as a layer. *)
Record Model : Type := mkModel {
  inputs : list tensor;
  output_layers : list layer_id;
  output_layers_node_indices : list nat;
  layers : list layer_id;
  node_depths : gmap node_key nat;
  model_inbound_nodes : list (list kshape);
}.

Inductive error : Type :=
  | OperationNotFound        (* ValueError: layer is not a valid Layer in model. *)
  | MultiInputUnsupported    (* ValueError: Cannot insert new layer at node with
                                multiple inbound layers. *)
  | ChannelIndexOutOfRange (channels : Z)
                             (* ValueError: Channels_index value(s) out of range. *)
  | MissingChannelDimension  (* ValueError: neither units nor filters *)
  | UnsupportedOperationKind (cls : string)
                             (* ValueError: layers are currently unsupported. *)
  | MaskOnInputLayer         (* RuntimeError: This should never get here! *)
  | DanglingOperation        (* ValueError: unpacking zip of no results *)
  | RecursionError           (* the interpreter's recursion limit *)
  | IndexError
  | KeyError
  | AttributeError
  | TypeError
  | ReshapeError
  | TupleOfMasks             (* numpy asked to coerce a tuple of masks *)
  | NoSuchObject             (* a reference outside the store: no Python state *)
  | KerasError.              (* the framework rejects a call *)

(** The host framework: what Keras decides and this module only calls.
    [call_shape] is the compatibility check and shape inference of a layer
    call ([None]: Keras raises); [built_weights] is what the [build] of a
    layer creates on its first call; [build_model] is the [Model]
    constructor; [copy_model] rebuilds a model from its config and
    weights, as the helper [clean_copy] of [model_utils] does. *)
Class Keras (scalar : Type) : Type := {
  call_shape : Layer scalar → list kshape → option kshape;
  built_weights : Layer scalar → list kshape → list (np.ndarray scalar);
  build_model : list tensor → list tensor → gmap layer_id (Layer scalar) → option Model;
  copy_model : Model → gmap layer_id (Layer scalar)
               → option (Model * gmap layer_id (Layer scalar));
}.

(** The interpreter state: the layer objects, and three logs the
    properties observe: the node instances whose rebuild was computed,
    the models handed to [clean_copy], and the node instances an edit's
    callback was invoked for.  The module itself writes the first two
    where the source computes a node and calls [clean_copy]; the third
    is written only by a callback wrapped in [logged]. *)
Record state (scalar : Type) : Type := mkState {
  store : gmap layer_id (Layer scalar);
  rebuilt : list node_key;
  copied : list Model;
  edited : list node_key;
}.
Arguments mkState {scalar} _ _ _ _.
Arguments store {scalar} _.
Arguments rebuilt {scalar} _.
Arguments copied {scalar} _.
Arguments edited {scalar} _.

(** ** A monad for Python statements: a store and exceptions

    A raised exception keeps the store as it was when it was raised. *)

Definition M (scalar A : Type) : Type := state scalar → (error + A) * state scalar.

Definition ret {scalar A} (a : A) : M scalar A := λ st, (inr a, st).
Definition raise {scalar A} (e : error) : M scalar A := λ st, (inl e, st).
Definition bind {scalar A B} (m : M scalar A) (k : A → M scalar B) : M scalar B :=
  λ st, match m st with
        | (inl e, st') => (inl e, st')
        | (inr a, st') => k a st'
        end.

Notation "'let*' p := m 'in' k" := (bind m (λ x, match x with p => k end))
  (at level 10, p pattern, m at level 100, k at level 200).

(** An optional result, with the exception raised when it is missing. *)
Definition expect {scalar A} (e : error) (o : option A) : M scalar A :=
  match o with Some a => ret a | None => raise e end.

(** A list comprehension: the actions run from left to right. *)
Fixpoint for_each {scalar A B} (f : A → M scalar B) (l : list A) : M scalar (list B) :=
  match l with
  | [] => ret []
  | a :: l' => let* b := f a in let* bs := for_each f l' in ret (b :: bs)
  end.

(** The same with an accumulator handed from one action to the next. *)
Fixpoint for_each_acc {scalar A B C} (f : A → C → M scalar (B * C)) (l : list A) (c : C)
  : M scalar (list B * C) :=
  match l with
  | [] => ret ([], c)
  | a :: l' =>
      let* (b, c1) := f a c in
      let* (bs, c2) := for_each_acc f l' c1 in
      ret (b :: bs, c2)
  end.

(** An argument the caller may leave out. *)
Inductive optional (A : Type) : Type :=
  | Omitted
  | Passed (a : A).
Arguments Omitted {A}.
Arguments Passed {A} _.

Definition with_default {A} (d : A) (o : optional A) : A :=
  match o with Omitted => d | Passed a => a end.

(** Python truthiness of [None], [True], [False]. *)
Definition truthy (c : option bool) : bool := default false c.

(** Modelled from the spec: the helper [extract_if_single_element] of
    [kerasprune.utils], which is not among the sources.  As its name and
    the "single inbound tensor" of the edit operations say, a sequence of
    one element stands for that element and any other is kept whole. *)
Definition extract_if_single_element {A} (x : list A) : A + list A :=
  match x with
  | [a] => inl a
  | _ => inr x
  end.

(** [l.index(x)] *)
Fixpoint index_of (x : tensor) (l : list tensor) : option nat :=
  match l with
  | [] => None
  | y :: l' => if decide (y = x) then Some 0 else S <$> index_of x l'
  end.

Definition pair_leb (p q : nat * nat) : bool :=
  (fst p <? fst q) || ((fst p =? fst q) && (snd p <=? snd q)).

Fixpoint insert_sorted (p : nat * nat) (l : list (nat * nat)) : list (nat * nat) :=
  match l with
  | [] => [p]
  | q :: l' => if pair_leb p q then p :: q :: l' else q :: insert_sorted p l'
  end.

(** Modelled from the spec: the helper [sort_x_by_y] of [kerasprune.utils],
    which is not among the sources.  The spec calls its result "ascending
    depth": the entries of [x] ordered by their keys in [y], smallest key
    first (equal keys by the entry itself, as sorting the zipped pairs
    does). *)
Definition sort_x_by_y (x y : list nat) : list nat :=
  snd <$> foldr insert_sorted [] (zip y x).

(** ** The functions of [prune.py] *)

Section prune.
Context {scalar : Type} {K : Keras scalar}.

(** *** Access to Keras objects *)

Definition get_object (layer : layer_id) : M scalar (Layer scalar) :=
  λ st, match store st !! layer with
        | Some l => (inr l, st)
        | None => (inl NoSuchObject, st)
        end.

(** A layer after a call on inputs of shapes [in_shapes] that made
    [node].  Keras builds a layer on its first call: a layer that has no
    node and was given no weights gets the weights its [build] creates;
    any other layer keeps the weights it has. *)
Definition called (l : Layer scalar) (in_shapes : list kshape) (node : Node)
  : Layer scalar :=
  mkLayer (class_name l) (config l)
          (if decide (inbound_nodes l = [] ∧ weights l = [])
           then built_weights l in_shapes else weights l)
          (inbound_nodes l ++ [node]).

(** The layer built if need be, and a new node at the end of
    [layer.inbound_nodes]; the result is the output tensor of that node. *)
Definition append_node (layer : layer_id) (in_shapes : list kshape) (node : Node)
  : M scalar tensor :=
  λ st, match store st !! layer with
        | Some l =>
            (inr (layer, length (inbound_nodes l)),
             mkState (<[layer := called l in_shapes node]> (store st))
                     (rebuilt st) (copied st) (edited st))
        | None => (inl NoSuchObject, st)
        end.

(** A new Python object: an identity no object of the store has. *)
Definition new_object (l : Layer scalar) : M scalar layer_id :=
  λ st, let layer := fresh (dom (store st)) in
        (inr layer, mkState (<[layer := l]> (store st)) (rebuilt st) (copied st) (edited st)).

(** [type(layer).from_config(config)]: a layer of the same class that has
    never been called.  The [weights] entry of the config is what Keras
    gives the layer as its weights when it is first called; the other
    entries are what [get_config] will return. *)
Definition from_config (cls : string) (cfg : gmap string (cfg_value scalar))
  : M scalar layer_id :=
  new_object (mkLayer cls (delete "weights" cfg)
                      (match cfg !! "weights" with
                       | Some (CWeights ws) => ws
                       | _ => []
                       end)
                      []).

(** [layer.inbound_nodes[node_index]] *)
Definition inbound_node (layer : layer_id) (node_index : nat) : M scalar Node :=
  let* l := get_object layer in
  expect IndexError (inbound_nodes l !! node_index).

(** [layer.get_output_at(node_index)] *)
Definition get_output_at (layer : layer_id) (node_index : nat) : M scalar tensor :=
  let* l := get_object layer in
  if decide (node_index < length (inbound_nodes l))
  then ret (layer, node_index)
  else raise IndexError.

(** [layer.output_shape]: defined when the layer has been called and all
    its nodes agree. *)
Definition output_shape (l : Layer scalar) : option kshape :=
  match inbound_nodes l with
  | [] => None
  | n :: ns =>
      if forallb (λ n', bool_decide (output_shapes n' = output_shapes n)) ns
      then Some (output_shapes n)
      else None
  end.

(** [np.ones(shape[1:], dtype=bool)] for a Keras shape. *)
Definition ones_after_batch (sh : kshape) : M scalar (np.ndarray bool) :=
  let* dims := expect TypeError (mapM id (tail sh)) in
  ret (np.ones dims).

(** [layer(inputs)]: Keras checks the inputs against the layer, builds
    the layer if this is its first call, records a new node on the layer
    and returns that node's output tensor. *)
Definition call_layer (layer : layer_id) (ins : list tensor) : M scalar tensor :=
  let* l := get_object layer in
  let* in_shapes := for_each (λ t, let* n := inbound_node (fst t) (snd t) in
                                   ret (output_shapes n)) ins in
  let* out := expect KerasError (call_shape l in_shapes) in
  append_node layer in_shapes (mkNode (fst <$> ins) (snd <$> ins) out).

(** *** [_apply_delete_mask] *)

(** The masks after [extract_if_single_element], for the numpy calls of
    the Dense, Flatten and Conv2D branches.  These kinds take one input,
    so their nodes have one inbound edge and one mask; numpy's coercion
    of a tuple of masks is left out as [TupleOfMasks]. *)
Definition the_mask (inbound_delete_masks : list mask) : M scalar (np.ndarray bool) :=
  match extract_if_single_element inbound_delete_masks with
  | inl (Some m) => ret m
  | _ => raise TupleOfMasks
  end.

Definition _apply_delete_mask (layer : layer_id) (inbound_delete_masks : list mask)
  : M scalar (layer_id * mask) :=
  if forallb (λ m : mask, bool_decide (m = None)) inbound_delete_masks then
    ret (layer, None)
  else
    let* l := get_object layer in
    let layer_class := class_name l in
    if decide (layer_class = "InputLayer") then
      raise MaskOnInputLayer
    else if decide (layer_class = "Dense") then
      let ws := weights l in
      let* w0 := expect IndexError (ws !! 0) in
      let* inbound := the_mask inbound_delete_masks in
      let* rows := expect IndexError (np.where0 inbound) in
      let* w0' := expect IndexError (np.take_rows w0 rows) in
      let ws := <[0 := w0']> ws in
      let cfg := <["weights" := CWeights ws]> (config l) in
      let* new_layer := from_config layer_class cfg in
      let* sh := expect AttributeError (output_shape l) in
      let* outbound := ones_after_batch sh in
      ret (new_layer, Some outbound)
    else if decide (layer_class = "Flatten") then
      let* inbound := the_mask inbound_delete_masks in
      ret (layer, Some (np.flatten inbound))
    else if decide (layer_class = "Conv2D") then
      let* sh := expect AttributeError (output_shape l) in
      let* outbound := ones_after_batch sh in
      let* k_size := match config l !! "kernel_size" with
                     | Some (CTuple ks) => ret ks
                     | _ => raise AttributeError
                     end in
      let* data_format := match config l !! "data_format" with
                          | Some (CStr s) => ret s
                          | _ => raise AttributeError
                          end in
      let* inbound := the_mask inbound_delete_masks in
      let* inbound := if decide (data_format = "channels_first")
                      then expect IndexError (np.swapaxes_0_last inbound)
                      else ret inbound in
      let* inbound := expect IndexError (np.slice_leading inbound k_size) in
      let ws := weights l in
      let* w0 := expect IndexError (ws !! 0) in
      let* (_, f) := expect IndexError (np.last_axis (np.shape w0)) in
      let full_delete_mask := np.repeat_new_last inbound f in
      let* _ := if decide (2 ≤ length (np.shape w0)) then ret () else raise IndexError in
      let* picked := expect IndexError (np.bool_index w0 full_delete_mask) in
      let* w0' := expect ReshapeError (np.reshape_infer_penultimate picked (np.shape w0)) in
      let ws := <[0 := w0']> ws in
      let cfg := <["weights" := CWeights ws]> (config l) in
      let* new_layer := from_config layer_class cfg in
      ret (new_layer, Some outbound)
    else
      raise (UnsupportedOperationKind layer_class).

(** *** [rebuild_submodel] and its closure [_rebuild_rec] *)

Definition note_rebuilt (node : node_key) : M scalar unit :=
  λ st, (inr (), mkState (store st) (rebuilt st ++ [node]) (copied st) (edited st)).

(** [fuel] is the depth the interpreter lets the recursion reach.  The
    test [not layer] of the source is never true of a layer object and
    has no counterpart. *)
Fixpoint _rebuild_rec (fuel : nat) (model_inputs : list tensor)
    (replace_tensors : gmap tensor (tensor * mask))
    (input_delete_masks : list mask)
    (ln : layer_id * nat)
    (finished_nodes : gmap node_key (tensor * mask))
  : M scalar ((tensor * mask) * gmap node_key (tensor * mask)) :=
  match fuel with
  | 0 => raise RecursionError
  | S fuel' =>
      let '(layer, node_index) := ln in
      let* node := inbound_node layer node_index in
      let* layer_output := get_output_at layer node_index in
      match replace_tensors !! layer_output with
      | Some substitute => ret (substitute, finished_nodes)
      | None =>
          match finished_nodes !! (layer, node_index) with
          | Some done => ret (done, finished_nodes)
          | None =>
              match index_of layer_output model_inputs with
              | Some k =>
                  let* output_mask := expect IndexError (input_delete_masks !! k) in
                  ret ((layer_output, output_mask), finished_nodes)
              | None =>
                  let* (results, finished_nodes) :=
                    for_each_acc
                      (_rebuild_rec fuel' model_inputs replace_tensors input_delete_masks)
                      (zip (inbound_layers node) (node_indices node))
                      finished_nodes in
                  let* _ := if decide (results = [])
                            then raise DanglingOperation else ret () in
                  let* _ := note_rebuilt (layer, node_index) in
                  let* (new_layer, output_mask) :=
                    _apply_delete_mask layer (snd <$> results) in
                  let* output := call_layer new_layer (fst <$> results) in
                  ret ((output, output_mask),
                       <[(layer, node_index) := (output, output_mask)]> finished_nodes)
              end
          end
      end
  end.

Definition rebuild_submodel (fuel : nat) (model_inputs : list tensor)
    (output_layers : list layer_id) (output_layers_node_indices : list nat)
    (replace_tensors : gmap tensor (tensor * mask))
    (finished_nodes : gmap node_key (tensor * mask))
    (input_delete_masks : option (list mask))
  : M scalar (list tensor * list mask * gmap node_key (tensor * mask)) :=
  let input_delete_masks :=
    match input_delete_masks with
    | None | Some [] => replicate (length model_inputs) None
    | Some ms => ms
    end in
  let* (results, finished_nodes) :=
    for_each_acc (_rebuild_rec fuel model_inputs replace_tensors input_delete_masks)
                 (zip output_layers output_layers_node_indices)
                 finished_nodes in
  let* _ := if decide (results = []) then raise DanglingOperation else ret () in
  ret (fst <$> results, snd <$> results, finished_nodes).

(** *** The helpers of [model_utils] and [utils] *)

(** Modelled from the spec: the helper [clean_copy] of
    [kerasprune.model_utils], which is not among the sources: a deep copy
    of the graph that shares no object with the original.  The copy
    itself is Keras's ([copy_model]); each call is counted. *)
Definition clean_copy (model : Model) : M scalar Model :=
  λ st, match copy_model model (store st) with
        | Some (model', store') =>
            (inr model', mkState store' (rebuilt st) (copied st ++ [model]) (edited st))
        | None => (inl KerasError, st)
        end.

(** Modelled from the spec: the helper [get_node_depth] of
    [kerasprune.model_utils], which is not among the sources: the
    distance of a node instance from the declared outputs, as the model
    holds it; a node instance outside the model has none. *)
Definition get_node_depth (model : Model) (node : node_key) : M scalar nat :=
  expect KeyError (node_depths model !! node).

(** Modelled from the spec: the helper [check_nodes_in_model] of
    [kerasprune.model_utils], which is not among the sources: for each
    of the nodes, whether the model contains it. *)
Definition check_nodes_in_model (model : Model) (nodes : list node_key) : list bool :=
  (λ node, bool_decide (is_Some (node_depths model !! node))) <$> nodes.

(** Modelled from the spec: the helper [bool_to_index] of
    [kerasprune.utils], which is not among the sources: the positions
    that hold [True]. *)
Definition bool_to_index (l : list bool) : list nat := np.flatnonzero_from 0 l.

(** [model.get_layer(name)]: the first layer of the model with that name. *)
Definition get_layer (model : Model) (name : string) : M scalar layer_id :=
  λ st, match List.find (λ layer, match store st !! layer with
                                  | Some l => match config l !! "name" with
                                              | Some (CStr n) => bool_decide (n = name)
                                              | _ => false
                                              end
                                  | None => false
                                  end) (layers model) with
        | Some layer => (inr layer, st)
        | None => (inl OperationNotFound, st)
        end.

(** [Model(inputs, outputs)] *)
Definition new_model (ins outs : list tensor) : M scalar Model :=
  λ st, match build_model ins outs (store st) with
        | Some model => (inr model, st)
        | None => (inl KerasError, st)
        end.

(** *** [reused_core_logic] *)

(** The order in which the chosen nodes of [layer] are edited. *)
Definition sorted_indices (model : Model) (layer : layer_id) (node_indices : list nat)
  : M scalar (list nat) :=
  let* node_depths :=
    for_each (λ node_index,
                let* _ := inbound_node layer node_index in
                get_node_depth model (layer, node_index)) node_indices in
  ret (reverse (sort_x_by_y node_indices node_depths)).

(** One turn of the loop over [sorted_indices]. *)
Definition edit_node (fuel : nat) (model : Model) (layer : layer_id)
    (modifier_function : layer_id → nat → list tensor
                         → M scalar (gmap tensor (tensor * mask)))
    (input_delete_masks : option (list mask))
    (node_index : nat)
    (acc : gmap tensor (tensor * mask) * gmap node_key (tensor * mask))
  : M scalar (unit * (gmap tensor (tensor * mask) * gmap node_key (tensor * mask))) :=
  let '(replace_tensors, finished_nodes) := acc in
  let* inbound := inbound_node layer node_index in
  let* (submodel_outputs, _, submodel_finished_outputs) :=
    rebuild_submodel fuel (inputs model) (inbound_layers inbound) (node_indices inbound)
                     replace_tensors finished_nodes input_delete_masks in
  let finished_nodes := submodel_finished_outputs ∪ finished_nodes in
  let* replace_inputs := modifier_function layer node_index submodel_outputs in
  ret ((), (replace_inputs ∪ replace_tensors, finished_nodes)).

Definition reused_core_logic (fuel : nat) (model : Model) (layer : layer_id)
    (modifier_function : layer_id → nat → list tensor
                         → M scalar (gmap tensor (tensor * mask)))
    (node_indices : option (list nat)) (copy : option bool)
    (input_delete_masks : option (list mask))
  : M scalar Model :=
  if bool_decide (layer ∈ layers model) then
    let* node_indices :=
      match node_indices with
      | None | Some [] =>
          let* l := get_object layer in
          ret (bool_to_index
                 (check_nodes_in_model model
                    (pair layer <$> seq 0 (length (inbound_nodes l)))))
      | Some ns => ret ns
      end in
    let* (model, layer) :=
      if truthy copy then
        let* model' := clean_copy model in
        let* l := get_object layer in
        let* name := match config l !! "name" with
                     | Some (CStr name) => ret name
                     | _ => raise KeyError
                     end in
        let* layer' := get_layer model' name in
        ret (model', layer')
      else ret (model, layer) in
    let* order := sorted_indices model layer node_indices in
    let* (_, (replace_tensors, finished_nodes)) :=
      for_each_acc (edit_node fuel model layer modifier_function input_delete_masks)
                   order (∅, ∅) in
    let* (new_outputs, _, _) :=
      rebuild_submodel fuel (inputs model) (output_layers model)
                       (output_layers_node_indices model)
                       replace_tensors finished_nodes input_delete_masks in
    let* new := new_model (inputs model) new_outputs in
    if truthy copy then clean_copy new else ret new
  else raise OperationNotFound.

(** *** The edits *)

Definition _insert_layer (new_layer : layer_id)
    (this_layer : layer_id) (node_index : nat) (ins : list tensor)
  : M scalar (gmap tensor (tensor * mask)) :=
  if decide (2 ≤ length ins) then raise MultiInputUnsupported
  else
    let* new_output := call_layer new_layer ins in
    let* node := inbound_node this_layer node_index in
    let* l0 := expect IndexError (inbound_layers node !! 0) in
    let* i0 := expect IndexError (node_indices node !! 0) in
    let* old_output := get_output_at l0 i0 in
    ret {[ old_output := (new_output, None) ]}.

Definition insert_layer (fuel : nat) (model : Model) (layer new_layer : layer_id)
    (node_indices : option (list nat)) (copy : optional (option bool)) : M scalar Model :=
  reused_core_logic fuel model layer (_insert_layer new_layer)
                    node_indices (with_default (Some true) copy) None.

Definition _replace_layer (new_layer : layer_id)
    (this_layer : layer_id) (node_index : nat) (ins : list tensor)
  : M scalar (gmap tensor (tensor * mask)) :=
  let* new_output := call_layer new_layer ins in
  let* replaced_layer_output := get_output_at this_layer node_index in
  ret {[ replaced_layer_output := (new_output, None) ]}.

Definition replace_layer (fuel : nat) (model : Model) (layer new_layer : layer_id)
    (node_indices : option (list nat)) (copy : optional (option bool)) : M scalar Model :=
  reused_core_logic fuel model layer (_replace_layer new_layer)
                    node_indices (with_default (Some true) copy) None.

(** With no input at all the source would map the deleted output to an
    empty tuple; the rebuilder never hands over an empty sequence, and
    the case is reported as [DanglingOperation]. *)
Definition _delete_layer
    (this_layer : layer_id) (node_index : nat) (ins : list tensor)
  : M scalar (gmap tensor (tensor * mask)) :=
  if decide (2 ≤ length ins) then raise MultiInputUnsupported
  else
    match extract_if_single_element ins with
    | inl input =>
        let* deleted_layer_output := get_output_at this_layer node_index in
        ret {[ deleted_layer_output := (input, None) ]}
    | inr _ => raise DanglingOperation
    end.

Definition delete_layer (fuel : nat) (model : Model) (layer : layer_id)
    (node_indices : option (list nat)) (copy : optional (option bool)) : M scalar Model :=
  reused_core_logic fuel model layer _delete_layer
                    node_indices (with_default (Some true) copy) None.

(** *** [delete_channels] *)

Definition _make_delete_mask (layer : layer_id) (channel_indices : list Z)
  : M scalar (np.ndarray bool) :=
  let* l := get_object layer in
  let layer_config := config l in
  let channels_first :=
    match layer_config !! "data_format" with
    | Some (CStr fmt) => bool_decide (fmt = "channels_first")
    | _ => false
    end in
  let* sh := expect AttributeError (output_shape l) in
  let* dims := expect TypeError (mapM id (tail sh)) in
  expect IndexError (np.ones_with_false dims channels_first channel_indices).

Definition _delete_channel_weights (layer : layer_id) (channel_indices : list Z)
  : M scalar layer_id :=
  let* l := get_object layer in
  let layer_config := config l in
  let* channels_string :=
    if decide (is_Some (layer_config !! "units")) then ret "units"
    else if decide (is_Some (layer_config !! "filters")) then ret "filters"
    else raise MissingChannelDimension in
  let* channels := match layer_config !! channels_string with
                   | Some (CInt n) => ret n
                   | _ => raise TypeError
                   end in
  if existsb (λ i, channels <? i + 1)%Z channel_indices then
    raise (ChannelIndexOutOfRange channels)
  else
    let layer_config :=
      <[channels_string := CInt (channels - Z.of_nat (length channel_indices))]>
        layer_config in
    let* ws := expect IndexError
                 (mapM (λ w, np.delete w channel_indices) (weights l)) in
    let layer_config := <["weights" := CWeights ws]> layer_config in
    from_config (class_name l) layer_config.

(** [model.input_shape], for the model used as a layer: one shape when
    the model has one input, a list of shapes otherwise. *)
Definition model_input_shape (model : Model) : option (kshape + list kshape) :=
  match model_inbound_nodes model with
  | [] => None
  | n :: ns =>
      if forallb (λ n', bool_decide (n' = n)) ns
      then Some (match extract_if_single_element n with
                 | inl sh => inl sh
                 | inr shs => inr shs
                 end)
      else None
  end.

Definition _delete_inbound_weights (new_layer : layer_id) (new_delete_mask : np.ndarray bool)
    (this_layer : layer_id) (node_index : nat) (ins : list tensor)
  : M scalar (gmap tensor (tensor * mask)) :=
  let* new_output := call_layer new_layer ins in
  let* deleted_layer_output := get_output_at this_layer node_index in
  ret {[ deleted_layer_output := (new_output, Some new_delete_mask) ]}.

Definition delete_channels (fuel : nat) (model : Model) (layer : layer_id)
    (channel_indices : list Z)
    (node_indices : option (list nat)) (copy : optional (option bool)) : M scalar Model :=
  let* new_layer := _delete_channel_weights layer channel_indices in
  let* new_delete_mask := _make_delete_mask layer channel_indices in
  let* input_delete_masks :=
    for_each (λ _ : list kshape,
                let* sh := expect AttributeError (model_input_shape model) in
                match sh with
                | inl sh => let* m := ones_after_batch sh in ret (Some m)
                | inr _ => raise TypeError
                end)
             (model_inbound_nodes model) in
  reused_core_logic fuel model layer
                    (_delete_inbound_weights new_layer new_delete_mask)
                    node_indices (with_default None copy) (Some input_delete_masks).

End prune.

(** ** Notions the properties are stated with *)

(** The channel count of an operation: its [units], or else its [filters]. *)
Definition channel_count {scalar} (l : Layer scalar) : option Z :=
  match config l !! "units" with
  | Some (CInt n) => Some n
  | Some _ => None
  | None => match config l !! "filters" with
            | Some (CInt n) => Some n
            | _ => None
            end
  end.

(** The inbound edges of a node instance, as the rebuilder walks them. *)
Definition edges_of {scalar} (s : gmap layer_id (Layer scalar)) (n : node_key)
  : option (list node_key) :=
  l ← s !! fst n;
  node ← inbound_nodes l !! snd n;
  Some (zip (inbound_layers node) (node_indices node)).

(** Relations between the state before and the state after a run. *)
Definition any_state {scalar} : relation (state scalar) := λ _ _, True.
Definition same_state {scalar} : relation (state scalar) := eq.

(** The objects of [st] are still there in [st'], each with the nodes it
    had and possibly more after them. *)
Definition extends {scalar} : relation (state scalar) :=
  λ st st', ∀ layer l,
    store st !! layer = Some l →
    ∃ l', store st' !! layer = Some l' ∧ inbound_nodes l `prefix_of` inbound_nodes l'.

(** The model copies counted so far are the same. *)
Definition same_copies {scalar} : relation (state scalar) :=
  λ st st', copied st' = copied st.


(** The rebuild counter is the same. *)
Definition same_rebuilt {scalar} : relation (state scalar) :=
  λ st st', rebuilt st' = rebuilt st.

Definition any_error (e : error) : Prop := True.
Definition not_absent (e : error) : Prop := e ≠ OperationNotFound.
Definition not_multi_input (e : error) : Prop := e ≠ MultiInputUnsupported.

(** [runs R E m]: from any state, [m] ends in a state related to it by [R],
    and an exception it raises satisfies [E]. *)
Definition runs {scalar} (R : relation (state scalar)) (E : error → Prop)
    {A} (m : M scalar A) : Prop :=
  ∀ st r st', m st = (r, st') → R st st' ∧ ∀ e, r = inl e → E e.

(** A run that calls [clean_copy] nowhere. *)
Definition no_copy {scalar A} (m : M scalar A) : Prop := runs same_copies any_error m.

Section rebuild_notions.
Context {scalar : Type} {K : Keras scalar}.
Implicit Types (st : state scalar).
Implicit Types (fin : gmap (nat * nat) ((nat * nat) * option (np.ndarray bool))).
Implicit Types (replace_tensors : gmap (nat * nat) ((nat * nat) * option (np.ndarray bool))).

(** A set [S] of node instances is blocked on [x] when none of them is
    finished, substituted or an input, and each has an inbound edge into
    [S] or to [x]: the rebuild of each waits for another of them or for
    [x]. *)
Definition blocked_on model_inputs replace_tensors (S : nat * nat → Prop)
    (x : nat * nat) fin st : Prop :=
  ∀ s, S s →
    fin !! s = None ∧ replace_tensors !! s = None ∧ index_of s model_inputs = None ∧
    ∃ es, edges_of (store st) s = Some es ∧ ∃ y, y ∈ es ∧ (S y ∨ y = x).

(** A successful visit of [x] neither finishes a node instance blocked
    on [x] nor is a visit of one. *)
Definition visit_keeps_blocked fuel model_inputs replace_tensors masks : Prop :=
  ∀ (S : nat * nat → Prop) x fin st res fin' st',
    blocked_on model_inputs replace_tensors S x fin st →
    _rebuild_rec fuel model_inputs replace_tensors masks x fin st
    = (inr (res, fin'), st') →
    ¬ S x ∧ ∀ s, S s → fin' !! s = None.

(** From cache [fin] in state [st] to cache [fin'] in state [st'], the
    node instances [new] were rebuilt, each once, and they are the ones
    the cache gained. *)
Definition grows_by model_inputs replace_tensors (new : list (nat * nat))
    fin st fin' st' : Prop :=
  fin ⊆ fin' ∧
  rebuilt st' = rebuilt st ++ new ∧
  NoDup new ∧
  (∀ n, n ∈ new ↔ fin !! n = None ∧ is_Some (fin' !! n)) ∧
  (∀ n, n ∈ new →
     replace_tensors !! n = None ∧ index_of n model_inputs = None ∧
     is_Some (edges_of (store st') n)).

(** The result of a visit of [x] is what the cache holds for [x], unless
    [x] is substituted or an input. *)
Definition cached_if_rebuilt model_inputs replace_tensors fin'
    (x : nat * nat) (res : (nat * nat) * option (np.ndarray bool)) : Prop :=
  replace_tensors !! x = None → index_of x model_inputs = None → fin' !! x = Some res.

(** The node instances a run counted, whether it returned or raised:
    none twice, and none that the cache held at the start. *)
Definition counted_once (fin : gmap (nat * nat) ((nat * nat) * option (np.ndarray bool)))
    (st st' : state scalar) : Prop :=
  ∃ new, rebuilt st' = rebuilt st ++ new ∧ NoDup new ∧ ∀ n, n ∈ new → fin !! n = None.

Definition visit_spec fuel model_inputs replace_tensors masks : Prop :=
  ∀ x fin st res fin' st',
    _rebuild_rec fuel model_inputs replace_tensors masks x fin st
    = (inr (res, fin'), st') →
    ∃ new, grows_by model_inputs replace_tensors new fin st fin' st' ∧
           cached_if_rebuilt model_inputs replace_tensors fin' x res.

End rebuild_notions.

(** Every object of [st] is in [st'] with the class and the config it
    had, and with the nodes it had and possibly more after them; and
    with the weights it had, unless it was a layer never called and
    without weights, which its first call builds. *)
Definition kept {scalar} : relation (state scalar) :=
  λ st st', ∀ layer l,
    store st !! layer = Some l →
    ∃ l', store st' !! layer = Some l' ∧
          class_name l' = class_name l ∧ config l' = config l ∧
          (inbound_nodes l ≠ [] ∨ weights l ≠ [] → weights l' = weights l) ∧
          inbound_nodes l `prefix_of` inbound_nodes l'.

(** A model copy that leaves the existing objects as they are. *)
Definition copy_keeps_objects {scalar} (K : Keras scalar) : Prop :=
  ∀ model s model' s', copy_model model s = Some (model', s') → s ⊆ s'.

(** A substitution map or a cache none of whose entries carries a mask. *)
Definition masks_absent
    (m : gmap (nat * nat) ((nat * nat) * option (np.ndarray bool))) : Prop :=
  ∀ k v, m !! k = Some v → snd v = None.

(** Why a visit of [x] returns [res] without rebuilding anything: the node
    exists, and [x] is substituted by [res], or cached with [res], or a
    graph input whose mask makes up [res]. *)
Definition settled {scalar : Type} (model_inputs : list (nat * nat))
    (replace_tensors : gmap (nat * nat) ((nat * nat) * option (np.ndarray bool)))
    (masks : list (option (np.ndarray bool)))
    (x : nat * nat) (res : (nat * nat) * option (np.ndarray bool))
    (fin : gmap (nat * nat) ((nat * nat) * option (np.ndarray bool)))
    (st : state scalar) : Prop :=
  is_Some (edges_of (store st) x) ∧
  (replace_tensors !! x = Some res ∨
   (replace_tensors !! x = None ∧ fin !! x = Some res) ∨
   (replace_tensors !! x = None ∧ fin !! x = None ∧
    ∃ k m, index_of x model_inputs = Some k ∧ masks !! k = Some m ∧ res = (x, m))).

(** The cache [fin'] holds what [fin] holds, and what it holds besides is
    no graph input. *)
Definition cache_grows (model_inputs : list (nat * nat))
    (fin fin' : gmap (nat * nat) ((nat * nat) * option (np.ndarray bool))) : Prop :=
  fin ⊆ fin' ∧
  ∀ k, fin !! k = None → is_Some (fin' !! k) → index_of k model_inputs = None.

(** The tensor [out] that a rebuild started in [st0] holds in its cache
    for the node instance [n] mirrors [n]: it is the output of a node
    that [st0] did not have, on an operation of the class of [n]'s, and
    the inbound tensors of that node are, edge by edge, what the visits
    of [n]'s inbound edges return. *)
Definition wired {scalar : Type} (model_inputs : list (nat * nat))
    (replace_tensors : gmap (nat * nat) ((nat * nat) * option (np.ndarray bool)))
    (masks : list (option (np.ndarray bool)))
    (st0 : state scalar)
    (fin : gmap (nat * nat) ((nat * nat) * option (np.ndarray bool)))
    (st : state scalar) (n out : nat * nat) : Prop :=
  ∃ es results l l',
    edges_of (store st) n = Some es ∧
    edges_of (store st0) out = None ∧
    edges_of (store st) out = Some (fst <$> results) ∧
    Forall2 (λ y res, settled model_inputs replace_tensors masks y res fin st) es results ∧
    store st !! fst n = Some l ∧ store st !! fst out = Some l' ∧
    class_name l' = class_name l.

(** The log of callback invocations is the same. *)
Definition same_edited {scalar} : relation (state scalar) :=
  λ st st', edited st' = edited st.

(** An entry in the log of callback invocations. *)
Definition note_edited {scalar} (n : nat * nat) : M scalar unit :=
  λ st, (inr (), mkState (store st) (rebuilt st) (copied st) (edited st ++ [n])).

(** The callback [f] of an edit, made to log each of its invocations:
    the node instance it is invoked for is written to the log before [f]
    runs.  [f] is otherwise as it is. *)
Definition logged {scalar A} (f : nat → nat → list (nat * nat) → M scalar A)
  : nat → nat → list (nat * nat) → M scalar A :=
  λ this_layer node_index ins,
    let* _ := note_edited (this_layer, node_index) in
    f this_layer node_index ins.

(** ** A small host framework and graphs to run the edits on *)

(** A small Keras.  A Dense layer accepts one input of rank two whose
    width is the number of rows of its kernel, or any width when it has
    no weights yet; Activation and Dropout layers accept one input and
    keep its shape.  Every other call is refused: among them a call on
    several tensors, which this module hands over as a tuple (the result
    of [zip]) and Keras does not take for a list, and so every call of a
    merge layer. *)
Definition toy_call_shape (l : Layer Z) (shapes : list kshape) : option kshape :=
  match shapes with
  | [[b; Some n]] =>
      if decide (class_name l = "Dense") then
        match config l !! "units" with
        | Some (CInt u) =>
            match weights l with
            | [] => Some [b; Some (Z.to_nat u)]
            | kernel :: _ =>
                if decide (np.shape kernel = [n; Z.to_nat u])
                then Some [b; Some (Z.to_nat u)] else None
            end
        | _ => None
        end
      else if decide (class_name l = "Activation" ∨ class_name l = "Dropout")
      then Some [b; Some n]
      else None
  | _ => None
  end.

(** What [build] creates: for a Dense layer a kernel and a bias (of
    zeros here), nothing for the other layers. *)
Definition toy_built_weights (l : Layer Z) (shapes : list kshape) : list (np.ndarray Z) :=
  match shapes, config l !! "units" with
  | [[_; Some n]], Some (CInt u) =>
      if decide (class_name l = "Dense")
      then [np.array [n; Z.to_nat u] (replicate (n * Z.to_nat u) 0%Z);
            np.array [Z.to_nat u] (replicate (Z.to_nat u) 0%Z)]
      else []
  | _, _ => []
  end.

#[export] Instance toy_keras : Keras Z := {|
  call_shape := toy_call_shape;
  built_weights := toy_built_weights;
  build_model := λ ins outs _, Some (mkModel ins (fst <$> outs) (snd <$> outs) [] ∅ []);
  copy_model := λ m s, Some (m, s);
|}.

Definition toy_dense (name : string) (units : Z) (ws : list (np.ndarray Z))
    (nodes : list Node) : Layer Z :=
  mkLayer "Dense" (<["name" := CStr name]> (<["units" := CInt units]> ∅)) ws nodes.

Definition toy_input (width : nat) : Layer Z :=
  mkLayer "InputLayer" (<["name" := CStr "input"]> ∅) []
          [mkNode [] [] [None; Some width]].

(** A chain: input(4) -> dense_1(3) -> dense_2(2). *)
Definition chain_dense_1 : Layer Z :=
  toy_dense "dense_1" 3
    [np.array [4; 3] [1; 2; 3; 4; 5; 6; 7; 8; 9; 10; 11; 12]%Z; np.array [3] [0; 0; 0]%Z]
    [mkNode [0] [0] [None; Some 3]].

Definition chain_dense_2 : Layer Z :=
  toy_dense "dense_2" 2
    [np.array [3; 2] [1; 2; 3; 4; 5; 6]%Z; np.array [2] [7; 8]%Z]
    [mkNode [1] [0] [None; Some 2]].

Definition chain_store : gmap layer_id (Layer Z) :=
  <[0 := toy_input 4]> (<[1 := chain_dense_1]> (<[2 := chain_dense_2]> ∅)).

Definition chain_model : Model :=
  mkModel [(0, 0)] [2] [0] [0; 1; 2]
          (<[(2, 0) := 0]> (<[(1, 0) := 1]> (<[(0, 0) := 2]> ∅)))
          [[[None; Some 4]]].

Definition chain_state : state Z := mkState chain_store [] [] [].

(** A Dense layer of three units that has not been called: it has no
    node and no weights yet. *)
Definition spare_dense : Layer Z := toy_dense "spare" 3 [] [].

(** The chain, and the spare layer beside it. *)
Definition chain_spare_state : state Z :=
  mkState (<[3 := spare_dense]> chain_store) [] [] [].

(** The same graph seen by a model that does not hold [dense_1]. *)
Definition other_model : Model :=
  mkModel [(0, 0)] [2] [0] [0; 2] (<[(2, 0) := 0]> (<[(0, 0) := 1]> ∅))
          [[[None; Some 4]]].

(** A mask over the three outputs of [dense_1] that drops the middle one. *)
Definition keep_0_2 : np.ndarray bool := np.array [3] [true; false; true].

(** The chain after [dense_2] was given that mask. *)
Definition chain_after_mask : state Z :=
  Eval vm_compute in snd (_apply_delete_mask (scalar:=Z) 2 [Some keep_0_2] chain_state).

(** A diamond: input(4) -> trunk(3) -> head_a(2), head_b(2) -> add; and a
    layer [merge] that has not been called yet. *)
Definition diamond_trunk : Layer Z :=
  toy_dense "trunk" 3
    [np.array [4; 3] [1; 2; 3; 4; 5; 6; 7; 8; 9; 10; 11; 12]%Z; np.array [3] [0; 0; 0]%Z]
    [mkNode [0] [0] [None; Some 3]].

Definition diamond_head (name : string) : Layer Z :=
  toy_dense name 2
    [np.array [3; 2] [1; 2; 3; 4; 5; 6]%Z; np.array [2] [7; 8]%Z]
    [mkNode [1] [0] [None; Some 2]].

Definition diamond_add : Layer Z :=
  mkLayer "Add" (<["name" := CStr "add"]> ∅) [] [mkNode [2; 3] [0; 0] [None; Some 2]].

Definition diamond_merge : Layer Z :=
  mkLayer "Concatenate" (<["name" := CStr "merge"]> ∅) [] [].

Definition diamond_store : gmap layer_id (Layer Z) :=
  <[0 := toy_input 4]>
  (<[1 := diamond_trunk]>
  (<[2 := diamond_head "head_a"]>
  (<[3 := diamond_head "head_b"]>
  (<[4 := diamond_add]>
  (<[5 := diamond_merge]> ∅))))).

Definition diamond_state : state Z := mkState diamond_store [] [] [].

(** The model whose two outputs are the heads. *)
Definition diamond_model : Model :=
  mkModel [(0, 0)] [2; 3] [0; 0] [0; 1; 2; 3]
          (<[(2, 0) := 0]> (<[(3, 0) := 0]> (<[(1, 0) := 1]> (<[(0, 0) := 2]> ∅))))
          [[[None; Some 4]]].

(** The model whose output is the sum of the heads. *)
Definition join_model : Model :=
  mkModel [(0, 0)] [4] [0] [0; 1; 2; 3; 4]
          (<[(4, 0) := 0]> (<[(2, 0) := 1]> (<[(3, 0) := 1]>
             (<[(1, 0) := 2]> (<[(0, 0) := 3]> ∅)))))
          [[[None; Some 4]]].

(** One layer applied twice: input(3) -> shared -> shared. *)
Definition shared_dense : Layer Z :=
  toy_dense "shared" 3
    [np.array [3; 3] [1; 2; 3; 4; 5; 6; 7; 8; 9]%Z; np.array [3] [0; 0; 0]%Z]
    [mkNode [0] [0] [None; Some 3]; mkNode [1] [0] [None; Some 3]].

Definition shared_state : state Z :=
  mkState (<[0 := toy_input 3]> (<[1 := shared_dense]> ∅)) [] [] [].

(** The same, and the spare layer beside it. *)
Definition shared_spare_state : state Z :=
  mkState (<[0 := toy_input 3]> (<[1 := shared_dense]> (<[2 := spare_dense]> ∅))) [] [] [].

Definition shared_model : Model :=
  mkModel [(0, 0)] [1] [1] [0; 1]
          (<[(1, 1) := 0]> (<[(1, 0) := 1]> (<[(0, 0) := 2]> ∅)))
          [[[None; Some 3]]].

(** A substitution for the graph input of the chain, and a cache that
    also holds an entry for it. *)
Definition input_substitution : gmap (nat * nat) ((nat * nat) * option (np.ndarray bool)) :=
  {[ (0, 0) := ((1, 0), None) ]}.

Definition input_cache : gmap (nat * nat) ((nat * nat) * option (np.ndarray bool)) :=
  {[ (0, 0) := ((2, 0), None) ]}.

(** A convolution with a 1 by 1 kernel over two input channels and one
    filter, called once on a 1 by 1 image; and a mask over its input that
    drops the second channel. *)
Definition conv_layer : Layer Z :=
  mkLayer "Conv2D"
    (<["name" := CStr "conv"]>
       (<["filters" := CInt 1]>
          (<["kernel_size" := CTuple [1; 1]]>
             (<["data_format" := CStr "channels_last"]> ∅))))
    [np.array [1; 1; 2; 1] [5; 6]%Z; np.array [1] [0]%Z]
    [mkNode [0] [0] [None; Some 1; Some 1; Some 1]].

Definition conv_state : state Z :=
  mkState (<[0 := mkLayer "InputLayer" (<["name" := CStr "image"]> ∅) []
                    [mkNode [] [] [None; Some 1; Some 1; Some 2]]]>
             (<[1 := conv_layer]> ∅)) [] [] [].

Definition keep_first_channel : np.ndarray bool := np.array [1; 1; 2] [true; false].

(** ** Properties *)

Section monad_facts.
Context {scalar : Type}.

Lemma bind_ok {A B} (m : M scalar A) (k : A → M scalar B) st b st' :
  bind m k st = (inr b, st') ↔
  ∃ a st1, m st = (inr a, st1) ∧ k a st1 = (inr b, st').
Proof.
  unfold bind. destruct (m st) as [[e|a] st1]; split.
  - intros [=].
  - intros (a & st2 & [=] & _).
  - eauto.
  - intros (a' & st2 & [= -> ->] & Hk). done.
Qed.

Lemma bind_err {A B} (m : M scalar A) (k : A → M scalar B) st e st' :
  m st = (inl e, st') → bind m k st = (inl e, st').
Proof. unfold bind. by intros ->. Qed.

Lemma bind_step {A B} (m : M scalar A) (k : A → M scalar B) st a st1 :
  m st = (inr a, st1) → bind m k st = k a st1.
Proof. unfold bind. by intros ->. Qed.

Lemma expect_ok {A} e (o : option A) (st : state scalar) a st' :
  expect e o st = (inr a, st') ↔ o = Some a ∧ st' = st.
Proof.
  destruct o as [x|]; simpl; unfold ret, raise; split.
  - by intros [= -> ->].
  - by intros [[= ->] ->].
  - intros [=].
  - by intros [[=] _].
Qed.

Lemma expect_some {A} e (o : option A) (st : state scalar) a :
  o = Some a → expect e o st = (inr a, st).
Proof. by intros ->. Qed.

Lemma for_each_acc_length {A B C} (f : A → C → M scalar (B * C)) l c st bs c' st' :
  for_each_acc f l c st = (inr (bs, c'), st') → length bs = length l.
Proof.
  revert c st bs c' st'. induction l as [|a l IH]; simpl; intros c st bs c' st' H.
  - by injection H as <- _ _.
  - apply bind_ok in H as ([b c1] & st1 & _ & H).
    apply bind_ok in H as ([bs1 c2] & st2 & H & Hret).
    injection Hret as <- _ _. simpl. f_equal. eauto.
Qed.

End monad_facts.

(** Splits a successful run of a sequence of statements into its steps. *)
Ltac run_ok H :=
  repeat match type of H with
         | bind _ _ _ = (inr _, _) =>
             let a := fresh "a" in
             let st := fresh "st" in
             let H1 := fresh "Hrun" in
             apply bind_ok in H as (a & st & H1 & H)
         end.

(** *** numpy *)

Section np_facts.

Lemma last_axis_snoc (pre : list nat) (n : nat) :
  np.last_axis (pre ++ [n]) = Some (pre, n).
Proof. unfold np.last_axis. by rewrite reverse_snoc, reverse_involutive. Qed.

Lemma norm_indices_in_range (n : nat) (idx : list Z) :
  Forall (λ i, 0 ≤ i < Z.of_nat n)%Z idx →
  np.norm_indices n idx = Some (Z.to_nat <$> idx).
Proof.
  intros Hall. unfold np.norm_indices. apply mapM_Some.
  induction Hall as [|i idx Hi Hall IH]; simpl; constructor; [|done].
  unfold np.norm_index. by rewrite decide_True.
Qed.

Lemma count_true_fmap {A} (f : A → Prop) `{!∀ x, Decision (f x)} (l : list A) :
  np.count_true ((λ x, bool_decide (f x)) <$> l) = length (filter f l).
Proof.
  unfold np.count_true. induction l as [|x l IH]; [done|].
  rewrite fmap_cons, filter_cons. simpl.
  destruct (decide (f x)) as [Hx|Hx].
  - rewrite bool_decide_eq_true_2 by done. simpl. by rewrite IH.
  - rewrite bool_decide_eq_false_2 by done. simpl. by rewrite IH.
Qed.

(** numpy's keep mask drops every index once, however often it is listed. *)
Lemma count_true_keep_mask (n : nat) (dead : list nat) :
  Forall (λ j, j < n) dead →
  np.count_true (np.keep_mask n dead) + length (remove_dups dead) = n.
Proof.
  intros Hall. unfold np.keep_mask. rewrite count_true_fmap.
  assert (length (filter (λ j, j ∈ dead) (seq 0 n)) = length (remove_dups dead)) as <-.
  { apply Permutation_length, NoDup_Permutation.
    - apply NoDup_filter, NoDup_seq.
    - apply NoDup_remove_dups.
    - intros x. rewrite list_elem_of_filter, elem_of_remove_dups, elem_of_seq.
      split; [by intros [? _]|]. intros Hx. split; [done|].
      rewrite Forall_forall in Hall. specialize (Hall _ Hx). lia. }
  rewrite Nat.add_comm, <-length_app.
  rewrite (Permutation_length (filter_app_complement (λ j, j ∈ dead) (seq 0 n))).
  apply length_seq.
Qed.

Lemma length_remove_dups_inj {A B} `{!EqDecision A, !EqDecision B}
    (f : A → B) (l : list A) :
  (∀ x y, x ∈ l → y ∈ l → f x = f y → x = y) →
  length (remove_dups (f <$> l)) = length (remove_dups l).
Proof.
  intros Hinj. rewrite <-(length_fmap f (remove_dups l)).
  apply Permutation_length, NoDup_Permutation.
  - apply NoDup_remove_dups.
  - apply NoDup_fmap_2_strong; [|apply NoDup_remove_dups].
    intros x y. rewrite !elem_of_remove_dups. apply Hinj.
  - intros y. rewrite elem_of_remove_dups, !list_elem_of_fmap.
    by setoid_rewrite elem_of_remove_dups.
Qed.

Lemma length_remove_dups_le {A} `{!EqDecision A} (l : list A) :
  length (remove_dups l) ≤ length l.
Proof.
  induction l as [|x l IH]; simpl; [done|]. case_decide; simpl; lia.
Qed.

Lemma length_remove_dups_lt {A} `{!EqDecision A} (l : list A) :
  ¬ NoDup l → length (remove_dups l) < length l.
Proof.
  induction l as [|x l IH]; simpl; intros Hdup.
  - destruct Hdup. constructor.
  - case_decide as Hx; simpl.
    + pose proof (length_remove_dups_le l). lia.
    + cut (length (remove_dups l) < length l); [lia|].
      apply IH. intros Hl. apply Hdup. by constructor.
Qed.

(** [np.delete] along the last axis: the axis shrinks by the number of
    distinct indices. *)
Lemma np_delete_shape {A} (w : np.ndarray A) (pre : list nat) (n : nat) (idx : list Z) :
  np.shape w = pre ++ [n] →
  Forall (λ i, 0 ≤ i < Z.of_nat n)%Z idx →
  ∃ w', np.delete w idx = Some w' ∧
        np.shape w' = pre ++ [n - length (remove_dups idx)].
Proof.
  intros Hsh Hall. unfold np.delete.
  rewrite Hsh, last_axis_snoc. simpl.
  rewrite norm_indices_in_range by done. simpl.
  eexists. split; [done|]. simpl. do 2 f_equal.
  assert (Forall (λ j, j < n) (Z.to_nat <$> idx)) as Hdead.
  { apply Forall_fmap. eapply Forall_impl; [done|]. simpl. lia. }
  pose proof (count_true_keep_mask n _ Hdead) as Hcount.
  rewrite length_remove_dups_inj in Hcount; [lia|].
  rewrite Forall_forall in Hall.
  intros x y Hx Hy Hxy. pose proof (Hall _ Hx). pose proof (Hall _ Hy). lia.
Qed.

Lemma flatnonzero_replicate_true (k n : nat) :
  np.flatnonzero_from k (replicate n true) = seq k n.
Proof.
  revert k. induction n as [|n IH]; intros k; simpl; [done|]. by rewrite IH.
Qed.

Lemma where0_ones (d : nat) : np.where0 (np.ones [d]) = Some (seq 0 d).
Proof.
  unfold np.where0, np.ones. cbn [np.shape np.data].
  change (np.size_of [d]) with (d * 1). change (np.size_of []) with 1.
  rewrite Nat.mul_1_r, flatnonzero_replicate_true.
  f_equal. induction (seq 0 d) as [|i l IH]; [done|].
  rewrite fmap_cons, IH. by rewrite Nat.div_1_r.
Qed.

Lemma flat_map_chunks {A} (r d k : nat) (l : list A) :
  flat_map (λ i, np.chunk r i l) (seq k d) = take (d * r) (drop (k * r) l).
Proof.
  revert k. induction d as [|d IH]; intros k; simpl; [done|].
  rewrite IH. unfold np.chunk. rewrite <-take_take_drop, drop_drop.
  do 3 f_equal. lia.
Qed.

(** Selecting the rows of an all-true mask changes nothing. *)
Lemma take_rows_all_true {A} (w : np.ndarray A) (d0 d1 : nat) (rest : list nat) :
  np.shape w = d0 :: d1 :: rest →
  np.wf w →
  ∃ rows, np.where0 (np.ones [d0]) = Some rows ∧ np.take_rows w rows = Some w.
Proof.
  intros Hsh Hwf. exists (seq 0 d0). split; [apply where0_ones|].
  unfold np.take_rows. rewrite Hsh.
  assert (forallb (λ i, i <? d0) (seq 0 d0) = true) as ->.
  { apply forallb_forall. intros i [_ Hi]%in_seq. apply Nat.ltb_lt. lia. }
  rewrite length_seq, flat_map_chunks. rewrite drop_0.
  unfold np.wf in Hwf. rewrite Hsh in Hwf.
  change (np.size_of (d0 :: d1 :: rest)) with (d0 * np.size_of (d1 :: rest)) in Hwf.
  rewrite take_ge by lia.
  destruct w as [sh dat]. cbn [np.shape np.data] in *. by rewrite Hsh.
Qed.

End np_facts.

(** *** What a run may change and which exceptions it may raise *)

Section runs.
Context {scalar : Type}.
Variable R : relation (state scalar).
Hypothesis R_preorder : PreOrder R.
Variable E : error → Prop.

Lemma runs_ret {A} (a : A) : runs R E (ret a).
Proof. intros st r st' [= <- <-]. split; [reflexivity|]. by intros e [=]. Qed.

Lemma runs_raise {A} e : E e → runs R E (raise (A:=A) e).
Proof. intros He st r st' [= <- <-]. split; [reflexivity|]. by intros e' [= <-]. Qed.

Lemma runs_expect {A} e (o : option A) : E e → runs R E (expect e o).
Proof. intros He. destruct o; [apply runs_ret | by apply runs_raise]. Qed.

Lemma runs_bind {A B} (m : M scalar A) (k : A → M scalar B) :
  runs R E m → (∀ a, runs R E (k a)) → runs R E (bind m k).
Proof.
  intros Hm Hk st r st'. unfold bind.
  destruct (m st) as [[e|a] st1] eqn:H1; specialize (Hm _ _ _ H1) as [HR HE].
  - intros [= <- <-]. split; [done|]. intros e' [= <-]. by apply HE.
  - intros H2. specialize (Hk _ _ _ _ H2) as [HR' HE']. split; [|done].
    by etrans.
Qed.

Lemma runs_for_each {A B} (f : A → M scalar B) l :
  (∀ a, runs R E (f a)) → runs R E (for_each f l).
Proof.
  intros Hf. induction l as [|a l IH]; simpl; [apply runs_ret|].
  apply runs_bind; [done|]. intros b. apply runs_bind; [done|].
  intros bs. apply runs_ret.
Qed.

Lemma runs_for_each_acc {A B C} (f : A → C → M scalar (B * C)) l c :
  (∀ a c, runs R E (f a c)) → runs R E (for_each_acc f l c).
Proof.
  intros Hf. revert c. induction l as [|a l IH]; intros c; simpl; [apply runs_ret|].
  apply runs_bind; [done|]. intros [b c1]. apply runs_bind; [done|].
  intros [bs c2]. apply runs_ret.
Qed.

Lemma runs_get_object layer : E NoSuchObject → runs R E (get_object layer).
Proof.
  intros HE st r st'. unfold get_object.
  destruct (store st !! layer); intros [= <- <-];
    (split; [reflexivity|]); by intros e [= <-].
Qed.

End runs.

Global Instance any_state_preorder {scalar} : PreOrder (@any_state scalar).
Proof. by split. Qed.
Global Instance same_state_preorder {scalar} : PreOrder (@same_state scalar).
Proof. unfold same_state. apply _. Qed.

(** One syntax-directed step of a [runs] proof; [tac] shows that an
    exception raised on the way is an allowed one. *)
Ltac runs_step_with tac :=
  lazymatch goal with
  | |- runs _ _ (bind _ _) => apply runs_bind; [apply _|try done|intros ?]
  | |- runs _ _ (ret _) => apply runs_ret; apply _
  | |- runs _ _ (raise _) => apply runs_raise; [apply _|tac]
  | |- runs _ _ (expect _ _) => apply runs_expect; [apply _|tac]
  | |- runs _ _ (for_each _ _) => apply runs_for_each; [apply _|intros ?]
  | |- runs _ _ (get_object _) => apply runs_get_object; [apply _|tac]
  | |- runs _ _ (match ?x with _ => _ end) => destruct x
  end.

Ltac runs_step := runs_step_with ltac:(done).

Section channel_errors.
Context {scalar : Type} {K : Keras scalar}.
Implicit Types (st : state scalar) (l : Layer scalar).

Lemma get_object_some layer st l :
  store st !! layer = Some l → get_object layer st = (inr l, st).
Proof. unfold get_object. by intros ->. Qed.

(** The range check of [_delete_channel_weights] comes before anything is
    built. *)
Lemma _delete_channel_weights_out_of_range layer channel_indices st l channels :
  store st !! layer = Some l →
  channel_count l = Some channels →
  (∃ i, i ∈ channel_indices ∧ (channels ≤ i)%Z) →
  _delete_channel_weights layer channel_indices st
  = (inl (ChannelIndexOutOfRange channels), st).
Proof.
  intros Hl Hc (i & Hi & Hle).
  assert (existsb (λ i, channels <? i + 1)%Z channel_indices = true) as Hex.
  { apply existsb_exists. exists i. split; [by apply list_elem_of_In|].
    apply Z.ltb_lt. lia. }
  unfold _delete_channel_weights.
  rewrite (bind_step _ _ _ _ _ (get_object_some _ _ _ Hl)).
  unfold channel_count in Hc.
  destruct (config l !! "units") as [v|] eqn:Hu.
  - destruct v; try discriminate. injection Hc as ->.
    rewrite decide_True by eauto.
    unfold bind at 1. unfold ret at 1. rewrite Hu.
    unfold bind at 1. unfold ret at 1. by rewrite Hex.
  - rewrite decide_False by (by intros [? ?]).
    destruct (config l !! "filters") as [v|] eqn:Hf; [|discriminate].
    destruct v; try discriminate. injection Hc as ->.
    rewrite decide_True by eauto.
    unfold bind at 1. unfold ret at 1. rewrite Hf.
    unfold bind at 1. unfold ret at 1. by rewrite Hex.
Qed.

(** C6. A call to [delete_channels] in which some requested channel index
    is at least the channel count of the target operation raises the
    out-of-range error, returns no model, and leaves every object as it
    was: the final state is the initial one. *)
Theorem delete_channels_index_out_of_range
    fuel model layer channel_indices node_indices copy st l channels :
  store st !! layer = Some l →
  channel_count l = Some channels →
  (∃ i, i ∈ channel_indices ∧ (channels ≤ i)%Z) →
  delete_channels fuel model layer channel_indices node_indices copy st
  = (inl (ChannelIndexOutOfRange channels), st).
Proof.
  intros Hl Hc Hi. unfold delete_channels.
  apply bind_err. by eapply _delete_channel_weights_out_of_range.
Qed.

Lemma new_object_run l st :
  new_object l st
  = (inr (fresh (dom (store st))),
     mkState (<[fresh (dom (store st)) := l]> (store st)) (rebuilt st) (copied st) (edited st)).
Proof. done. Qed.

Lemma _delete_channel_weights_ok layer channel_indices st new_layer st' :
  _delete_channel_weights layer channel_indices st = (inr new_layer, st') →
  (new_layer ∉ dom (store st)) ∧
  (∃ l', store st' = <[new_layer := l']> (store st) ∧
         rebuilt st' = rebuilt st ∧ copied st' = copied st).
Proof.
  unfold _delete_channel_weights. intros H.
  apply bind_ok in H as (l & st1 & Hget & H).
  unfold get_object in Hget. destruct (store st !! layer) as [l0|]; [|done].
  injection Hget as -> <-.
  apply bind_ok in H as (key & st2 & Hkey & H).
  assert (st2 = st) as ->.
  { repeat case_decide; by inversion Hkey. }
  apply bind_ok in H as (channels & st3 & Hch & H).
  assert (st3 = st) as ->.
  { destruct (config l !! key) as [[]|]; by inversion Hch. }
  destruct (existsb _ _); [done|].
  apply bind_ok in H as (ws & st4 & Hws & H).
  apply expect_ok in Hws as [_ ->].
  unfold from_config in H. rewrite new_object_run in H.
  injection H as <- <-. simpl. split; [apply is_fresh|]. eauto.
Qed.



Lemma _make_delete_mask_run layer channel_indices :
  runs (scalar:=scalar) same_state not_absent (_make_delete_mask layer channel_indices).
Proof.
  unfold _make_delete_mask.
  repeat runs_step.
Qed.

Lemma ones_after_batch_run sh :
  runs (scalar:=scalar) same_state not_absent (ones_after_batch (scalar:=scalar) sh).
Proof. unfold ones_after_batch. repeat runs_step. Qed.

Lemma input_masks_run model (shapes : list (list kshape)) :
  runs (scalar:=scalar) same_state not_absent
    (for_each (λ _ : list kshape,
                 let* sh := expect AttributeError (model_input_shape model) in
                 match sh with
                 | inl sh => let* m := ones_after_batch sh in ret (Some m)
                 | inr _ => raise TypeError
                 end) shapes).
Proof.
  repeat runs_step. apply ones_after_batch_run.
Qed.


(** C8. When the channel indices given to [delete_channels] are valid but
    list some index more than once, the operation built by
    [_delete_channel_weights] declares a channel count lowered by the
    length of the list, duplicates included, while the last axis of each
    weight tensor shrinks by the number of distinct indices only: the
    declared count and the weight shapes disagree. *)
Theorem delete_channel_weights_duplicate_indices
    layer channel_indices st l channels :
  store st !! layer = Some l →
  channel_count l = Some channels →
  Forall (λ i, 0 ≤ i < channels)%Z channel_indices →
  ¬ NoDup channel_indices →
  Forall (λ w, ∃ pre, np.shape w = pre ++ [Z.to_nat channels]) (weights l) →
  ∃ new_layer l' st',
    _delete_channel_weights layer channel_indices st = (inr new_layer, st') ∧
    store st' !! new_layer = Some l' ∧
    channel_count l' = Some (channels - Z.of_nat (length channel_indices))%Z ∧
    Forall2 (λ w w', ∃ pre n',
               np.shape w = pre ++ [Z.to_nat channels] ∧
               np.shape w' = pre ++ [n'] ∧
               n' = Z.to_nat channels - length (remove_dups channel_indices) ∧
               Z.of_nat n' ≠ (channels - Z.of_nat (length channel_indices))%Z)
            (weights l) (weights l').
Proof.
  intros Hl Hc Hall Hdup Hws.
  pose proof (length_remove_dups_lt _ Hdup) as Hlt.
  assert (Forall (λ i, 0 ≤ i < Z.of_nat (Z.to_nat channels))%Z channel_indices) as Hall'.
  { eapply Forall_impl; [done|]. simpl. lia. }
  assert (∃ ws, mapM (λ w, np.delete w channel_indices) (weights l) = Some ws ∧
                Forall2 (λ w w', ∃ pre n',
                   np.shape w = pre ++ [Z.to_nat channels] ∧
                   np.shape w' = pre ++ [n'] ∧
                   n' = Z.to_nat channels - length (remove_dups channel_indices) ∧
                   Z.of_nat n' ≠ (channels - Z.of_nat (length channel_indices))%Z)
                  (weights l) ws) as (ws & Hmap & Hshapes).
  { clear Hl Hc. induction Hws as [|w ws0 [pre Hw] _ (ws & Hmap & IH)].
    - by exists [].
    - destruct (np_delete_shape w pre _ channel_indices Hw Hall') as (w' & Hdel & Hsh).
      exists (w' :: ws). split.
      + apply mapM_Some. constructor; [done|]. by apply mapM_Some.
      + constructor; [|done].
        exists pre, (Z.to_nat channels - length (remove_dups channel_indices)).
        repeat split; [done..|]. lia. }
  unfold _delete_channel_weights.
  rewrite (bind_step _ _ _ _ _ (get_object_some _ _ _ Hl)).
  assert (existsb (λ i, channels <? i + 1)%Z channel_indices = false) as Hex.
  { apply not_true_is_false. intros (i & Hi & Hlt')%existsb_exists.
    rewrite Forall_forall in Hall. apply list_elem_of_In, Hall in Hi.
    apply Z.ltb_lt in Hlt'. lia. }
  unfold channel_count in Hc.
  destruct (config l !! "units") as [v|] eqn:Hu.
  - destruct v; try discriminate. injection Hc as ->.
    rewrite decide_True by eauto.
    unfold bind at 1. unfold ret at 1. rewrite Hu.
    unfold bind at 1. unfold ret at 1. rewrite Hex.
    rewrite (bind_step _ _ _ _ _ (expect_some _ _ _ _ Hmap)).
    unfold from_config. rewrite new_object_run.
    eexists _, _, _. split; [done|]. cbn [store]. rewrite lookup_insert_eq.
    split; [done|]. unfold channel_count. cbn [config weights].
    rewrite lookup_delete_ne, lookup_insert_ne, !lookup_insert_eq by done.
    done.
  - rewrite decide_False by (by intros [? ?]).
    destruct (config l !! "filters") as [v|] eqn:Hf; [|discriminate].
    destruct v; try discriminate. injection Hc as ->.
    rewrite decide_True by eauto.
    unfold bind at 1. unfold ret at 1. rewrite Hf.
    unfold bind at 1. unfold ret at 1. rewrite Hex.
    rewrite (bind_step _ _ _ _ _ (expect_some _ _ _ _ Hmap)).
    unfold from_config. rewrite new_object_run.
    eexists _, _, _. split; [done|]. cbn [store]. rewrite lookup_insert_eq.
    split; [done|]. unfold channel_count. cbn [config weights].
    rewrite !lookup_delete_ne, !lookup_insert_ne, Hu by done.
    rewrite ?lookup_insert_eq. done.
Qed.

End channel_errors.

(** *** The Mask Propagator on a Dense operation *)

Section mask_propagator.
Context {scalar : Type} {K : Keras scalar}.
Implicit Types (st : state scalar) (l : Layer scalar).

Lemma some_mask_not_all_none (masks : list (option (np.ndarray bool))) :
  (∃ m, Some m ∈ masks) →
  forallb (λ m : option (np.ndarray bool), bool_decide (m = None)) masks = false.
Proof.
  intros (m & Hm). apply not_true_is_false. intros Hall.
  rewrite forallb_forall in Hall. apply list_elem_of_In, Hall in Hm.
  by apply bool_decide_eq_true in Hm.
Qed.

Lemma the_mask_ok (masks : list (option (np.ndarray bool))) st m st' :
  the_mask masks st = (inr m, st') → masks = [Some m] ∧ st' = st.
Proof.
  unfold the_mask, extract_if_single_element.
  destruct masks as [|[m0|] [|]]; try (by intros [=]).
  by intros [= -> ->].
Qed.

(** What a successful run of the Dense branch did. *)
Lemma _apply_delete_mask_dense layer masks st l new_layer out st' :
  store st !! layer = Some l →
  class_name l = "Dense" →
  (∃ m, Some m ∈ masks) →
  _apply_delete_mask layer masks st = (inr (new_layer, out), st') →
  ∃ m w0 rows w0' sh dims,
    masks = [Some m] ∧
    weights l !! 0 = Some w0 ∧
    np.where0 m = Some rows ∧
    np.take_rows w0 rows = Some w0' ∧
    output_shape l = Some sh ∧
    mapM id (tail sh) = Some dims ∧
    out = Some (np.ones dims) ∧
    new_layer = fresh (dom (store st)) ∧
    st' = mkState
            (<[new_layer :=
                 mkLayer "Dense"
                   (delete "weights"
                      (<["weights" := CWeights (<[0 := w0']> (weights l))]> (config l)))
                   (<[0 := w0']> (weights l)) []]> (store st))
            (rebuilt st) (copied st) (edited st).
Proof.
  intros Hl Hcls Hsome. unfold _apply_delete_mask.
  rewrite some_mask_not_all_none by done.
  rewrite (bind_step _ _ _ _ _ (get_object_some _ _ _ Hl)).
  rewrite Hcls. rewrite decide_False by done. rewrite decide_True by done.
  intros H.
  apply bind_ok in H as (w0 & st1 & [Hw0 ->]%expect_ok & H).
  apply bind_ok in H as (m & st1 & [-> ->]%the_mask_ok & H).
  apply bind_ok in H as (rows & st1 & [Hrows ->]%expect_ok & H).
  apply bind_ok in H as (w0' & st1 & [Hw0' ->]%expect_ok & H).
  apply bind_ok in H as (nl & st1 & Hnew & H).
  unfold from_config in Hnew. rewrite new_object_run in Hnew.
  injection Hnew as <- <-.
  apply bind_ok in H as (sh & st1 & [Hsh ->]%expect_ok & H).
  apply bind_ok in H as (outbound & st1 & Hones & H).
  unfold ones_after_batch in Hones.
  apply bind_ok in Hones as (dims & st2 & [Hdims ->]%expect_ok & Hones).
  injection Hones as <- <-. injection H as <- <- <-.
  exists m, w0, rows, w0', sh, dims. repeat split; try done.
  by rewrite lookup_insert_eq.
Qed.

(** The Dense branch returns whenever its numpy steps are defined. *)
Lemma _apply_delete_mask_dense_runs layer m st l w0 rows w0' sh dims :
  store st !! layer = Some l →
  class_name l = "Dense" →
  weights l !! 0 = Some w0 →
  np.where0 m = Some rows →
  np.take_rows w0 rows = Some w0' →
  output_shape l = Some sh →
  mapM id (tail sh) = Some dims →
  ∃ st', _apply_delete_mask layer [Some m] st
         = (inr (fresh (dom (store st)), Some (np.ones dims)), st').
Proof.
  intros Hl Hcls Hw0 Hrows Hw0' Hsh Hdims. unfold _apply_delete_mask.
  cbn [forallb]. rewrite bool_decide_eq_false_2 by done. cbn [andb].
  rewrite (bind_step _ _ _ _ _ (get_object_some _ _ _ Hl)).
  rewrite Hcls. rewrite decide_False by done. rewrite decide_True by done.
  rewrite (bind_step _ _ _ _ _ (expect_some _ _ _ _ Hw0)).
  unfold the_mask, extract_if_single_element. unfold bind at 1, ret at 1.
  rewrite (bind_step _ _ _ _ _ (expect_some _ _ _ _ Hrows)).
  rewrite (bind_step _ _ _ _ _ (expect_some _ _ _ _ Hw0')).
  unfold from_config. rewrite (bind_step _ _ _ _ _ (new_object_run _ _)).
  rewrite (bind_step _ _ _ _ _ (expect_some _ _ _ _ Hsh)).
  unfold ones_after_batch.
  rewrite (bind_step _ _ _ _ _
             (bind_step _ _ _ _ _ (expect_some _ _ _ _ Hdims))).
  eauto.
Qed.

(** C9. When [_apply_delete_mask] applies a mask to a Dense operation,
    the operation it builds carries the first weight tensor with the
    rows the mask keeps, and every other weight tensor, the bias among
    them, exactly as the original has it; the original keeps its own
    weights. *)
Theorem dense_mask_trims_first_weight_only
    layer masks st l new_layer out st' :
  store st !! layer = Some l →
  class_name l = "Dense" →
  (∃ m, Some m ∈ masks) →
  _apply_delete_mask layer masks st = (inr (new_layer, out), st') →
  ∃ l' m w0 rows w0',
    masks = [Some m] ∧
    store st' !! new_layer = Some l' ∧
    weights l !! 0 = Some w0 ∧
    np.where0 m = Some rows ∧
    np.take_rows w0 rows = Some w0' ∧
    weights l' !! 0 = Some w0' ∧
    length (weights l') = length (weights l) ∧
    (∀ i, 0 < i → weights l' !! i = weights l !! i) ∧
    store st' !! layer = Some l.
Proof.
  intros Hl Hcls Hsome Hrun.
  destruct (_apply_delete_mask_dense _ _ _ _ _ _ _ Hl Hcls Hsome Hrun)
    as (m & w0 & rows & w0' & sh & dims & -> & Hw0 & Hrows & Hw0' & _ & _ & _ & Hnl & ->).
  eexists _, m, w0, rows, w0'. cbn [store].
  rewrite lookup_insert_eq. repeat split; try done; cbn [weights].
  - apply list_lookup_insert_eq. by eapply lookup_lt_Some.
  - apply length_insert.
  - intros i Hi. apply list_lookup_insert_ne. lia.
  - rewrite lookup_insert_ne; [done|]. subst new_layer.
    intros Heq. apply (is_fresh (dom (store st))). rewrite Heq.
    apply elem_of_dom. eauto.
Qed.

(** C1, as the code has it.  A Dense operation that receives a mask
    hands on a mask that is not absent: it is the all-true mask over the
    operation's own output shape, which marks no channel as deleted. *)
Theorem dense_outbound_mask_all_true
    layer masks st l new_layer out st' :
  store st !! layer = Some l →
  class_name l = "Dense" →
  (∃ m, Some m ∈ masks) →
  _apply_delete_mask layer masks st = (inr (new_layer, out), st') →
  ∃ sh dims outbound,
    output_shape l = Some sh ∧
    mapM id (tail sh) = Some dims ∧
    out = Some outbound ∧
    np.shape outbound = dims ∧
    length (np.data outbound) = np.size_of dims ∧
    Forall (λ b, b = true) (np.data outbound).
Proof.
  intros Hl Hcls Hsome Hrun.
  destruct (_apply_delete_mask_dense _ _ _ _ _ _ _ Hl Hcls Hsome Hrun)
    as (m & w0 & rows & w0' & sh & dims & _ & _ & _ & _ & Hsh & Hdims & -> & _).
  exists sh, dims, (np.ones dims). repeat split; try done.
  - apply length_replicate.
  - apply Forall_replicate. done.
Qed.

End mask_propagator.

(** *** What the rebuilder and the orchestrator change

    For a relation [R] between states that tolerates a node appended to a
    layer, a new object, and a tick of the rebuild counter, and a set [E]
    of exceptions that holds all but the two raised by the edits
    themselves. *)

Section frames.
Context {scalar : Type} {K : Keras scalar}.
Variable R : relation (state scalar).
Context `{!PreOrder R}.
Variable E : error → Prop.

Hypothesis R_append_node : ∀ st layer l in_shapes node,
  store st !! layer = Some l →
  R st (mkState (<[layer := called l in_shapes node]> (store st))
                (rebuilt st) (copied st) (edited st)).
Hypothesis R_new_object : ∀ st (l : Layer scalar),
  R st (mkState (<[fresh (dom (store st)) := l]> (store st)) (rebuilt st) (copied st) (edited st)).
Hypothesis R_note_rebuilt : ∀ st node,
  R st (mkState (store st) (rebuilt st ++ [node]) (copied st) (edited st)).
Hypothesis E_inner : ∀ e,
  e ≠ MultiInputUnsupported → e ≠ OperationNotFound → E e.

Local Ltac step := runs_step_with ltac:(by apply E_inner).

Lemma runs_inbound_node layer node_index : runs R E (inbound_node layer node_index).
Proof. unfold inbound_node. repeat step. Qed.

Lemma runs_get_output_at layer node_index : runs R E (get_output_at layer node_index).
Proof. unfold get_output_at. repeat step. Qed.

Lemma runs_ones_after_batch sh : runs R E (ones_after_batch (scalar:=scalar) sh).
Proof. unfold ones_after_batch. repeat step. Qed.

Lemma runs_from_config cls cfg : runs R E (from_config cls cfg).
Proof.
  unfold from_config. intros st r st'. rewrite new_object_run.
  intros [= <- <-]. split; [apply R_new_object|]. by intros e [=].
Qed.

Lemma runs_append_node layer in_shapes node :
  runs R E (append_node layer in_shapes node).
Proof.
  intros st r st'. unfold append_node.
  destruct (store st !! layer) as [l|] eqn:Hl; intros [= <- <-].
  - split; [by apply R_append_node|]. by intros e [=].
  - split; [reflexivity|]. intros e [= <-]. by apply E_inner.
Qed.

Lemma runs_call_layer layer ins : runs R E (call_layer layer ins).
Proof.
  unfold call_layer.
  repeat first [ apply runs_inbound_node | apply runs_append_node | step ].
Qed.

Lemma runs_the_mask masks : runs R E (the_mask (scalar:=scalar) masks).
Proof. unfold the_mask. repeat step. Qed.

Lemma runs__apply_delete_mask layer masks : runs R E (_apply_delete_mask layer masks).
Proof.
  unfold _apply_delete_mask.
  repeat first [ apply runs_the_mask | apply runs_from_config
               | apply runs_ones_after_batch | step ].
Qed.

Lemma runs_note_rebuilt node : runs R E (note_rebuilt node).
Proof.
  intros st r st' [= <- <-]. split; [apply R_note_rebuilt|]. by intros e [=].
Qed.

Lemma runs__rebuild_rec fuel model_inputs replace_tensors input_delete_masks ln fin :
  runs R E (_rebuild_rec fuel model_inputs replace_tensors input_delete_masks ln fin).
Proof.
  revert ln fin. induction fuel as [|fuel IH]; intros [layer node_index] fin; simpl.
  { step. }
  step; [apply runs_inbound_node|].
  step; [apply runs_get_output_at|].
  repeat first [ apply runs_for_each_acc; [apply _|by intros ??]
               | apply runs_note_rebuilt | apply runs__apply_delete_mask
               | apply runs_call_layer | step ].
Qed.

Lemma runs_rebuild_submodel fuel model_inputs outs idxs replace_tensors fin masks :
  runs R E (rebuild_submodel fuel model_inputs outs idxs replace_tensors fin masks).
Proof.
  unfold rebuild_submodel.
  repeat first [ apply runs_for_each_acc; [apply _|intros ??; apply runs__rebuild_rec]
               | step ].
Qed.

End frames.

(** *** The edits: multi-input targets *)

Section multi_input.
Context {scalar : Type} {K : Keras scalar}.
Implicit Types (st : state scalar).

Lemma _replace_layer_never_multi_input new_layer this_layer node_index ins :
  runs (scalar:=scalar) any_state not_multi_input
       (_replace_layer new_layer this_layer node_index ins).
Proof.
  unfold _replace_layer.
  runs_step; [by apply runs_call_layer|].
  runs_step; [by apply runs_get_output_at|].
  runs_step.
Qed.

(** C5, as the code has it.  Handed the rebuilt tensors of two or more
    inbound edges, the insert and the delete-operation edits raise the
    multi-input error before they apply any operation or touch any
    object; the replace edit has no such check, and whatever it raises
    is not the multi-input error. *)
Theorem insert_and_delete_reject_multi_input
    new_layer this_layer node_index (ins : list (nat * nat)) st :
  2 ≤ length ins →
  _insert_layer new_layer this_layer node_index ins st
  = (inl MultiInputUnsupported, st) ∧
  _delete_layer this_layer node_index ins st
  = (inl MultiInputUnsupported, st) ∧
  (∀ e st', _replace_layer new_layer this_layer node_index ins st = (inl e, st') →
            e ≠ MultiInputUnsupported).
Proof.
  intros Hlen. unfold _insert_layer, _delete_layer.
  rewrite !decide_True by done. split; [done|split; [done|]].
  intros e st' Hrun.
  destruct (_replace_layer_never_multi_input _ _ _ _ _ _ _ Hrun) as [_ HE].
  by apply HE.
Qed.

(** The tensors handed to an edit are one per inbound edge of the target
    node: on a node with two or more inbound edges, once the inputs of
    the node are rebuilt, the insert edit stops the loop with the
    multi-input error in the state the rebuild left. *)
Lemma edit_node_insert_multi_input
    fuel model layer new_layer masks node_index replace_tensors fin st node r st1 :
  inbound_node layer node_index st = (inr node, st) →
  2 ≤ length (zip (inbound_layers node) (node_indices node)) →
  rebuild_submodel fuel (inputs model) (inbound_layers node) (node_indices node)
                   replace_tensors fin masks st = (inr r, st1) →
  edit_node fuel model layer (_insert_layer new_layer) masks node_index
            (replace_tensors, fin) st
  = (inl MultiInputUnsupported, st1).
Proof.
  intros Hnode Hlen Hrun. unfold edit_node.
  rewrite (bind_step _ _ _ _ _ Hnode).
  rewrite (bind_step _ _ _ _ _ Hrun).
  destruct r as [[outs ms] fin'].
  assert (length outs = length (zip (inbound_layers node) (node_indices node))) as Hout.
  { unfold rebuild_submodel in Hrun.
    apply bind_ok in Hrun as ([results fin1] & st2 & Hacc & Hrun).
    apply bind_ok in Hrun as (u & st3 & _ & Hret).
    injection Hret as <- _ _ _.
    rewrite length_fmap. by eapply for_each_acc_length. }
  apply bind_err. unfold _insert_layer. rewrite decide_True by lia. done.
Qed.

End multi_input.

(** *** The Subgraph Rebuilder *)

Section rebuilder.
Context {scalar : Type} {K : Keras scalar}.
Implicit Types (st : state scalar) (l : Layer scalar).
Implicit Types (fin : gmap (nat * nat) ((nat * nat) * option (np.ndarray bool))).
Implicit Types (replace_tensors : gmap (nat * nat) ((nat * nat) * option (np.ndarray bool))).

Lemma inbound_node_some layer node_index st l node :
  store st !! layer = Some l →
  inbound_nodes l !! node_index = Some node →
  inbound_node layer node_index st = (inr node, st).
Proof.
  intros Hl Hn. unfold inbound_node.
  rewrite (bind_step _ _ _ _ _ (get_object_some _ _ _ Hl)). by rewrite Hn.
Qed.

Lemma inbound_node_ok layer node_index st node st' :
  inbound_node layer node_index st = (inr node, st') →
  st' = st ∧ ∃ l, store st !! layer = Some l ∧ inbound_nodes l !! node_index = Some node.
Proof.
  unfold inbound_node. intros H.
  apply bind_ok in H as (l & st1 & Hget & [Hn ->]%expect_ok).
  unfold get_object in Hget. destruct (store st !! layer) as [l0|] eqn:Hl; [|done].
  injection Hget as -> <-. eauto.
Qed.

Lemma get_output_at_some layer node_index st l node :
  store st !! layer = Some l →
  inbound_nodes l !! node_index = Some node →
  get_output_at layer node_index st = (inr (layer, node_index), st).
Proof.
  intros Hl Hn. unfold get_output_at.
  rewrite (bind_step _ _ _ _ _ (get_object_some _ _ _ Hl)).
  rewrite decide_True; [done|]. by eapply lookup_lt_Some.
Qed.

Lemma get_output_at_ok layer node_index st t st' :
  get_output_at layer node_index st = (inr t, st') →
  st' = st ∧ t = (layer, node_index) ∧
  ∃ l node, store st !! layer = Some l ∧ inbound_nodes l !! node_index = Some node.
Proof.
  unfold get_output_at. intros H.
  apply bind_ok in H as (l & st1 & Hget & H).
  unfold get_object in Hget. destruct (store st !! layer) as [l0|] eqn:Hl; [|done].
  injection Hget as -> <-. case_decide as Hlt; [|done]. injection H as <- <-.
  apply lookup_lt_is_Some in Hlt as [node Hn]. eauto 10.
Qed.

(** C2. When the output tensor of the node instance being rebuilt is a
    key of the substitution map, [_rebuild_rec] returns the mapped pair
    at once: whatever the finished-node cache holds for the node and
    whether or not the tensor is a declared input of the graph, and with
    the cache and every object left as they were. *)
Theorem substitution_takes_precedence
    fuel model_inputs replace_tensors input_delete_masks layer node_index fin st
    handle substitute :
  get_output_at layer node_index st = (inr handle, st) →
  replace_tensors !! handle = Some substitute →
  _rebuild_rec (S fuel) model_inputs replace_tensors input_delete_masks
               (layer, node_index) fin st
  = (inr (substitute, fin), st).
Proof.
  intros Hout Hsub.
  destruct (get_output_at_ok _ _ _ _ _ Hout) as (_ & -> & l & node & Hl & Hn).
  cbn [_rebuild_rec].
  rewrite (bind_step _ _ _ _ _ (inbound_node_some _ _ _ _ _ Hl Hn)).
  rewrite (bind_step _ _ _ _ _ Hout).
  by rewrite Hsub.
Qed.

(** **** Objects only grow during a rebuild *)

#[local] Instance extends_preorder : PreOrder (@extends scalar).
Proof.
  split.
  - intros st layer l Hl. eauto.
  - intros st1 st2 st3 H12 H23 layer l Hl.
    destruct (H12 _ _ Hl) as (l2 & Hl2 & Hp2).
    destruct (H23 _ _ Hl2) as (l3 & Hl3 & Hp3).
    exists l3. split; [done|]. by etrans.
Qed.

Lemma extends_append_node st layer l in_shapes node :
  store st !! layer = Some l →
  extends st (mkState (<[layer := called l in_shapes node]> (store st))
                      (rebuilt st) (copied st) (edited st)).
Proof.
  intros Hl layer' l' Hl'. cbn [store].
  destruct (decide (layer' = layer)) as [->|Hne].
  - rewrite lookup_insert_eq. eexists. split; [done|]. cbn [inbound_nodes].
    simplify_eq. by apply prefix_app_r.
  - rewrite lookup_insert_ne by done. eauto.
Qed.

Lemma extends_new_object st l :
  extends st (mkState (<[fresh (dom (store st)) := l]> (store st))
                      (rebuilt st) (copied st) (edited st)).
Proof.
  intros layer' l' Hl'. cbn [store]. rewrite lookup_insert_ne; [eauto|].
  intros <-. apply (is_fresh (dom (store st))), elem_of_dom. eauto.
Qed.

Lemma extends_note_rebuilt st node :
  extends st (mkState (store st) (rebuilt st ++ [node]) (copied st) (edited st)).
Proof. intros layer' l' Hl'. eauto. Qed.

Lemma _rebuild_rec_extends fuel model_inputs replace_tensors masks ln fin st r st' :
  _rebuild_rec fuel model_inputs replace_tensors masks ln fin st = (r, st') →
  extends st st'.
Proof.
  intros Hrun.
  eapply (runs__rebuild_rec extends any_error); try done.
  - apply extends_append_node.
  - apply extends_new_object.
  - apply extends_note_rebuilt.
Qed.

Lemma extends_edges st st' n es :
  extends st st' →
  edges_of (store st) n = Some es → edges_of (store st') n = Some es.
Proof.
  intros Hext. unfold edges_of.
  destruct (store st !! n.1) as [l|] eqn:Hl; [|done]. simpl.
  destruct (inbound_nodes l !! n.2) as [node|] eqn:Hn; [|done]. simpl.
  intros [= <-]. destruct (Hext _ _ Hl) as (l' & -> & Hp). simpl.
  by rewrite (prefix_lookup_Some _ _ _ _ Hn Hp).
Qed.

(** **** One visit, case by case *)

Lemma _rebuild_rec_ok fuel model_inputs replace_tensors masks layer node_index
    fin st res fin' st' :
  _rebuild_rec (S fuel) model_inputs replace_tensors masks (layer, node_index) fin st
  = (inr (res, fin'), st') →
  ∃ l node,
    store st !! layer = Some l ∧ inbound_nodes l !! node_index = Some node ∧
    ((replace_tensors !! (layer, node_index) = Some res ∧ fin' = fin ∧ st' = st) ∨
     (replace_tensors !! (layer, node_index) = None ∧
      fin !! (layer, node_index) = Some res ∧ fin' = fin ∧ st' = st) ∨
     (replace_tensors !! (layer, node_index) = None ∧
      fin !! (layer, node_index) = None ∧
      (∃ k m, index_of (layer, node_index) model_inputs = Some k ∧
              masks !! k = Some m ∧ res = ((layer, node_index), m)) ∧
      fin' = fin ∧ st' = st) ∨
     (replace_tensors !! (layer, node_index) = None ∧
      fin !! (layer, node_index) = None ∧
      index_of (layer, node_index) model_inputs = None ∧
      ∃ results fin1 st1 st2 new_layer,
        for_each_acc (_rebuild_rec fuel model_inputs replace_tensors masks)
                     (zip (inbound_layers node) (node_indices node)) fin st
        = (inr (results, fin1), st1) ∧
        results ≠ [] ∧
        _apply_delete_mask layer (snd <$> results)
          (mkState (store st1) (rebuilt st1 ++ [(layer, node_index)]) (copied st1) (edited st1))
        = (inr (new_layer, snd res), st2) ∧
        call_layer new_layer (fst <$> results) st2 = (inr (fst res), st') ∧
        fin' = <[(layer, node_index) := res]> fin1)).
Proof.
  cbn [_rebuild_rec]. intros H.
  apply bind_ok in H as (node & st1 & Hnode & H).
  apply inbound_node_ok in Hnode as (-> & l & Hl & Hn).
  rewrite (bind_step _ _ _ _ _ (get_output_at_some _ _ _ _ _ Hl Hn)) in H.
  exists l, node. split; [done|]. split; [done|].
  destruct (replace_tensors !! (layer, node_index)) as [sub|] eqn:Hsub.
  { injection H as <- <- <-. by left. }
  right. destruct (fin !! (layer, node_index)) as [done_|] eqn:Hfin.
  { injection H as <- <- <-. by left. }
  right. destruct (index_of (layer, node_index) model_inputs) as [k|] eqn:Hin.
  { left. apply bind_ok in H as (m & st1 & [Hm ->]%expect_ok & H).
    injection H as <- <- <-. eauto 10. }
  right. do 3 (split; [done|]).
  apply bind_ok in H as ([results fin1] & st1 & Hacc & H).
  apply bind_ok in H as (u & st2 & Hne & H).
  case_decide as Hres; [done|]. injection Hne as _ <-.
  apply bind_ok in H as (u' & st2 & Hnote & H).
  injection Hnote as _ <-.
  apply bind_ok in H as ([new_layer output_mask] & st2 & Hmask & H).
  apply bind_ok in H as (output & st3 & Hcall & H).
  injection H as <- <- <-. eauto 10.
Qed.

(** **** A node instance whose rebuild is under way stays out of the cache

    A set [S] of node instances is blocked on [x] when none of them is
    finished, substituted or an input, and each has an inbound edge into
    [S] or to [x]: the rebuild of each waits for another of them or for
    [x].  A successful visit of [x] then neither finishes one of them nor
    is a visit of one of them. *)

Lemma visits_keep_blocked fuel model_inputs replace_tensors masks
    (S : nat * nat → Prop) x es_x ys fin st results fin' st' :
  visit_keeps_blocked fuel model_inputs replace_tensors masks →
  (∀ y, y ∈ ys → y ∈ es_x) →
  (∀ s, S s ∨ s = x →
     fin !! s = None ∧ replace_tensors !! s = None ∧ index_of s model_inputs = None) →
  (∀ s, S s → ∃ es, edges_of (store st) s = Some es ∧ ∃ y, y ∈ es ∧ (S y ∨ y = x)) →
  edges_of (store st) x = Some es_x →
  for_each_acc (_rebuild_rec fuel model_inputs replace_tensors masks) ys fin st
  = (inr (results, fin'), st') →
  (∀ y, y ∈ ys → ¬ (S y ∨ y = x)) ∧
  (∀ s, S s ∨ s = x → fin' !! s = None).
Proof.
  intros Hfuel. revert fin st results fin' st'.
  induction ys as [|y ys IH]; intros fin st results fin' st' Hsub Hfree Hedges Hx Hrun.
  - injection Hrun as <- <- <-. split; [by intros y ?%elem_of_nil|].
    intros s Hs. by destruct (Hfree _ Hs).
  - cbn [for_each_acc] in Hrun.
    apply bind_ok in Hrun as ([res fin1] & st1 & Hy & Hrun).
    apply bind_ok in Hrun as ([results' fin2] & st2 & Hys & Hret).
    injection Hret as <- <- <-.
    assert (blocked_on model_inputs replace_tensors (λ s, S s ∨ s = x) y fin st) as Hb.
    { intros s Hs. destruct (Hfree _ Hs) as (? & ? & ?). do 3 (split; [done|]).
      destruct Hs as [Hs| ->].
      - destruct (Hedges _ Hs) as (es & Hes & y' & Hy' & HS). eauto 10.
      - exists es_x. split; [done|]. exists y. split; [|by right].
        apply Hsub. by left. }
    destruct (Hfuel _ _ _ _ _ _ _ Hb Hy) as [Hny Hfin1].
    pose proof (_rebuild_rec_extends _ _ _ _ _ _ _ _ _ Hy) as Hext.
    destruct (IH fin1 st1 results' fin2 st2) as [Hnys Hfin2]; [| | | |exact Hys|].
    + intros y' Hy'. apply Hsub. by right.
    + intros s Hs. destruct (Hfree _ Hs) as (? & ? & ?). eauto.
    + intros s Hs. destruct (Hedges _ Hs) as (es & Hes & Hy').
      exists es. split; [|done]. by eapply extends_edges.
    + by eapply extends_edges.
    + split; [|done]. intros y' [->|Hy']%elem_of_cons; eauto.
Qed.

Lemma visit_keeps_blocked_all fuel model_inputs replace_tensors masks :
  visit_keeps_blocked fuel model_inputs replace_tensors masks.
Proof.
  induction fuel as [|fuel IH]; intros S [layer node_index] fin st res fin' st' Hb Hrun.
  { done. }
  apply _rebuild_rec_ok in Hrun
    as (l & node & Hl & Hn &
        [(Hsub & -> & ->) | [(Hsub & Hfin & -> & ->) |
         [(Hsub & Hfin & (k & m & Hin & _) & -> & ->) |
          (Hsub & Hfin & Hin & results & fin1 & st1 & st2 & new_layer &
           Hacc & _ & _ & _ & ->)]]]).
  - split; [|intros s Hs; by destruct (Hb _ Hs)].
    intros HS. destruct (Hb _ HS) as (_ & ? & _). congruence.
  - split; [|intros s Hs; by destruct (Hb _ Hs)].
    intros HS. destruct (Hb _ HS) as (? & _). congruence.
  - split; [|intros s Hs; by destruct (Hb _ Hs)].
    intros HS. destruct (Hb _ HS) as (_ & _ & ? & _). congruence.
  - assert (edges_of (store st) (layer, node_index)
            = Some (zip (inbound_layers node) (node_indices node))) as Hx.
    { unfold edges_of. simpl. rewrite Hl. simpl. by rewrite Hn. }
    edestruct (visits_keep_blocked fuel model_inputs replace_tensors masks S
                 (layer, node_index)) as [Hnot Hfin1];
      [exact IH| | | |exact Hx|exact Hacc|].
    { intros y Hy. exact Hy. }
    { intros s [Hs| ->]; [|done]. by destruct (Hb _ Hs) as (? & ? & ? & _). }
    { intros s Hs. by destruct (Hb _ Hs) as (_ & _ & _ & ?). }
    assert (¬ S (layer, node_index)) as HnS.
    { intros HS. destruct (Hb _ HS) as (_ & _ & _ & es & Hes & y & Hy & HSy).
      rewrite Hx in Hes. injection Hes as <-. by apply (Hnot y). }
    split; [done|]. intros s Hs. rewrite lookup_insert_ne; [eauto|].
    by intros <-.
Qed.

(** **** What a rebuild adds to the cache and to the counter *)

#[local] Instance same_rebuilt_preorder : PreOrder (@same_rebuilt scalar).
Proof.
  split; [by intros st|]. intros st1 st2 st3 H12 H23.
  unfold same_rebuilt in *. congruence.
Qed.

Lemma compute_step layer masks new_layer out ins output st st2 st' :
  _apply_delete_mask layer masks st = (inr (new_layer, out), st2) →
  call_layer new_layer ins st2 = (inr output, st') →
  extends st st' ∧ rebuilt st' = rebuilt st.
Proof.
  intros Hmask Hcall. split.
  - trans st2.
    + eapply (runs__apply_delete_mask extends any_error); try done.
      apply extends_new_object.
    + eapply (runs_call_layer extends any_error); try done.
      apply extends_append_node.
  - trans (rebuilt st2).
    + by eapply (runs_call_layer same_rebuilt any_error).
    + by eapply (runs__apply_delete_mask same_rebuilt any_error).
Qed.

Lemma grows_by_refl model_inputs replace_tensors fin st :
  grows_by model_inputs replace_tensors [] fin st fin st.
Proof.
  split; [done|]. split; [by rewrite app_nil_r|]. split; [constructor|]. split.
  - intros n. split; [by intros ?%elem_of_nil|].
    intros [Hn [? Hs]]. congruence.
  - by intros n ?%elem_of_nil.
Qed.

Lemma grows_by_trans model_inputs replace_tensors new1 new2 fin st fin1 st1 fin2 st2 :
  grows_by model_inputs replace_tensors new1 fin st fin1 st1 →
  grows_by model_inputs replace_tensors new2 fin1 st1 fin2 st2 →
  extends st1 st2 →
  grows_by model_inputs replace_tensors (new1 ++ new2) fin st fin2 st2.
Proof.
  intros (Hsub1 & Hr1 & Hnd1 & Hin1 & Hf1) (Hsub2 & Hr2 & Hnd2 & Hin2 & Hf2) Hext.
  split; [by etrans|]. split; [by rewrite Hr2, Hr1, app_assoc|].
  split; [|split].
  - apply NoDup_app. split; [done|]. split; [|done].
    intros n [_ [p Hp]]%Hin1 [Hnone _]%Hin2. congruence.
  - intros n. rewrite elem_of_app, Hin1, Hin2. split.
    + intros [[Hn [p Hp]] | [Hn Hs]].
      * split; [done|]. exists p. by eapply lookup_weaken.
      * split; [|done]. destruct (fin !! n) as [p|] eqn:Hp; [|done].
        by rewrite (lookup_weaken _ _ _ _ Hp Hsub1) in Hn.
    + intros [Hn Hs]. destruct (fin1 !! n) as [p|] eqn:Hp; eauto.
  - intros n [Hn|Hn]%elem_of_app.
    + destruct (Hf1 _ Hn) as (? & ? & [es Hes]). do 2 (split; [done|]).
      exists es. by eapply extends_edges.
    + by apply Hf2.
Qed.

Lemma visits_spec fuel model_inputs replace_tensors masks ys fin st results fin' st' :
  visit_spec fuel model_inputs replace_tensors masks →
  for_each_acc (_rebuild_rec fuel model_inputs replace_tensors masks) ys fin st
  = (inr (results, fin'), st') →
  ∃ new, grows_by model_inputs replace_tensors new fin st fin' st' ∧
         Forall2 (cached_if_rebuilt model_inputs replace_tensors fin') ys results.
Proof.
  intros Hfuel. revert fin st results fin' st'.
  induction ys as [|y ys IH]; intros fin st results fin' st' Hrun.
  - injection Hrun as <- <- <-. exists []. split; [apply grows_by_refl|constructor].
  - cbn [for_each_acc] in Hrun.
    apply bind_ok in Hrun as ([res fin1] & st1 & Hy & Hrun).
    apply bind_ok in Hrun as ([results' fin2] & st2 & Hys & Hret).
    injection Hret as <- <- <-.
    destruct (Hfuel _ _ _ _ _ _ Hy) as (new1 & Hg1 & Hc1).
    destruct (IH _ _ _ _ _ Hys) as (new2 & Hg2 & Hc2).
    exists (new1 ++ new2). split.
    + eapply grows_by_trans; [done..|].
      eapply (runs_for_each_acc extends _ any_error); [|done].
      intros a c r0 s0 s1 Hr. split; [|done]. by eapply _rebuild_rec_extends.
    + constructor; [|done]. intros H1 H2. specialize (Hc1 H1 H2).
      destruct Hg2 as (Hsub & _). by eapply lookup_weaken.
Qed.

Lemma visit_spec_all fuel model_inputs replace_tensors masks :
  visit_spec fuel model_inputs replace_tensors masks.
Proof.
  induction fuel as [|fuel IH]; intros [layer node_index] fin st res fin' st' Hrun.
  { done. }
  apply _rebuild_rec_ok in Hrun
    as (l & node & Hl & Hn &
        [(Hsub & -> & ->) | [(Hsub & Hfin & -> & ->) |
         [(Hsub & Hfin & (k & m & Hin & _) & -> & ->) |
          (Hsub & Hfin & Hin & results & fin1 & st1 & st2 & new_layer &
           Hacc & _ & Hmask & Hcall & ->)]]]).
  - exists []. split; [apply grows_by_refl|]. intros ?. congruence.
  - exists []. split; [apply grows_by_refl|]. by intros _ _.
  - exists []. split; [apply grows_by_refl|]. intros _ ?. congruence.
  - assert (edges_of (store st) (layer, node_index)
            = Some (zip (inbound_layers node) (node_indices node))) as Hx.
    { unfold edges_of. simpl. rewrite Hl. simpl. by rewrite Hn. }
    destruct (visits_spec _ _ _ _ _ _ _ _ _ _ IH Hacc) as (new1 & Hg1 & _).
    assert (fin1 !! (layer, node_index) = None) as Hfin1.
    { edestruct (visits_keep_blocked fuel model_inputs replace_tensors masks
                   (λ _, False) (layer, node_index)) as [_ Hnone];
        [apply visit_keeps_blocked_all| | | |exact Hx|exact Hacc|].
      - intros y Hy. exact Hy.
      - intros s [[]| ->]. done.
      - intros s [].
      - apply Hnone. by right. }
    destruct (compute_step _ _ _ _ _ _ _ _ _ Hmask Hcall) as [Hext Hreb].
    cbn [rebuilt] in Hreb.
    assert (extends st1 st') as Hext1.
    { etrans; [|exact Hext]. apply extends_note_rebuilt. }
    assert (extends st st1) as Hext0.
    { eapply (runs_for_each_acc extends _ any_error); [|done].
      intros a c r0 s0 s1 Hr. split; [|done]. by eapply _rebuild_rec_extends. }
    destruct Hg1 as (Hsub1 & Hr1 & Hnd1 & Hin1 & Hf1).
    exists (new1 ++ [(layer, node_index)]). split; [|intros _ _; apply lookup_insert_eq].
    split; [|split; [|split; [|split]]].
    + etrans; [exact Hsub1|]. by apply insert_subseteq.
    + by rewrite Hreb, Hr1, app_assoc.
    + apply NoDup_app. split; [done|]. split; [|apply NoDup_singleton].
      intros n [_ [p Hp]]%Hin1 ->%list_elem_of_singleton. congruence.
    + intros n. rewrite elem_of_app, list_elem_of_singleton, Hin1. split.
      * intros [[Hnone [p Hp]] | ->].
        -- split; [done|]. exists p. rewrite lookup_insert_ne; [done|].
           intros <-. congruence.
        -- split; [done|]. rewrite lookup_insert_eq. eauto.
      * intros [Hnone Hs]. destruct (decide (n = (layer, node_index))) as [->|Hne].
        -- by right.
        -- left. split; [done|]. by rewrite lookup_insert_ne in Hs.
    + intros n [Hnew| ->%list_elem_of_singleton]%elem_of_app.
      * destruct (Hf1 _ Hnew) as (? & ? & [es Hes]). do 2 (split; [done|]).
        exists es. by eapply extends_edges.
      * do 2 (split; [done|]). eexists.
        eapply extends_edges; [|exact Hx]. by etrans.
Qed.

(** **** Runs that stop with an exception *)

(** Where a visit that raises stopped. *)
Lemma _rebuild_rec_err fuel model_inputs replace_tensors masks layer node_index
    fin st e st' :
  _rebuild_rec (S fuel) model_inputs replace_tensors masks (layer, node_index) fin st
  = (inl e, st') →
  st' = st ∨
  ∃ node,
    fin !! (layer, node_index) = None ∧
    replace_tensors !! (layer, node_index) = None ∧
    index_of (layer, node_index) model_inputs = None ∧
    edges_of (store st) (layer, node_index)
    = Some (zip (inbound_layers node) (node_indices node)) ∧
    (for_each_acc (_rebuild_rec fuel model_inputs replace_tensors masks)
                  (zip (inbound_layers node) (node_indices node)) fin st
     = (inl e, st') ∨
     ∃ results fin1 st1,
       for_each_acc (_rebuild_rec fuel model_inputs replace_tensors masks)
                    (zip (inbound_layers node) (node_indices node)) fin st
       = (inr (results, fin1), st1) ∧
       (st' = st1 ∨ rebuilt st' = rebuilt st1 ++ [(layer, node_index)])).
Proof.
  cbn [_rebuild_rec]. unfold bind at 1.
  destruct (inbound_node layer node_index st) as [[e0|node] st0] eqn:Hnode.
  { intros [= <- <-]. left.
    by eapply (runs_inbound_node same_state any_error) in Hnode as [-> _]. }
  apply inbound_node_ok in Hnode as (-> & l & Hl & Hn).
  rewrite (bind_step _ _ _ _ _ (get_output_at_some _ _ _ _ _ Hl Hn)).
  destruct (replace_tensors !! (layer, node_index)) as [sub|] eqn:Hsub; [done|].
  destruct (fin !! (layer, node_index)) as [done_|] eqn:Hfin; [done|].
  destruct (index_of (layer, node_index) model_inputs) as [k|] eqn:Hin.
  { destruct (masks !! k); [done|]. intros [= <- <-]. by left. }
  intros H. right. exists node. do 3 (split; [done|]). split.
  { unfold edges_of. simpl. rewrite Hl. simpl. by rewrite Hn. }
  unfold bind at 1 in H.
  destruct (for_each_acc _ _ fin st) as [[e0|[results fin1]] st1] eqn:Hacc.
  { injection H as <- <-. by left. }
  right. exists results, fin1, st1. split; [done|].
  unfold bind at 1 in H. case_decide.
  { injection H as _ <-. by left. }
  unfold ret at 1 in H. unfold bind at 1, note_rebuilt at 1 in H.
  right. revert H.
  match goal with
  | |- bind ?m ?k ?s = _ → _ =>
      destruct (bind m k s) as [r st2] eqn:Hc; intros H
  end.
  assert (rebuilt st2 = rebuilt st1 ++ [(layer, node_index)]) as Hreb.
  { unfold bind at 1 in Hc.
    destruct (_apply_delete_mask _ _ _) as [[e1|[new_layer output_mask]] st3] eqn:Hm.
    - injection Hc as _ <-.
      by eapply (runs__apply_delete_mask same_rebuilt any_error) in Hm as [-> _].
    - eapply (runs__apply_delete_mask same_rebuilt any_error) in Hm as [Hm _]; [|done..].
      unfold bind at 1 in Hc.
      destruct (call_layer _ _ _) as [[e1|output] st4] eqn:Hcall.
      + injection Hc as _ <-.
        eapply (runs_call_layer same_rebuilt any_error) in Hcall as [-> _]; [|done..].
        by rewrite Hm.
      + eapply (runs_call_layer same_rebuilt any_error) in Hcall as [Hcall _]; [|done..].
        injection Hc as _ <-. by rewrite Hcall, Hm. }
  by injection H as _ <-.
Qed.

Lemma grows_by_counted_once model_inputs replace_tensors new fin st fin' st' :
  grows_by model_inputs replace_tensors new fin st fin' st' → counted_once fin st st'.
Proof.
  intros (_ & Hreb & Hnd & Hin & _). exists new. do 2 (split; [done|]).
  intros n Hn. by apply Hin in Hn as [? _].
Qed.

Lemma visits_counted_once fuel model_inputs replace_tensors masks ys fin st r st' :
  (∀ x fin st e st',
     _rebuild_rec fuel model_inputs replace_tensors masks x fin st = (inl e, st') →
     counted_once fin st st') →
  for_each_acc (_rebuild_rec fuel model_inputs replace_tensors masks) ys fin st
  = (r, st') →
  counted_once fin st st'.
Proof.
  intros Hfail. destruct r as [e|[results fin']].
  2:{ intros Hrun.
      destruct (visits_spec _ _ _ _ _ _ _ _ _ _ (visit_spec_all _ _ _ _) Hrun)
        as (new & Hg & _).
      by eapply grows_by_counted_once. }
  revert fin st. induction ys as [|y ys IH]; intros fin st Hrun; [done|].
  cbn [for_each_acc] in Hrun. unfold bind at 1 in Hrun.
  destruct (_rebuild_rec _ _ _ _ y fin st) as [[e0|[res fin1]] st1] eqn:Hy.
  { injection Hrun as <- <-. by eapply Hfail. }
  destruct (visit_spec_all _ _ _ _ _ _ _ _ _ _ Hy)
    as (new1 & (Hsub & Hreb1 & Hnd1 & Hin1 & _) & _).
  unfold bind at 1 in Hrun.
  destruct (for_each_acc _ ys fin1 st1) as [[e0|[results fin2]] st2] eqn:Hys; [|done].
  injection Hrun as <- <-.
  destruct (IH _ _ Hys) as (new2 & Hreb2 & Hnd2 & Hnone2).
  exists (new1 ++ new2). split; [by rewrite Hreb2, Hreb1, app_assoc|]. split.
  - apply NoDup_app. split; [done|]. split; [|done].
    intros n [_ [p Hp]]%Hin1 Hn2%Hnone2. congruence.
  - intros n [Hn|Hn]%elem_of_app.
    + by apply Hin1 in Hn as [? _].
    + apply Hnone2 in Hn. destruct (fin !! n) as [p|] eqn:Hp; [|done].
      by rewrite (lookup_weaken _ _ _ _ Hp Hsub) in Hn.
Qed.

Lemma _rebuild_rec_counted_once fuel model_inputs replace_tensors masks x fin st r st' :
  _rebuild_rec fuel model_inputs replace_tensors masks x fin st = (r, st') →
  counted_once fin st st'.
Proof.
  destruct r as [e|[res fin']].
  2:{ intros Hrun. destruct (visit_spec_all _ _ _ _ _ _ _ _ _ _ Hrun) as (new & Hg & _).
      by eapply grows_by_counted_once. }
  revert x fin st e st'.
  induction fuel as [|fuel IH]; intros [layer node_index] fin st e st' Hrun.
  { injection Hrun as _ <-. exists []. rewrite app_nil_r.
    split; [done|]. split; [constructor|]. by intros n ?%elem_of_nil. }
  apply _rebuild_rec_err in Hrun
    as [->|(node & Hfin & Hsub & Hin & Hx &
            [Hacc|(results & fin1 & st1 & Hacc & [->|Hreb])])].
  - exists []. rewrite app_nil_r.
    split; [done|]. split; [constructor|]. by intros n ?%elem_of_nil.
  - by eapply visits_counted_once.
  - by eapply visits_counted_once.
  - destruct (visits_spec _ _ _ _ _ _ _ _ _ _ (visit_spec_all _ _ _ _) Hacc)
      as (new1 & (Hsub1 & Hreb1 & Hnd1 & Hin1 & _) & _).
    assert (fin1 !! (layer, node_index) = None) as Hfin1.
    { edestruct (visits_keep_blocked fuel model_inputs replace_tensors masks
                   (λ _, False) (layer, node_index)) as [_ Hnone];
        [apply visit_keeps_blocked_all| | | |exact Hx|exact Hacc|].
      - intros y Hy. exact Hy.
      - intros s [[]| ->]. done.
      - intros s [].
      - apply Hnone. by right. }
    exists (new1 ++ [(layer, node_index)]).
    split; [by rewrite Hreb, Hreb1, app_assoc|]. split.
    + apply NoDup_app. split; [done|]. split; [|apply NoDup_singleton].
      intros n [_ [p Hp]]%Hin1 ->%list_elem_of_singleton. congruence.
    + intros n [Hn| ->%list_elem_of_singleton]%elem_of_app; [|done].
      by apply Hin1 in Hn as [? _].
Qed.

Lemma rebuild_submodel_counted_once
    fuel model_inputs output_layers output_layers_node_indices
    replace_tensors fin input_delete_masks st r st' :
  rebuild_submodel fuel model_inputs output_layers output_layers_node_indices
                   replace_tensors fin input_delete_masks st = (r, st') →
  counted_once fin st st'.
Proof.
  unfold rebuild_submodel. unfold bind at 1.
  destruct (for_each_acc _ _ fin st) as [[e|[results fin1]] st1] eqn:Hacc.
  - intros [= <- <-]. eapply visits_counted_once; [|exact Hacc].
    intros. by eapply _rebuild_rec_counted_once.
  - assert (counted_once fin st st1) as Hc.
    { eapply visits_counted_once; [|exact Hacc].
      intros. by eapply _rebuild_rec_counted_once. }
    unfold bind at 1. case_decide; [by intros [= <- <-]|]. by intros [= <- <-].
Qed.

(** C3. In one run of [rebuild_submodel], whether it returns or raises,
    the rebuild computation (mask application and re-application of the
    operation) is carried out at most once for a node instance, along
    however many paths the frontier reaches it: the node instances counted
    by the run hold no duplicate, and none of them was in the cache at the
    start.  When the run returns, each of them is in the cache; a later
    visit of it, at any recursion budget, returns the cached pair and
    changes nothing; and a frontier node that was rebuilt in the run has
    the cached pair as its output. *)
Theorem rebuild_computes_each_node_once
    fuel model_inputs output_layers output_layers_node_indices
    replace_tensors fin input_delete_masks st r st' :
  rebuild_submodel fuel model_inputs output_layers output_layers_node_indices
                   replace_tensors fin input_delete_masks st = (r, st') →
  ∃ new,
    rebuilt st' = rebuilt st ++ new ∧
    NoDup new ∧
    (∀ n, n ∈ new → fin !! n = None) ∧
    ∀ outputs output_masks fin',
      r = inr (outputs, output_masks, fin') →
      fin ⊆ fin' ∧
      (∀ n, n ∈ new →
         ∃ cached, fin' !! n = Some cached ∧
           ∀ fuel' masks,
             _rebuild_rec (S fuel') model_inputs replace_tensors masks n fin' st'
             = (inr (cached, fin'), st')) ∧
      Forall2 (λ n out, n ∈ new → fin' !! n = Some out)
              (zip output_layers output_layers_node_indices)
              (zip outputs output_masks).
Proof.
  intros Hrun. destruct r as [e|[[outputs output_masks] fin']].
  { destruct (rebuild_submodel_counted_once _ _ _ _ _ _ _ _ _ _ Hrun)
      as (new & Hreb & Hnd & Hnone).
    exists new. do 3 (split; [done|]). by intros outputs output_masks fin' [=]. }
  unfold rebuild_submodel in Hrun.
  apply bind_ok in Hrun as ([results fin1] & st1 & Hacc & Hrun).
  apply bind_ok in Hrun as (u & st2 & Hne & Hret).
  case_decide; [done|]. injection Hne as _ <-. injection Hret as <- <- <- <-.
  destruct (visits_spec _ _ _ _ _ _ _ _ _ _ (visit_spec_all _ _ _ _) Hacc)
    as (new & (Hsub & Hreb & Hnd & Hin & Hfacts) & Hcached).
  exists new. do 2 (split; [done|]). split.
  { intros n Hn. by apply Hin in Hn as [? _]. }
  intros ? ? ? [= <- <- <-]. split; [done|]. split.
  - intros [layer node_index] Hn.
    destruct (proj1 (Hin _) Hn) as [Hnone [cached Hc]].
    exists cached. split; [done|]. intros fuel' masks.
    destruct (Hfacts _ Hn) as (Hrep & _ & [es Hes]).
    unfold edges_of in Hes. simpl in Hes.
    destruct (store st1 !! layer) as [l|] eqn:Hl; [|done]. simpl in Hes.
    destruct (inbound_nodes l !! node_index) as [node|] eqn:Hnode; [|done].
    cbn [_rebuild_rec].
    rewrite (bind_step _ _ _ _ _ (inbound_node_some _ _ _ _ _ Hl Hnode)).
    rewrite (bind_step _ _ _ _ _ (get_output_at_some _ _ _ _ _ Hl Hnode)).
    by rewrite Hrep, Hc.
  - assert (zip (fst <$> results) (snd <$> results) = results) as ->.
    { clear. induction results as [|[a b] results IH]; [done|]. simpl. by f_equal. }
    eapply Forall2_impl; [exact Hcached|].
    intros n out Hc Hn. destruct (Hfacts _ Hn) as (? & ? & _). by apply Hc.
Qed.

End rebuilder.

(** *** The Edit Orchestrator: copies *)

Section copies.
Context {scalar : Type} {K : Keras scalar}.
Implicit Types (st : state scalar).
Local Abbreviation no_copy := (@no_copy scalar _).

#[local] Instance same_copies_preorder : PreOrder (@same_copies scalar).
Proof.
  split; [by intros st|]. intros st1 st2 st3 H12 H23.
  unfold same_copies in *. congruence.
Qed.

Local Ltac step := runs_step_with ltac:(done).
Local Ltac side := first [ apply _ | done ].

Lemma no_copy_rebuild_submodel fuel model_inputs outs idxs replace_tensors fin masks :
  no_copy (rebuild_submodel fuel model_inputs outs idxs replace_tensors fin masks).
Proof. apply runs_rebuild_submodel; side. Qed.

Lemma no_copy_call_layer layer ins : no_copy (call_layer layer ins).
Proof. apply runs_call_layer; side. Qed.

Lemma no_copy_inbound_node layer node_index : no_copy (inbound_node layer node_index).
Proof. apply runs_inbound_node; side. Qed.

Lemma no_copy_get_output_at layer node_index : no_copy (get_output_at layer node_index).
Proof. apply runs_get_output_at; side. Qed.

Lemma no_copy_sorted_indices model layer node_indices :
  no_copy (sorted_indices model layer node_indices).
Proof.
  unfold sorted_indices, get_node_depth, no_copy.
  repeat first [ apply no_copy_inbound_node | step ].
Qed.

Lemma no_copy_new_model ins outs : no_copy (new_model ins outs).
Proof.
  intros st r st'. unfold new_model.
  destruct (build_model _ _ _); intros [= <- <-]; by split.
Qed.

Lemma no_copy_edit_node fuel model layer modifier_function masks node_index acc :
  (∀ l i ins, no_copy (modifier_function l i ins)) →
  no_copy (edit_node fuel model layer modifier_function masks node_index acc).
Proof.
  intros Hmod. unfold edit_node, no_copy. destruct acc as [replace_tensors fin].
  repeat first [ apply no_copy_inbound_node | apply no_copy_rebuild_submodel
               | apply Hmod | step ].
Qed.

(** With a copy flag that is not true, the orchestrator copies nothing. *)
Lemma no_copy_reused_core_logic
    fuel model layer modifier_function node_indices copy masks :
  truthy copy = false →
  (∀ l i ins, no_copy (modifier_function l i ins)) →
  no_copy (reused_core_logic fuel model layer modifier_function node_indices copy masks).
Proof.
  intros Hcopy Hmod. unfold reused_core_logic, no_copy. rewrite Hcopy.
  case_bool_decide; [|step].
  repeat first [ apply no_copy_sorted_indices
               | apply runs_for_each_acc;
                   [apply _|intros ??; by apply no_copy_edit_node]
               | apply no_copy_rebuild_submodel
               | apply no_copy_new_model
               | step ].
Qed.

Lemma no_copy__delete_inbound_weights new_layer new_delete_mask l i ins :
  no_copy (_delete_inbound_weights new_layer new_delete_mask l i ins).
Proof.
  unfold _delete_inbound_weights, no_copy.
  repeat first [ apply no_copy_call_layer | apply no_copy_get_output_at | step ].
Qed.

Lemma no_copy_delete_channels fuel model layer channel_indices node_indices copy :
  truthy (with_default None copy) = false →
  no_copy (delete_channels fuel model layer channel_indices node_indices copy).
Proof.
  intros Hcopy. unfold delete_channels, no_copy.
  step.
  { unfold _delete_channel_weights. repeat step. apply runs_from_config; side. }
  step.
  { unfold _make_delete_mask. repeat step. }
  step.
  { repeat step. apply runs_ones_after_batch; side. }
  apply no_copy_reused_core_logic; [done|].
  apply no_copy__delete_inbound_weights.
Qed.

(** C7, where the code departs from it.  [delete_channels] called
    without the isolation flag takes it as [None]: whatever the model,
    the target and the indices, and however the call ends, no model has
    been handed to [clean_copy]. *)
Theorem delete_channels_default_makes_no_copy
    fuel model layer channel_indices node_indices st :
  copied (snd (delete_channels fuel model layer channel_indices node_indices
                               Omitted st))
  = copied st.
Proof.
  destruct (delete_channels _ _ _ _ _ _ st) as [r st'] eqn:Hrun.
  by apply (no_copy_delete_channels _ _ _ _ _ Omitted eq_refl) in Hrun as [Hc _].
Qed.

Lemma clean_copy_ok model st model' st' :
  clean_copy model st = (inr model', st') → copied st' = copied st ++ [model].
Proof.
  unfold clean_copy. destruct (copy_model _ _) as [[m s]|]; [|done].
  by intros [= _ <-].
Qed.

Lemma no_copy_get_layer model name : no_copy (get_layer model name).
Proof.
  intros st r st'. unfold get_layer.
  destruct (find _ _); intros [= <- <-]; by split.
Qed.

Lemma no_copy_default_indices model layer (node_indices : option (list nat)) :
  no_copy (match node_indices with
           | None | Some [] =>
               let* l := get_object layer in
               ret (bool_to_index
                      (check_nodes_in_model model
                         (pair layer <$> seq 0 (length (inbound_nodes l)))))
           | Some ns => ret ns
           end).
Proof. unfold no_copy. repeat step. Qed.

Lemma no_copy_layer_of_copy (model' : Model) layer :
  no_copy (let* l := get_object layer in
           let* name := match config l !! "name" with
                        | Some (CStr name) => ret name
                        | _ => raise KeyError
                        end in
           let* layer' := get_layer model' name in
           ret (model', layer')).
Proof. unfold no_copy. repeat first [ apply no_copy_get_layer | step ]. Qed.

(** With a copy flag that is true, an edit that returns has copied the
    model it was given before anything else, and the model it built as
    the last thing. *)
Lemma reused_core_logic_copies
    fuel model layer modifier_function node_indices copy masks st result st' :
  truthy copy = true →
  (∀ l i ins, no_copy (modifier_function l i ins)) →
  reused_core_logic fuel model layer modifier_function node_indices copy masks st
  = (inr result, st') →
  ∃ new, copied st' = copied st ++ [model; new].
Proof.
  intros Hcopy Hmod. unfold reused_core_logic. rewrite Hcopy.
  case_bool_decide as Hin; [|done]. intros H.
  apply bind_ok in H as (ns & st1 & Hns & H).
  apply no_copy_default_indices in Hns as [Hc1 _].
  apply bind_ok in H as ([model' layer'] & st2 & Hcp & H).
  apply bind_ok in Hcp as (model'' & st1' & Hclean & Hcp).
  apply clean_copy_ok in Hclean.
  apply no_copy_layer_of_copy in Hcp as [Hc2 _].
  apply bind_ok in H as (order & st3 & Hord & H).
  apply no_copy_sorted_indices in Hord as [Hc3 _].
  apply bind_ok in H as ([us [replace_tensors fin]] & st4 & Hloop & H).
  eapply (runs_for_each_acc same_copies _ any_error) in Hloop as [Hc4 _];
    [|intros ??; by apply no_copy_edit_node].
  apply bind_ok in H as ([[new_outputs ms] fin'] & st5 & Hreb & H).
  apply no_copy_rebuild_submodel in Hreb as [Hc5 _].
  apply bind_ok in H as (new & st6 & Hnew & H).
  apply no_copy_new_model in Hnew as [Hc6 _].
  apply clean_copy_ok in H.
  exists new. unfold same_copies in *.
  rewrite H, Hc6, Hc5, Hc4, Hc3, Hc2, Hclean, Hc1. by rewrite <-app_assoc.
Qed.

Lemma no_copy__insert_layer new_layer l i ins : no_copy (_insert_layer new_layer l i ins).
Proof.
  unfold _insert_layer, no_copy.
  repeat first [ apply no_copy_call_layer | apply no_copy_inbound_node
               | apply no_copy_get_output_at | step ].
Qed.

Lemma no_copy__replace_layer new_layer l i ins : no_copy (_replace_layer new_layer l i ins).
Proof.
  unfold _replace_layer, no_copy.
  repeat first [ apply no_copy_call_layer | apply no_copy_get_output_at | step ].
Qed.

Lemma no_copy__delete_layer l i ins : no_copy (_delete_layer l i ins).
Proof.
  unfold _delete_layer, no_copy.
  repeat first [ apply no_copy_get_output_at | step ].
Qed.

(** The three sibling edits do default to isolation: called without the
    flag, a call that returns has copied the given model first and the
    new model last. *)
Lemma sibling_edits_copy_by_default fuel model layer new_layer node_indices st result st' :
  (insert_layer fuel model layer new_layer node_indices Omitted st = (inr result, st') ∨
   replace_layer fuel model layer new_layer node_indices Omitted st = (inr result, st') ∨
   delete_layer fuel model layer node_indices Omitted st = (inr result, st')) →
  ∃ new, copied st' = copied st ++ [model; new].
Proof.
  unfold insert_layer, replace_layer, delete_layer.
  intros [H|[H|H]]; (eapply reused_core_logic_copies; [| |exact H]; [done|]).
  - apply no_copy__insert_layer.
  - apply no_copy__replace_layer.
  - apply no_copy__delete_layer.
Qed.

End copies.

(** *** The Edit Orchestrator: order of the edits *)

Section edit_order.
Context {scalar : Type} {K : Keras scalar}.
Implicit Types (st : state scalar).







End edit_order.

(** ** The properties on the example graphs *)

(** C1, counterexample: on the chain, [dense_2] given the mask that drops
    the middle output of [dense_1] hands on a mask that is not absent. *)
Lemma dense_outbound_mask_is_not_absent :
  class_name chain_dense_2 = "Dense" ∧
  ∃ new_layer out st',
    _apply_delete_mask (scalar:=Z) 2 [Some keep_0_2] chain_state
    = (inr (new_layer, out), st') ∧
    out ≠ None.
Proof.
  split; [reflexivity|]. eexists _, _, _. split; [vm_compute; reflexivity|]. discriminate.
Qed.

(** C1 on the chain: the mask [dense_2] hands on is the all-true mask over
    its two outputs. *)
Lemma dense_outbound_mask_all_true_witness :
  ∃ sh dims outbound,
    output_shape chain_dense_2 = Some sh ∧
    mapM id (tail sh) = Some dims ∧
    Some (np.ones [2]) = Some outbound ∧
    np.shape outbound = dims ∧
    length (np.data outbound) = np.size_of dims ∧
    Forall (λ b, b = true) (np.data outbound).
Proof.
  eapply (dense_outbound_mask_all_true (scalar:=Z) 2 [Some keep_0_2] chain_state
            chain_dense_2 3 (Some (np.ones [2])) _).
  - reflexivity.
  - reflexivity.
  - exists keep_0_2. constructor.
  - vm_compute. reflexivity.
Defined.

(** C2 on the chain: the graph input is substituted, although it is a
    declared input and the cache holds an entry for its node. *)
Lemma substitution_takes_precedence_witness :
  _rebuild_rec (K:=toy_keras) 1 [(0, 0)] input_substitution [None] (0, 0)
               input_cache chain_state
  = (inr (((1, 0), None), input_cache), chain_state).
Proof.
  apply (substitution_takes_precedence (K:=toy_keras) 0 [(0, 0)] input_substitution
           [None] 0 0 input_cache chain_state (0, 0) ((1, 0), None)).
  - vm_compute. reflexivity.
  - vm_compute. reflexivity.
Defined.

(** C3 on the diamond, rebuilt up to its two heads. *)
Lemma rebuild_computes_each_node_once_witness :
  ∃ r st' new,
    rebuild_submodel (K:=toy_keras) 10 [(0, 0)] [2; 3] [0; 0] ∅ ∅ None diamond_state
    = (r, st') ∧
    rebuilt st' = rebuilt diamond_state ++ new ∧
    NoDup new.
Proof.
  eassert (rebuild_submodel (K:=toy_keras) 10 [(0, 0)] [2; 3] [0; 0] ∅ ∅ None diamond_state
           = (inr (_, _, _), _)) as Hrun.
  { vm_compute. reflexivity. }
  destruct (rebuild_computes_each_node_once _ _ _ _ _ _ _ _ _ _ Hrun)
    as (new & Hreb & Hnd & _).
  eexists _, _, new. split; [exact Hrun|]. split; [exact Hreb|exact Hnd].
Defined.

(** On the diamond the trunk is reached through both heads and rebuilt
    once. *)
Example diamond_rebuilds_trunk_once :
  rebuilt (snd (rebuild_submodel (K:=toy_keras) 10 [(0, 0)] [2; 3] [0; 0] ∅ ∅ None
                                 diamond_state))
  = [(1, 0); (2, 0); (3, 0)].
Proof. vm_compute. reflexivity. Qed.

(** C5, counterexample: on the diamond, [add] has two inbound edges.
    Inserting before it is refused with the multi-input error, but not
    before any graph construction: by then the orchestrator has rebuilt
    the trunk and the two heads, each of which has a node more. *)
Lemma insert_refused_after_predecessors_rebuilt :
  edges_of diamond_store (4, 0) = Some [(2, 0); (3, 0)] ∧
  ∃ st',
    insert_layer (K:=toy_keras) 10 join_model 4 5 None (Passed (Some false)) diamond_state
    = (inl MultiInputUnsupported, st') ∧
    rebuilt st' = [(1, 0); (2, 0); (3, 0)] ∧
    length <$> (inbound_nodes <$> (store diamond_state !! 2)) = Some 1 ∧
    length <$> (inbound_nodes <$> (store st' !! 2)) = Some 2 ∧
    inbound_nodes <$> (store st' !! 5) = Some [].
Proof.
  split; [vm_compute; reflexivity|].
  eexists. repeat split; vm_compute; reflexivity.
Qed.

(** C5 on the diamond, with the two tensors that feed [add]. *)
Lemma insert_and_delete_reject_multi_input_witness :
  _insert_layer (K:=toy_keras) 5 4 0 [(2, 0); (3, 0)] diamond_state
  = (inl MultiInputUnsupported, diamond_state) ∧
  _delete_layer 4 0 [(2, 0); (3, 0)] diamond_state
  = (inl MultiInputUnsupported, diamond_state) ∧
  (∀ e st', _replace_layer (K:=toy_keras) 5 4 0 [(2, 0); (3, 0)] diamond_state
            = (inl e, st') →
            e ≠ MultiInputUnsupported).
Proof.
  apply (insert_and_delete_reject_multi_input (K:=toy_keras) 5 4 0 [(2, 0); (3, 0)]
           diamond_state).
  simpl. lia.
Defined.

(** C6 on the chain: channel 10 of [dense_1], which has 3. *)
Lemma delete_channels_index_out_of_range_witness :
  delete_channels (K:=toy_keras) 10 chain_model 1 [10%Z] None Omitted chain_state
  = (inl (ChannelIndexOutOfRange 3), chain_state).
Proof.
  apply (delete_channels_index_out_of_range (K:=toy_keras) 10 chain_model 1 [10%Z]
           None Omitted chain_state chain_dense_1 3).
  - reflexivity.
  - reflexivity.
  - exists 10%Z. split; [constructor|lia].
Defined.

(** C7: without the flag, [insert_layer] copies the model before and the
    result after; [delete_channels] copies nothing. *)
Example insert_layer_copies_on_the_chain :
  ∃ result st',
    insert_layer (K:=toy_keras) 10 chain_model 2 3 None Omitted chain_spare_state
    = (inr result, st') ∧ length (copied st') = 2.
Proof. eexists _, _. split; vm_compute; reflexivity. Qed.

Example delete_channels_copies_nothing_on_the_chain :
  ∃ result st',
    delete_channels (K:=toy_keras) 10 chain_model 1 [1%Z] None Omitted chain_state
    = (inr result, st') ∧ copied st' = [].
Proof. eexists _, _. split; vm_compute; reflexivity. Qed.

(** C8 on the chain: channel 1 of [dense_1] listed twice. *)
Lemma delete_channel_weights_duplicate_indices_witness :
  ∃ new_layer l' st',
    _delete_channel_weights (scalar:=Z) 1 [1; 1]%Z chain_state = (inr new_layer, st') ∧
    store st' !! new_layer = Some l' ∧
    channel_count l' = Some (3 - Z.of_nat (length [1; 1]%Z))%Z ∧
    Forall2 (λ w w', ∃ pre n',
               np.shape w = pre ++ [Z.to_nat 3] ∧
               np.shape w' = pre ++ [n'] ∧
               n' = Z.to_nat 3 - length (remove_dups [1; 1]%Z) ∧
               Z.of_nat n' ≠ (3 - Z.of_nat (length [1; 1]%Z))%Z)
            (weights chain_dense_1) (weights l').
Proof.
  apply (delete_channel_weights_duplicate_indices (scalar:=Z) 1 [1; 1]%Z chain_state
           chain_dense_1 3).
  - reflexivity.
  - reflexivity.
  - repeat constructor; lia.
  - intros [Hnot _]%NoDup_cons. apply Hnot. constructor.
  - constructor; [by exists [4]|]. constructor; [by exists []|]. constructor.
Defined.

(** C9 on the chain: [dense_2] given the mask that drops the middle output
    of [dense_1]. *)
Lemma dense_mask_trims_first_weight_only_witness :
  ∃ l' m w0 rows w0',
    [Some keep_0_2] = [Some m] ∧
    store chain_after_mask !! 3 = Some l' ∧
    weights chain_dense_2 !! 0 = Some w0 ∧
    np.where0 m = Some rows ∧
    np.take_rows w0 rows = Some w0' ∧
    weights l' !! 0 = Some w0' ∧
    length (weights l') = length (weights chain_dense_2) ∧
    (∀ i, 0 < i → weights l' !! i = weights chain_dense_2 !! i) ∧
    store chain_after_mask !! 2 = Some chain_dense_2.
Proof.
  apply (dense_mask_trims_first_weight_only (scalar:=Z) 2 [Some keep_0_2] chain_state
           chain_dense_2 3 (Some (np.ones [2])) chain_after_mask).
  - reflexivity.
  - reflexivity.
  - exists keep_0_2. constructor.
  - vm_compute. reflexivity.
Defined.

(** On the chain: the kernel of [dense_2] loses its middle row, the bias
    is the one it was. *)
Example dense_2_after_mask :
  weights <$> (store chain_after_mask !! 3)
  = Some [np.array [2; 2] [1; 2; 5; 6]%Z; np.array [2] [7; 8]%Z].
Proof. vm_compute. reflexivity. Qed.


(** On the chain seen by the model without [dense_1], an index out of
    range is what the call reports, and with valid indices the absence of
    the target is reported after the trimmed layer was created. *)
Example absent_target_out_of_range_on_the_chain :
  fst (delete_channels (K:=toy_keras) 10 other_model 1 [10%Z] None Omitted chain_state)
  = inl (ChannelIndexOutOfRange 3) ∧
  fst (delete_channels (K:=toy_keras) 10 other_model 1 [1%Z] None Omitted chain_state)
  = inl OperationNotFound ∧
  weights <$> (store (snd (delete_channels (K:=toy_keras) 10 other_model 1 [1%Z] None
                                           Omitted chain_state)) !! 3)
  = Some [np.array [4; 2] [1; 3; 4; 6; 7; 9; 10; 12]%Z; np.array [2] [0; 0]%Z].
Proof. repeat split; vm_compute; reflexivity. Qed.




(** ** Further properties of the module *)

(** *** What a whole edit changes *)

Section orchestrator_frames.
Context {scalar : Type} {K : Keras scalar}.
Variable R : relation (state scalar).
Context `{!PreOrder R}.

Hypothesis R_append_node : ∀ st layer l in_shapes node,
  store st !! layer = Some l →
  R st (mkState (<[layer := called l in_shapes node]> (store st))
                (rebuilt st) (copied st) (edited st)).
Hypothesis R_new_object : ∀ st (l : Layer scalar),
  R st (mkState (<[fresh (dom (store st)) := l]> (store st)) (rebuilt st) (copied st) (edited st)).
Hypothesis R_note_rebuilt : ∀ st node,
  R st (mkState (store st) (rebuilt st ++ [node]) (copied st) (edited st)).
Hypothesis R_clean_copy : ∀ st model model' s',
  copy_model model (store st) = Some (model', s') →
  R st (mkState s' (rebuilt st) (copied st ++ [model]) (edited st)).

Local Ltac step := runs_step_with ltac:(done).
Local Ltac side := first [ apply _ | done ].
Local Abbreviation ok := (runs R any_error).

Lemma ok_clean_copy model : ok (clean_copy model).
Proof.
  intros st r st'. unfold clean_copy.
  destruct (copy_model model (store st)) as [[model' s']|] eqn:Hc; intros [= <- <-].
  - split; [by eapply R_clean_copy|done].
  - split; [reflexivity|done].
Qed.

Lemma ok_get_layer model name : ok (get_layer model name).
Proof.
  intros st r st'. unfold get_layer.
  destruct (find _ _); intros [= <- <-]; (split; [reflexivity|done]).
Qed.

Lemma ok_new_model ins outs : ok (new_model ins outs).
Proof.
  intros st r st'. unfold new_model.
  destruct (build_model _ _ _); intros [= <- <-]; (split; [reflexivity|done]).
Qed.

Lemma ok_inbound_node layer node_index : ok (inbound_node layer node_index).
Proof. apply runs_inbound_node; side. Qed.

Lemma ok_get_output_at layer node_index : ok (get_output_at layer node_index).
Proof. apply runs_get_output_at; side. Qed.

Lemma ok_call_layer layer ins : ok (call_layer layer ins).
Proof. apply runs_call_layer; side. Qed.

Lemma ok_rebuild_submodel fuel model_inputs outs idxs replace_tensors fin masks :
  ok (rebuild_submodel fuel model_inputs outs idxs replace_tensors fin masks).
Proof. apply runs_rebuild_submodel; side. Qed.

Lemma ok_sorted_indices model layer node_indices :
  ok (sorted_indices model layer node_indices).
Proof.
  unfold sorted_indices, get_node_depth.
  repeat first [ apply ok_inbound_node | step ].
Qed.

Lemma ok_edit_node fuel model layer modifier_function masks node_index acc :
  (∀ l i ins, ok (modifier_function l i ins)) →
  ok (edit_node fuel model layer modifier_function masks node_index acc).
Proof.
  intros Hmod. unfold edit_node. destruct acc as [replace_tensors fin].
  repeat first [ apply ok_inbound_node | apply ok_rebuild_submodel | apply Hmod | step ].
Qed.

Lemma ok_reused_core_logic fuel model layer modifier_function node_indices copy masks :
  (∀ l i ins, ok (modifier_function l i ins)) →
  ok (reused_core_logic fuel model layer modifier_function node_indices copy masks).
Proof.
  intros Hmod. unfold reused_core_logic.
  case_bool_decide; [|step].
  repeat first [ apply ok_sorted_indices
               | apply runs_for_each_acc; [apply _|intros ??; by apply ok_edit_node]
               | apply ok_rebuild_submodel
               | apply ok_new_model
               | apply ok_clean_copy
               | apply ok_get_layer
               | step ].
Qed.

Lemma ok__insert_layer new_layer l i ins : ok (_insert_layer new_layer l i ins).
Proof.
  unfold _insert_layer.
  repeat first [ apply ok_call_layer | apply ok_inbound_node | apply ok_get_output_at | step ].
Qed.

Lemma ok__replace_layer new_layer l i ins : ok (_replace_layer new_layer l i ins).
Proof.
  unfold _replace_layer.
  repeat first [ apply ok_call_layer | apply ok_get_output_at | step ].
Qed.

Lemma ok__delete_layer l i ins : ok (_delete_layer l i ins).
Proof. unfold _delete_layer. repeat first [ apply ok_get_output_at | step ]. Qed.

Lemma ok__delete_inbound_weights new_layer new_delete_mask l i ins :
  ok (_delete_inbound_weights new_layer new_delete_mask l i ins).
Proof.
  unfold _delete_inbound_weights.
  repeat first [ apply ok_call_layer | apply ok_get_output_at | step ].
Qed.

Lemma ok_delete_channels fuel model layer channel_indices node_indices copy :
  ok (delete_channels fuel model layer channel_indices node_indices copy).
Proof.
  unfold delete_channels.
  step.
  { unfold _delete_channel_weights. repeat step. apply runs_from_config; side. }
  step.
  { unfold _make_delete_mask. repeat step. }
  step.
  { repeat step. apply runs_ones_after_batch; side. }
  apply ok_reused_core_logic. apply ok__delete_inbound_weights.
Qed.

Lemma ok_edits fuel model layer new_layer channel_indices node_indices copy st r st' :
  insert_layer fuel model layer new_layer node_indices copy st = (r, st') ∨
  replace_layer fuel model layer new_layer node_indices copy st = (r, st') ∨
  delete_layer fuel model layer node_indices copy st = (r, st') ∨
  delete_channels fuel model layer channel_indices node_indices copy st = (r, st') →
  R st st'.
Proof.
  unfold insert_layer, replace_layer, delete_layer.
  intros [H|[H|[H|H]]].
  - eapply ok_reused_core_logic; [|exact H]. apply ok__insert_layer.
  - eapply ok_reused_core_logic; [|exact H]. apply ok__replace_layer.
  - eapply ok_reused_core_logic; [|exact H]. apply ok__delete_layer.
  - eapply ok_delete_channels. exact H.
Qed.

End orchestrator_frames.

(** *** The Edit Orchestrator: the callback is invoked by decreasing depth *)

Section edit_trace.
Context {scalar : Type} {K : Keras scalar}.
Implicit Types (st : state scalar).

#[local] Instance same_edited_preorder : PreOrder (@same_edited scalar).
Proof.
  split; [by intros st|]. intros st1 st2 st3 H12 H23.
  unfold same_edited in *. congruence.
Qed.

Local Abbreviation quiet := (runs (scalar:=scalar) same_edited any_error) (only parsing).









End edit_trace.


(** On the layer applied twice: asked for the nodes 1 and 0, the callback
    is invoked for node 0 (depth 1) and then for node 1 (depth 0); the
    second node of the spare layer is fed by its first. *)
Example shared_layer_edited_deepest_first :
  (λ r, (edited (snd r), edges_of (store (snd r)) (2, 1)))
    (reused_core_logic (K:=toy_keras) 10 shared_model 1
                       (logged (_replace_layer (K:=toy_keras) 2))
                       (Some [1; 0]) None None shared_spare_state)
  = ([(1, 0); (1, 1)], Some [(2, 0)]).
Proof. vm_compute. reflexivity. Qed.



Section objects_kept.
Context {scalar : Type} {K : Keras scalar}.
Implicit Types (st : state scalar).

#[local] Instance kept_preorder : PreOrder (@kept scalar).
Proof.
  split.
  - intros st layer l Hl. exists l. eauto.
  - intros st1 st2 st3 H12 H23 layer l Hl.
    destruct (H12 _ _ Hl) as (l2 & Hl2 & Hc2 & Hg2 & Hw2 & Hp2).
    destruct (H23 _ _ Hl2) as (l3 & Hl3 & Hc3 & Hg3 & Hw3 & Hp3).
    exists l3. split; [done|]. split; [congruence|]. split; [congruence|].
    split; [|by etrans].
    intros Hbuilt. rewrite <-(Hw2 Hbuilt). apply Hw3.
    destruct Hbuilt as [Hn|Hw].
    + left. intros Hnil. rewrite Hnil in Hp2. by apply prefix_nil_inv in Hp2.
    + right. by rewrite (Hw2 (or_intror Hw)).
Qed.

Lemma kept_append_node st layer l in_shapes node :
  store st !! layer = Some l →
  kept st (mkState (<[layer := called l in_shapes node]> (store st))
                   (rebuilt st) (copied st) (edited st)).
Proof.
  intros Hl layer' l' Hl'. cbn [store].
  destruct (decide (layer' = layer)) as [->|Hne].
  - rewrite lookup_insert_eq. eexists. split; [done|]. simplify_eq.
    unfold called. cbn [class_name config weights inbound_nodes].
    split; [done|]. split; [done|]. split; [|by apply prefix_app_r].
    intros Hbuilt. rewrite decide_False; [done|]. intros [? ?]. by destruct Hbuilt.
  - rewrite lookup_insert_ne by done. exists l'. eauto.
Qed.

Lemma kept_new_object st l :
  kept st (mkState (<[fresh (dom (store st)) := l]> (store st))
                   (rebuilt st) (copied st) (edited st)).
Proof.
  intros layer' l' Hl'. cbn [store]. exists l'. rewrite lookup_insert_ne; [eauto|].
  intros <-. apply (is_fresh (dom (store st))), elem_of_dom. eauto.
Qed.

Lemma kept_subseteq st s' rb cp ed :
  store st ⊆ s' → kept st (mkState s' rb cp ed).
Proof.
  intros Hsub layer l Hl. exists l. split; [|done].
  cbn [store]. by eapply lookup_weaken.
Qed.

(** X1. No edit changes an operation in place.  Whatever the edit
    (insert, replace, delete-operation, delete-channels), the copy flag
    and the outcome, every layer object that existed before the call is
    still there with its class and its config; it has the weights it
    had, unless it had never been called and had no weights (the new
    operation handed to an insert or a replace, which its first call
    builds); all it may have gained besides is nodes after the ones it
    had.  The one assumption is on the framework: copying a model leaves
    the existing objects alone. *)
Theorem edits_keep_existing_objects
    fuel model layer new_layer channel_indices node_indices copy st r st' :
  copy_keeps_objects K →
  insert_layer fuel model layer new_layer node_indices copy st = (r, st') ∨
  replace_layer fuel model layer new_layer node_indices copy st = (r, st') ∨
  delete_layer fuel model layer node_indices copy st = (r, st') ∨
  delete_channels fuel model layer channel_indices node_indices copy st = (r, st') →
  kept st st'.
Proof.
  intros Hcopy Hrun.
  eapply (ok_edits kept); [| | | |exact Hrun].
  - apply kept_append_node.
  - apply kept_new_object.
  - intros st0 node layer0 l Hl. exists l. eauto.
  - intros st0 m m' s' Hc. apply kept_subseteq. by eapply Hcopy.
Qed.

End objects_kept.

(** *** More on the Subgraph Rebuilder *)

Section rebuilder_more.
Context {scalar : Type} {K : Keras scalar}.
#[local] Existing Instance extends_preorder.
Implicit Types (st : state scalar) (l : Layer scalar).
Implicit Types (fin : gmap (nat * nat) ((nat * nat) * option (np.ndarray bool))).
Implicit Types (replace_tensors : gmap (nat * nat) ((nat * nat) * option (np.ndarray bool))).

Lemma _rebuild_rec_S fuel model_inputs replace_tensors masks layer node_index fin :
  _rebuild_rec (S fuel) model_inputs replace_tensors masks (layer, node_index) fin
  = (let* node := inbound_node layer node_index in
     let* layer_output := get_output_at layer node_index in
     match replace_tensors !! layer_output with
     | Some substitute => ret (substitute, fin)
     | None =>
         match fin !! (layer, node_index) with
         | Some done => ret (done, fin)
         | None =>
             match index_of layer_output model_inputs with
             | Some k =>
                 let* output_mask := expect IndexError (masks !! k) in
                 ret ((layer_output, output_mask), fin)
             | None =>
                 let* (results, finished_nodes) :=
                   for_each_acc (_rebuild_rec fuel model_inputs replace_tensors masks)
                                (zip (inbound_layers node) (node_indices node)) fin in
                 let* _ := if decide (results = [])
                           then raise DanglingOperation else ret () in
                 let* _ := note_rebuilt (layer, node_index) in
                 let* (new_layer, output_mask) :=
                   _apply_delete_mask layer (snd <$> results) in
                 let* output := call_layer new_layer (fst <$> results) in
                 ret ((output, output_mask),
                      <[(layer, node_index) := (output, output_mask)]> finished_nodes)
             end
         end
     end).
Proof. reflexivity. Qed.

(** X5. A frontier without nodes, and a node instance without inbound
    edges that is neither substituted, nor cached, nor a graph input, end
    the rebuild with the dangling-operation error; nothing has been
    changed. *)
Theorem rebuild_stops_at_dangling_operation
    fuel model_inputs replace_tensors masks layer node_index fin st l node :
  store st !! layer = Some l →
  inbound_nodes l !! node_index = Some node →
  zip (inbound_layers node) (node_indices node) = [] →
  replace_tensors !! (layer, node_index) = None →
  fin !! (layer, node_index) = None →
  (layer, node_index) ∉ model_inputs →
  _rebuild_rec (S fuel) model_inputs replace_tensors masks (layer, node_index) fin st
  = (inl DanglingOperation, st) ∧
  ∀ input_delete_masks,
    rebuild_submodel fuel model_inputs [] [] replace_tensors fin input_delete_masks st
    = (inl DanglingOperation, st) ∧
    rebuild_submodel (S fuel) model_inputs [layer] [node_index] replace_tensors fin
                     input_delete_masks st
    = (inl DanglingOperation, st).
Proof.
  intros Hl Hn Hzip Hsub Hfin Hin.
  assert (index_of (layer, node_index) model_inputs = None) as Hidx.
  { clear -Hin. induction model_inputs as [|y ys IH]; [done|]. simpl.
    apply not_elem_of_cons in Hin as [Hne Hin].
    rewrite decide_False by done. by rewrite IH. }
  assert (∀ masks, _rebuild_rec (S fuel) model_inputs replace_tensors masks
                     (layer, node_index) fin st = (inl DanglingOperation, st)) as Hrec.
  { intros ms. rewrite _rebuild_rec_S.
    rewrite (bind_step _ _ _ _ _ (inbound_node_some _ _ _ _ _ Hl Hn)).
    rewrite (bind_step _ _ _ _ _ (get_output_at_some _ _ _ _ _ Hl Hn)).
    by rewrite Hsub, Hfin, Hidx, Hzip. }
  split; [apply Hrec|]. intros input_delete_masks. split; [done|].
  unfold rebuild_submodel. cbn [zip zip_with for_each_acc].
  apply bind_err. apply bind_err. apply Hrec.
Qed.

Lemma _apply_delete_mask_absent layer (masks : list (option (np.ndarray bool))) st :
  Forall (λ m, m = None) masks →
  _apply_delete_mask layer masks st = (inr (layer, None), st).
Proof.
  intros Hall. unfold _apply_delete_mask.
  assert (forallb (λ m : option (np.ndarray bool), bool_decide (m = None)) masks = true)
    as ->; [|done].
  apply forallb_forall. intros m Hm%list_elem_of_In.
  rewrite Forall_forall in Hall. apply bool_decide_eq_true. by apply Hall.
Qed.

Lemma call_layer_dom layer ins st t st' :
  call_layer layer ins st = (inr t, st') → dom (store st') = dom (store st).
Proof.
  unfold call_layer. intros H.
  apply bind_ok in H as (l & st1 & Hget & H).
  unfold get_object in Hget. destruct (store st !! layer) as [l0|] eqn:Hl; [|done].
  injection Hget as -> <-.
  apply bind_ok in H as (shapes & st1 & Hshapes & H).
  assert (st1 = st) as ->.
  { eapply (runs_for_each same_state _ any_error) in Hshapes as [Heq _]; [done|].
    intros a. unfold inbound_node. repeat runs_step. }
  apply bind_ok in H as (out & st1 & [_ ->]%expect_ok & H).
  unfold append_node in H. rewrite Hl in H. injection H as _ <-. cbn [store].
  rewrite dom_insert_L. apply elem_of_dom_2 in Hl.
  apply subseteq_union_1_L. by apply singleton_subseteq_l.
Qed.

Lemma no_masks_visit fuel model_inputs replace_tensors
    (masks : list (option (np.ndarray bool))) x fin st res fin' st' :
  masks_absent replace_tensors →
  (∀ k m, masks !! k = Some m → m = None) →
  masks_absent fin →
  _rebuild_rec fuel model_inputs replace_tensors masks x fin st = (inr (res, fin'), st') →
  snd res = None ∧ masks_absent fin' ∧ dom (store st') = dom (store st).
Proof.
  intros Hrep Hmasks. revert x fin st res fin' st'.
  induction fuel as [|fuel IH]; intros [layer node_index] fin st res fin' st' Hfin Hrun.
  { done. }
  apply _rebuild_rec_ok in Hrun
    as (l & node & Hl & Hn &
        [(Hsub & -> & ->) | [(Hsub & Hc & -> & ->) |
         [(Hsub & Hc & (k & m & Hin & Hm & ->) & -> & ->) |
          (Hsub & Hc & Hin & results & fin1 & st1 & st2 & new_layer &
           Hacc & _ & Hmask & Hcall & ->)]]]).
  - split; [by eapply Hrep|done].
  - split; [by eapply Hfin|done].
  - split; [by eapply Hmasks|done].
  - assert (Forall (λ r, snd r = None) results ∧ masks_absent fin1 ∧
            dom (store st1) = dom (store st)) as (Hres & Hfin1 & Hdom1).
    { clear -IH Hfin Hacc. revert fin st results fin1 st1 Hfin Hacc.
      induction (zip (inbound_layers node) (node_indices node)) as [|y ys IHys];
        intros fin st results fin1 st1 Hfin Hacc.
      - by injection Hacc as <- <- <-.
      - cbn [for_each_acc] in Hacc.
        apply bind_ok in Hacc as ([r0 fin0] & st0 & Hy & Hacc).
        apply bind_ok in Hacc as ([rs fin2] & st2 & Hys & Hret).
        injection Hret as <- <- <-.
        destruct (IH _ _ _ _ _ _ Hfin Hy) as (Hr0 & Hfin0 & Hdom0).
        destruct (IHys _ _ _ _ _ Hfin0 Hys) as (Hrs & Hfin2 & Hdom2).
        split; [by constructor|]. split; [done|]. congruence. }
    rewrite _apply_delete_mask_absent in Hmask.
    2:{ apply Forall_fmap. eapply Forall_impl; [exact Hres|]. by intros [??]. }
    injection Hmask as <- Hnone <-. apply call_layer_dom in Hcall.
    split; [done|]. split; [|by rewrite Hcall].
    intros k v. destruct (decide (k = (layer, node_index))) as [->|Hne].
    + rewrite lookup_insert_eq. by intros [= <-].
    + rewrite lookup_insert_ne by done. apply Hfin1.
Qed.

(** X2. A rebuild that is given no mask anywhere (no input masks, and a
    substitution map and a cache whose entries carry none, as in the
    insert, replace and delete-operation edits) hands out absent masks
    only, keeps the cache free of masks, and creates no object: the store
    holds the same layers afterwards. *)
Theorem rebuild_without_masks_creates_no_object
    fuel model_inputs output_layers output_layers_node_indices
    replace_tensors fin st outputs output_masks fin' st' :
  masks_absent replace_tensors →
  masks_absent fin →
  rebuild_submodel fuel model_inputs output_layers output_layers_node_indices
                   replace_tensors fin None st
  = (inr (outputs, output_masks, fin'), st') →
  Forall (λ m, m = None) output_masks ∧
  masks_absent fin' ∧
  dom (store st') = dom (store st).
Proof.
  intros Hrep Hfin. unfold rebuild_submodel. intros H.
  apply bind_ok in H as ([results fin1] & st1 & Hacc & H).
  apply bind_ok in H as (u & st2 & Hne & Hret).
  case_decide as Hempty; [done|]. injection Hne as _ <-.
  injection Hret as <- <- <- <-. clear Hempty.
  revert fin st results st1 Hfin Hacc.
  induction (zip output_layers output_layers_node_indices) as [|y ys IHys];
    intros fin st results st1 Hfin Hacc.
  - by injection Hacc as <- <- <-.
  - cbn [for_each_acc] in Hacc.
    apply bind_ok in Hacc as ([r0 fin0] & st0 & Hy & Hacc).
    apply bind_ok in Hacc as ([rs fin2] & st2 & Hys & Hret).
    injection Hret as <- <- <-.
    eapply no_masks_visit in Hy as (Hr0 & Hfin0 & Hdom0); [|done| |done].
    2:{ intros k m [-> _]%lookup_replicate. done. }
    destruct (IHys _ _ _ _ Hfin0 Hys) as (Hrs & Hfin2 & Hdom2).
    split; [by constructor|]. split; [done|]. congruence.
Qed.

Lemma settled_revisit model_inputs replace_tensors masks x res fin st fuel :
  settled model_inputs replace_tensors masks x res fin st →
  _rebuild_rec (S fuel) model_inputs replace_tensors masks x fin st
  = (inr (res, fin), st).
Proof.
  destruct x as [layer node_index]. intros [[es Hes] Hwhy].
  unfold edges_of in Hes. simpl in Hes.
  destruct (store st !! layer) as [l|] eqn:Hl; [|done]. simpl in Hes.
  destruct (inbound_nodes l !! node_index) as [node|] eqn:Hn; [|done].
  rewrite _rebuild_rec_S.
  rewrite (bind_step _ _ _ _ _ (inbound_node_some _ _ _ _ _ Hl Hn)).
  rewrite (bind_step _ _ _ _ _ (get_output_at_some _ _ _ _ _ Hl Hn)).
  destruct Hwhy as [Hsub|[[Hsub Hc]|(Hsub & Hc & k & m & Hin & Hm & ->)]].
  - by rewrite Hsub.
  - by rewrite Hsub, Hc.
  - rewrite Hsub, Hc, Hin. by rewrite (bind_step _ _ _ _ _ (expect_some _ _ _ _ Hm)).
Qed.

Lemma visit_settles fuel model_inputs replace_tensors masks x fin st res fin' st' :
  _rebuild_rec fuel model_inputs replace_tensors masks x fin st = (inr (res, fin'), st') →
  settled model_inputs replace_tensors masks x res fin' st'.
Proof.
  destruct fuel as [|fuel]; [done|]. destruct x as [layer node_index]. intros Hrun.
  pose proof (_rebuild_rec_extends _ _ _ _ _ _ _ _ _ Hrun) as Hext.
  assert (is_Some (edges_of (store st') (layer, node_index))) as Hedges.
  { pose proof Hrun as Hrun'.
    apply _rebuild_rec_ok in Hrun' as (l & node & Hl & Hn & _).
    eexists. eapply extends_edges; [exact Hext|].
    unfold edges_of. simpl. rewrite Hl. simpl. by rewrite Hn. }
  split; [done|].
  apply _rebuild_rec_ok in Hrun
    as (l & node & Hl & Hn &
        [(Hsub & -> & ->) | [(Hsub & Hc & -> & ->) |
         [(Hsub & Hc & (k & m & Hin & Hm & ->) & -> & ->) |
          (Hsub & Hc & Hin & results & fin1 & st1 & st2 & new_layer &
           Hacc & _ & Hmask & Hcall & ->)]]]).
  - by left.
  - right. by left.
  - right. right. eauto 10.
  - right. left. split; [done|]. apply lookup_insert_eq.
Qed.

Lemma settled_grows model_inputs replace_tensors masks x res new fin st fin' st' :
  settled model_inputs replace_tensors masks x res fin st →
  grows_by model_inputs replace_tensors new fin st fin' st' →
  extends st st' →
  settled model_inputs replace_tensors masks x res fin' st'.
Proof.
  intros [[es Hes] Hwhy] (Hsub & _ & _ & Hin & Hfacts) Hext. split.
  { exists es. by eapply extends_edges. }
  destruct Hwhy as [Hrep|[[Hrep Hc]|(Hrep & Hc & k & m & Hidx & Hm & ->)]].
  - by left.
  - right. left. split; [done|]. by eapply lookup_weaken.
  - right. right. split; [done|]. split; [|eauto].
    destruct (fin' !! x) as [v|] eqn:Hv; [|done].
    assert (x ∈ new) as Hx by (apply Hin; eauto).
    destruct (Hfacts _ Hx) as (_ & ? & _). congruence.
Qed.

Lemma visits_extend fuel model_inputs replace_tensors masks ys fin st r st' :
  for_each_acc (_rebuild_rec fuel model_inputs replace_tensors masks) ys fin st = (r, st') →
  extends st st'.
Proof.
  intros H.
  assert (runs extends any_error
            (for_each_acc (_rebuild_rec fuel model_inputs replace_tensors masks) ys fin))
    as Hr.
  { apply runs_for_each_acc; [apply _|].
    intros a c r0 s0 s1 Hr. split; [|done]. by eapply _rebuild_rec_extends. }
  by destruct (Hr _ _ _ H).
Qed.

Lemma visits_settle fuel model_inputs replace_tensors masks ys fin st results fin' st' :
  for_each_acc (_rebuild_rec fuel model_inputs replace_tensors masks) ys fin st
  = (inr (results, fin'), st') →
  Forall2 (λ y res, settled model_inputs replace_tensors masks y res fin' st') ys results.
Proof.
  revert fin st results fin' st'.
  induction ys as [|y ys IH]; intros fin st results fin' st' Hrun.
  - injection Hrun as <- <- <-. constructor.
  - cbn [for_each_acc] in Hrun.
    apply bind_ok in Hrun as ([res fin1] & st1 & Hy & Hrun).
    apply bind_ok in Hrun as ([results' fin2] & st2 & Hys & Hret).
    injection Hret as <- <- <-. constructor; [|by eapply IH].
    destruct (visits_spec _ _ _ _ _ _ _ _ _ _ (visit_spec_all _ _ _ _) Hys)
      as (new & Hg & _).
    eapply settled_grows; [by eapply visit_settles|exact Hg|].
    by eapply visits_extend.
Qed.

Lemma settled_revisits fuel model_inputs replace_tensors masks ys results fin st :
  Forall2 (λ y res, settled model_inputs replace_tensors masks y res fin st) ys results →
  for_each_acc (_rebuild_rec (S fuel) model_inputs replace_tensors masks) ys fin st
  = (inr (results, fin), st).
Proof.
  induction 1 as [|y res ys results Hy _ IH]; [done|].
  cbn [for_each_acc].
  rewrite (bind_step _ _ _ _ _ (settled_revisit _ _ _ _ _ _ _ fuel Hy)).
  by rewrite (bind_step _ _ _ _ _ IH).
Qed.

(** X3. A rebuild that returned can be asked again for free: with the
    cache it returned and in the state it left, the same call, at any
    recursion budget from one up, returns the same tensors and masks,
    rebuilds nothing, and changes neither the cache nor any object. *)
Theorem rebuild_submodel_again
    fuel model_inputs output_layers output_layers_node_indices
    replace_tensors fin input_delete_masks st outputs output_masks fin' st' :
  rebuild_submodel fuel model_inputs output_layers output_layers_node_indices
                   replace_tensors fin input_delete_masks st
  = (inr (outputs, output_masks, fin'), st') →
  ∀ fuel',
    rebuild_submodel (S fuel') model_inputs output_layers output_layers_node_indices
                     replace_tensors fin' input_delete_masks st'
    = (inr (outputs, output_masks, fin'), st').
Proof.
  unfold rebuild_submodel. intros H fuel'.
  apply bind_ok in H as ([results fin1] & st1 & Hacc & H).
  apply bind_ok in H as (u & st2 & Hne & Hret).
  case_decide as Hempty; [done|]. injection Hne as _ <-.
  injection Hret as <- <- <- <-.
  apply visits_settle in Hacc.
  rewrite (bind_step _ _ _ _ _ (settled_revisits fuel' _ _ _ _ _ _ _ Hacc)).
  by rewrite decide_False.
Qed.

End rebuilder_more.

(** *** More on the Mask Propagator *)

Section mask_propagator_more.
Context {scalar : Type}.
Implicit Types (st : state scalar) (l : Layer scalar).

(** X6. A mask never passes silently through an operation the propagator
    has no rule for.  With some mask present and a class other than
    Dense, Flatten and Conv2D, the propagator raises, whatever the number
    of masks: the should-never-get-here error for an input layer, and for
    any other class the unsupported-kind error that names it.  Nothing
    has been changed. *)
Theorem mask_on_unsupported_kind layer (masks : list (option (np.ndarray bool))) st l :
  store st !! layer = Some l →
  (∃ m, Some m ∈ masks) →
  class_name l ∉ ["Dense"; "Flatten"; "Conv2D"] →
  _apply_delete_mask layer masks st
  = (inl (if decide (class_name l = "InputLayer") then MaskOnInputLayer
          else UnsupportedOperationKind (class_name l)), st).
Proof.
  intros Hl Hsome Hcls. unfold _apply_delete_mask.
  rewrite some_mask_not_all_none by done.
  rewrite (bind_step _ _ _ _ _ (get_object_some _ _ _ Hl)).
  rewrite !not_elem_of_cons in Hcls. destruct Hcls as (? & ? & ? & _).
  destruct (decide (class_name l = "InputLayer")); [done|].
  by rewrite !decide_False.
Qed.

Lemma reshape_infer_penultimate_shape {A} (picked w' : np.ndarray A) (sh : list nat) :
  np.reshape_infer_penultimate picked sh = Some w' →
  ∃ lead c c' f,
    sh = lead ++ [c; f] ∧ np.shape w' = lead ++ [c'; f] ∧ np.data w' = np.data picked.
Proof.
  unfold np.reshape_infer_penultimate.
  destruct (reverse sh) as [|f [|c pre]] eqn:Hrev; try done.
  case_decide; [|done]. intros [= <-].
  exists (reverse pre), c, (length (np.data picked) / np.size_of (f :: pre)), f.
  split; [|done].
  rewrite <-(reverse_involutive sh), Hrev, !reverse_cons, <-app_assoc. done.
Qed.

(** What a successful run of the Conv2D branch did. *)
Lemma _apply_delete_mask_conv2d layer masks st l new_layer out st' :
  store st !! layer = Some l →
  class_name l = "Conv2D" →
  (∃ m, Some m ∈ masks) →
  _apply_delete_mask layer masks st = (inr (new_layer, out), st') →
  ∃ m w0 picked w0' sh dims,
    masks = [Some m] ∧
    weights l !! 0 = Some w0 ∧
    np.reshape_infer_penultimate picked (np.shape w0) = Some w0' ∧
    output_shape l = Some sh ∧
    mapM id (tail sh) = Some dims ∧
    out = Some (np.ones dims) ∧
    new_layer = fresh (dom (store st)) ∧
    st' = mkState
            (<[new_layer :=
                 mkLayer "Conv2D"
                   (delete "weights"
                      (<["weights" := CWeights (<[0 := w0']> (weights l))]> (config l)))
                   (<[0 := w0']> (weights l)) []]> (store st))
            (rebuilt st) (copied st) (edited st).
Proof.
  intros Hl Hcls Hsome. unfold _apply_delete_mask.
  rewrite some_mask_not_all_none by done.
  rewrite (bind_step _ _ _ _ _ (get_object_some _ _ _ Hl)).
  rewrite Hcls. rewrite !decide_False by done. rewrite decide_True by done.
  intros H.
  apply bind_ok in H as (sh & st1 & [Hsh ->]%expect_ok & H).
  apply bind_ok in H as (outbound & st1 & Hones & H).
  unfold ones_after_batch in Hones.
  apply bind_ok in Hones as (dims & st2 & [Hdims ->]%expect_ok & Hones).
  injection Hones as <- <-.
  apply bind_ok in H as (k_size & st1 & Hk & H).
  assert (st1 = st) as ->.
  { destruct (config l !! "kernel_size") as [[]|]; by inversion Hk. }
  apply bind_ok in H as (data_format & st1 & Hf & H).
  assert (st1 = st) as ->.
  { destruct (config l !! "data_format") as [[]|]; by inversion Hf. }
  apply bind_ok in H as (m & st1 & [-> ->]%the_mask_ok & H).
  apply bind_ok in H as (m1 & st1 & Hswap & H).
  assert (st1 = st) as ->.
  { destruct (decide (data_format = "channels_first"));
      [by apply expect_ok in Hswap as [_ ->]|by inversion Hswap]. }
  apply bind_ok in H as (m2 & st1 & [_ ->]%expect_ok & H).
  apply bind_ok in H as (w0 & st1 & [Hw0 ->]%expect_ok & H).
  apply bind_ok in H as ([pre f] & st1 & [_ ->]%expect_ok & H).
  apply bind_ok in H as (u & st1 & Hnd & H).
  assert (st1 = st) as ->.
  { destruct (decide (2 ≤ length (np.shape w0))); by inversion Hnd. }
  apply bind_ok in H as (picked & st1 & [_ ->]%expect_ok & H).
  apply bind_ok in H as (w0' & st1 & [Hw0' ->]%expect_ok & H).
  apply bind_ok in H as (nl & st1 & Hnew & H).
  unfold from_config in Hnew. rewrite new_object_run in Hnew.
  injection Hnew as <- <-. injection H as <- <- <-.
  exists m, w0, picked, w0', sh, dims. repeat split; try done.
  by rewrite lookup_insert_eq.
Qed.

(** X7. When the propagator applies a mask to a Conv2D operation and
    returns, the mask it hands on is all true over the operation's output
    shape; the operation it builds has the kernel with only its
    second-to-last axis (the input channels) resized, and every other
    weight tensor, the declared filter count and the rest of the config
    as the original has them; the original is untouched. *)
Theorem conv2d_mask_trims_input_channels_only
    layer masks st l new_layer out st' :
  store st !! layer = Some l →
  class_name l = "Conv2D" →
  (∃ m, Some m ∈ masks) →
  _apply_delete_mask layer masks st = (inr (new_layer, out), st') →
  ∃ l' w0 w0' lead c c' f sh dims,
    store st' !! new_layer = Some l' ∧
    store st' !! layer = Some l ∧
    weights l !! 0 = Some w0 ∧ weights l' !! 0 = Some w0' ∧
    np.shape w0 = lead ++ [c; f] ∧ np.shape w0' = lead ++ [c'; f] ∧
    length (weights l') = length (weights l) ∧
    (∀ i, 0 < i → weights l' !! i = weights l !! i) ∧
    config l' = delete "weights" (config l) ∧
    output_shape l = Some sh ∧ mapM id (tail sh) = Some dims ∧
    out = Some (np.ones dims).
Proof.
  intros Hl Hcls Hsome Hrun.
  destruct (_apply_delete_mask_conv2d _ _ _ _ _ _ _ Hl Hcls Hsome Hrun)
    as (m & w0 & picked & w0' & sh & dims & -> & Hw0 & Hre & Hsh & Hdims & -> & Hnl & ->).
  apply reshape_infer_penultimate_shape in Hre as (lead & c & c' & f & Hs0 & Hs' & _).
  eexists _, w0, w0', lead, c, c', f, sh, dims. cbn [store].
  rewrite lookup_insert_eq. split; [done|]. split.
  { rewrite lookup_insert_ne; [done|]. subst new_layer.
    intros Heq. apply (is_fresh (dom (store st))). rewrite Heq.
    apply elem_of_dom. eauto. }
  cbn [weights config]. repeat split; try done.
  - apply list_lookup_insert_eq. by eapply lookup_lt_Some.
  - apply length_insert.
  - intros i Hi. apply list_lookup_insert_ne. lia.
  - apply delete_insert_eq.
Qed.

Lemma not_all_none_some_mask (masks : list (option (np.ndarray bool))) :
  forallb (λ m : option (np.ndarray bool), bool_decide (m = None)) masks = false →
  ∃ m, Some m ∈ masks.
Proof.
  induction masks as [|[m|] masks IH]; [done| |]; cbn.
  - intros _. exists m. left.
  - intros (m & Hm)%IH. exists m. by right.
Qed.

(** What a returning run of the propagator did to the store. *)
Lemma _apply_delete_mask_store layer masks st new_layer out st' :
  _apply_delete_mask layer masks st = (inr (new_layer, out), st') →
  (new_layer = layer ∧ st' = st) ∨
  (∃ l l', store st !! layer = Some l ∧
           (new_layer ∉ dom (store st)) ∧
           st' = mkState (<[new_layer := l']> (store st)) (rebuilt st) (copied st) (edited st) ∧
           class_name l' = class_name l ∧ inbound_nodes l' = []).
Proof.
  intros Hrun.
  destruct (forallb (λ m : option (np.ndarray bool), bool_decide (m = None)) masks)
    eqn:Hall.
  { unfold _apply_delete_mask in Hrun. rewrite Hall in Hrun.
    injection Hrun as <- _ <-. by left. }
  pose proof (not_all_none_some_mask _ Hall) as Hsome.
  pose proof Hrun as Hrun'. unfold _apply_delete_mask in Hrun'. rewrite Hall in Hrun'.
  apply bind_ok in Hrun' as (l & st1 & Hget & Hrun').
  unfold get_object in Hget. destruct (store st !! layer) as [l0|] eqn:Hl; [|done].
  injection Hget as -> <-.
  case_decide as Hin; [done|]. case_decide as Hd.
  { right.
    destruct (_apply_delete_mask_dense _ _ _ _ _ _ _ Hl Hd Hsome Hrun)
      as (m & w0 & rows & w0' & sh & dims & _ & _ & _ & _ & _ & _ & _ & -> & ->).
    eexists l, _. split; [done|]. split; [apply is_fresh|]. split; [done|].
    by rewrite Hd. }
  case_decide as Hf.
  { left. apply bind_ok in Hrun' as (m & st1 & [_ ->]%the_mask_ok & Hret).
    by injection Hret as <- _ <-. }
  case_decide as Hc; [|done].
  right.
  destruct (_apply_delete_mask_conv2d _ _ _ _ _ _ _ Hl Hc Hsome Hrun)
    as (m & w0 & picked & w0' & sh & dims & _ & _ & _ & _ & _ & _ & -> & ->).
  eexists l, _. split; [done|]. split; [apply is_fresh|]. split; [done|].
  by rewrite Hc.
Qed.

(** X8. The propagator never alters an object.  When it returns, either it
    returns the operation it was given and the state is the one it
    started from, or it has created exactly one object, under a new
    identity: it has the class of the operation and no node yet, and the
    store is otherwise as it was. *)
Theorem mask_propagation_adds_at_most_one_object layer masks st new_layer out st' :
  _apply_delete_mask layer masks st = (inr (new_layer, out), st') →
  (new_layer = layer ∧ st' = st) ∨
  (∃ l l', store st !! layer = Some l ∧
           (new_layer ∉ dom (store st)) ∧
           st' = mkState (<[new_layer := l']> (store st)) (rebuilt st) (copied st) (edited st) ∧
           class_name l' = class_name l ∧ inbound_nodes l' = []).
Proof. apply _apply_delete_mask_store. Qed.

End mask_propagator_more.

(** *** More on channel deletion *)

Section channels_more.
Context {scalar : Type} {K : Keras scalar}.
Implicit Types (st : state scalar) (l : Layer scalar).

Lemma norm_indices_lt (n : nat) (idx : list Z) (dead : list nat) :
  np.norm_indices n idx = Some dead →
  Forall (λ j, j < n) dead ∧ Forall (λ i, i < Z.of_nat n)%Z idx ∧
  length dead = length idx.
Proof.
  unfold np.norm_indices. intros H%mapM_Some.
  induction H as [|i j idx dead Hij _ (IH1 & IH2 & IH3)]; [done|].
  unfold np.norm_index in Hij. cbn [length]. rewrite IH3.
  repeat case_decide; try done; injection Hij as <-;
    (split; [|split; [|done]]); constructor; (done || lia).
Qed.

Lemma length_remove_dups_NoDup {A} `{!EqDecision A} (xs : list A) :
  NoDup xs → length (remove_dups xs) = length xs.
Proof.
  induction 1 as [|x xs Hx _ IH]; [done|]. cbn [remove_dups].
  destruct (decide_rel elem_of x xs); [done|]. cbn [length]. by rewrite IH.
Qed.

Lemma NoDup_below_length (n : nat) (dead : list nat) :
  NoDup dead → Forall (λ j, j < n) dead → length dead ≤ n.
Proof.
  intros Hnd Hall. transitivity (length (seq 0 n)); [|by rewrite length_seq].
  apply submseteq_length, NoDup_submseteq; [done|].
  intros j Hj. rewrite Forall_forall in Hall. apply elem_of_seq.
  specialize (Hall _ Hj). lia.
Qed.

(** [np.delete] along the last axis, indices wrapped as numpy wraps
    them. *)
Lemma np_delete_shape_wrapped {A} (w : np.ndarray A) (pre : list nat) (n : nat)
    (idx : list Z) (dead : list nat) :
  np.shape w = pre ++ [n] →
  np.norm_indices n idx = Some dead →
  ∃ w', np.delete w idx = Some w' ∧
        np.shape w' = pre ++ [n - length (remove_dups dead)].
Proof.
  intros Hsh Hdead. unfold np.delete.
  rewrite Hsh, last_axis_snoc. simpl. rewrite Hdead. simpl.
  eexists. split; [done|]. simpl. do 2 f_equal.
  destruct (norm_indices_lt _ _ _ Hdead) as (Hlt & _ & _).
  pose proof (count_true_keep_mask n _ Hlt). lia.
Qed.

(** [_delete_channel_weights] returns whenever the range check passes and
    numpy accepts the indices on every weight tensor. *)
Lemma _delete_channel_weights_runs layer channel_indices st l channels ws :
  store st !! layer = Some l →
  channel_count l = Some channels →
  Forall (λ i, i < channels)%Z channel_indices →
  mapM (λ w, np.delete w channel_indices) (weights l) = Some ws →
  ∃ l',
    _delete_channel_weights layer channel_indices st
    = (inr (fresh (dom (store st))),
       mkState (<[fresh (dom (store st)) := l']> (store st)) (rebuilt st) (copied st) (edited st)) ∧
    channel_count l' = Some (channels - Z.of_nat (length channel_indices))%Z ∧
    class_name l' = class_name l ∧ weights l' = ws ∧ inbound_nodes l' = [].
Proof.
  intros Hl Hc Hall Hmap.
  unfold _delete_channel_weights.
  rewrite (bind_step _ _ _ _ _ (get_object_some _ _ _ Hl)).
  assert (existsb (λ i, channels <? i + 1)%Z channel_indices = false) as Hex.
  { apply not_true_is_false. intros (i & Hi & Hlt')%existsb_exists.
    rewrite Forall_forall in Hall. apply list_elem_of_In, Hall in Hi.
    apply Z.ltb_lt in Hlt'. lia. }
  unfold channel_count in Hc.
  destruct (config l !! "units") as [v|] eqn:Hu.
  - destruct v; try discriminate. injection Hc as ->.
    rewrite decide_True by eauto.
    unfold bind at 1. unfold ret at 1. rewrite Hu.
    unfold bind at 1. unfold ret at 1. rewrite Hex.
    rewrite (bind_step _ _ _ _ _ (expect_some _ _ _ _ Hmap)).
    unfold from_config. rewrite new_object_run.
    eexists. split; [done|]. unfold channel_count. cbn [config weights class_name].
    rewrite lookup_delete_ne, lookup_insert_ne, !lookup_insert_eq by done.
    done.
  - rewrite decide_False by (by intros [? ?]).
    destruct (config l !! "filters") as [v|] eqn:Hf; [|discriminate].
    destruct v; try discriminate. injection Hc as ->.
    rewrite decide_True by eauto.
    unfold bind at 1. unfold ret at 1. rewrite Hf.
    unfold bind at 1. unfold ret at 1. rewrite Hex.
    rewrite (bind_step _ _ _ _ _ (expect_some _ _ _ _ Hmap)).
    unfold from_config. rewrite new_object_run.
    eexists. split; [done|]. unfold channel_count. cbn [config weights class_name].
    rewrite !lookup_delete_ne, !lookup_insert_ne, Hu by done.
    rewrite ?lookup_insert_eq. done.
Qed.

(** X9. With channel indices that numpy accepts on the channel axis
    (negative ones counting from the end) and that name pairwise distinct
    channels, [_delete_channel_weights] returns an operation that is
    consistent: it is a new object of the same class, never called, the
    last axis of each of its weight tensors has shrunk by the number of
    indices, and the channel count it declares is the length of that
    axis. *)
Theorem delete_channel_weights_distinct_indices
    layer channel_indices st l channels dead :
  store st !! layer = Some l →
  channel_count l = Some channels →
  (0 ≤ channels)%Z →
  np.norm_indices (Z.to_nat channels) channel_indices = Some dead →
  NoDup dead →
  Forall (λ w, ∃ pre, np.shape w = pre ++ [Z.to_nat channels]) (weights l) →
  ∃ new_layer l' st' n',
    _delete_channel_weights layer channel_indices st = (inr new_layer, st') ∧
    (new_layer ∉ dom (store st)) ∧
    store st' = <[new_layer := l']> (store st) ∧
    class_name l' = class_name l ∧ inbound_nodes l' = [] ∧
    channel_count l' = Some (Z.of_nat n') ∧
    n' = Z.to_nat channels - length channel_indices ∧
    length channel_indices ≤ Z.to_nat channels ∧
    Forall2 (λ w w', ∃ pre, np.shape w = pre ++ [Z.to_nat channels] ∧
                            np.shape w' = pre ++ [n'])
            (weights l) (weights l').
Proof.
  intros Hl Hc Hpos Hdead Hnd Hws.
  destruct (norm_indices_lt _ _ _ Hdead) as (Hlt & Hidx & Hlen).
  pose proof (NoDup_below_length _ _ Hnd Hlt) as Hle.
  pose proof (length_remove_dups_NoDup _ Hnd) as Hrd.
  assert (∃ ws, mapM (λ w, np.delete w channel_indices) (weights l) = Some ws ∧
                Forall2 (λ w w', ∃ pre,
                   np.shape w = pre ++ [Z.to_nat channels] ∧
                   np.shape w' = pre ++ [Z.to_nat channels - length channel_indices])
                  (weights l) ws) as (ws & Hmap & Hshapes).
  { clear Hl Hc. induction Hws as [|w ws0 [pre Hw] _ (ws & Hmap & IH)].
    - by exists [].
    - destruct (np_delete_shape_wrapped w pre _ _ _ Hw Hdead) as (w' & Hdel & Hsh).
      exists (w' :: ws). split.
      + apply mapM_Some. constructor; [done|]. by apply mapM_Some.
      + constructor; [|done]. exists pre. split; [done|].
        rewrite Hsh. do 2 f_equal. lia. }
  assert (Forall (λ i, i < channels)%Z channel_indices) as Hall.
  { eapply Forall_impl; [done|]. simpl. lia. }
  destruct (_delete_channel_weights_runs _ _ st _ _ _ Hl Hc Hall Hmap)
    as (l' & Hrun & Hcount & Hcls & Hw' & Hnodes).
  eexists _, l', _, _. split; [done|]. split; [apply is_fresh|].
  split; [done|]. split; [done|]. split; [done|].
  split; [|split; [done|split; [lia|by rewrite Hw']]].
  rewrite Hcount. f_equal. lia.
Qed.

(** X10. [delete_channels] on an operation whose config has neither
    [units] nor [filters] raises the error that says so; nothing is
    built and no object changes. *)
Theorem delete_channels_without_channel_dimension
    fuel model layer channel_indices node_indices copy st l :
  store st !! layer = Some l →
  config l !! "units" = None →
  config l !! "filters" = None →
  delete_channels fuel model layer channel_indices node_indices copy st
  = (inl MissingChannelDimension, st).
Proof.
  intros Hl Hu Hf. unfold delete_channels. apply bind_err.
  unfold _delete_channel_weights.
  rewrite (bind_step _ _ _ _ _ (get_object_some _ _ _ Hl)).
  rewrite Hu, Hf. rewrite !decide_False by (by intros [? ?]). done.
Qed.

Lemma flatnonzero_fmap (f : nat → Prop) `{!∀ x, Decision (f x)} (k n : nat) :
  np.flatnonzero_from k ((λ j, bool_decide (f j)) <$> seq k n) = filter f (seq k n).
Proof.
  revert k. induction n as [|n IH]; intros k; [done|].
  cbn [seq fmap list_fmap np.flatnonzero_from]. rewrite IH, filter_cons.
  destruct (decide (f k)).
  - by rewrite bool_decide_eq_true_2.
  - by rewrite bool_decide_eq_false_2.
Qed.

(** The delete mask of a one-axis output is numpy's keep mask, whichever
    axis the data format points at. *)
Lemma ones_with_false_one_axis (n : nat) (axis0 : bool) (idx : list Z) (dead : list nat) :
  np.norm_indices n idx = Some dead →
  np.ones_with_false [n] axis0 idx = Some (np.array [n] (np.keep_mask n dead)).
Proof.
  intros Hdead. unfold np.ones_with_false.
  change (np.last_axis [n]) with (Some (@nil nat, n)).
  change (np.size_of [n]) with (n * 1). change (np.size_of []) with 1.
  rewrite Nat.mul_1_r.
  destruct axis0; simpl; rewrite Hdead; simpl; do 2 f_equal;
    unfold np.keep_mask; apply list_fmap_ext; intros i j [-> Hj]%lookup_seq.
  - change (Nat.divmod (0 + i) 0 0 0).1 with (i / 1). by rewrite Nat.div_1_r.
  - by rewrite Nat.mod_small.
Qed.

Lemma where0_keep_mask (n : nat) (dead : list nat) :
  np.where0 (np.array [n] (np.keep_mask n dead))
  = Some (filter (λ j, j ∉ dead) (seq 0 n)).
Proof.
  unfold np.where0, np.keep_mask. cbn [np.shape np.data].
  change (np.size_of []) with 1. rewrite flatnonzero_fmap. f_equal.
  induction (filter _ _) as [|i xs IH]; [done|].
  rewrite fmap_cons, IH. by rewrite Nat.div_1_r.
Qed.

(** X11. The mask [_make_delete_mask] builds and the Dense branch of the
    propagator fit together.  For a target with a one-axis output of [n]
    channels and a following Dense operation with an [n] by [m] kernel:
    the mask is built without touching the state, and the propagator,
    given that mask, returns a new Dense operation whose kernel consists
    of the rows of the channels that were not deleted, in their order,
    and has [n] minus the number of distinct deleted channels rows; its
    other weight tensors are those of the Dense operation, and the mask
    handed on is all true. *)
Theorem channel_deletion_trims_next_dense_rows
    layer next channel_indices st l l2 batch n m w0 dead sh dims :
  store st !! layer = Some l →
  output_shape l = Some [batch; Some n] →
  np.norm_indices n channel_indices = Some dead →
  store st !! next = Some l2 →
  class_name l2 = "Dense" →
  weights l2 !! 0 = Some w0 →
  np.shape w0 = [n; m] →
  output_shape l2 = Some sh →
  mapM id (tail sh) = Some dims →
  ∃ mask new_layer l' st',
    _make_delete_mask layer channel_indices st = (inr mask, st) ∧
    _apply_delete_mask next [Some mask] st
    = (inr (new_layer, Some (np.ones dims)), st') ∧
    store st' !! new_layer = Some l' ∧
    weights l' =
      <[0 := np.array [n - length (remove_dups dead); m]
               (flat_map (λ i, np.chunk m i (np.data w0))
                         (filter (λ j, j ∉ dead) (seq 0 n)))]> (weights l2).
Proof.
  intros Hl Hsh Hdead Hl2 Hcls Hw0 Hshape Hsh2 Hdims.
  set (rows := filter (λ j, j ∉ dead) (seq 0 n)).
  assert (np.take_rows w0 rows
          = Some (np.array [n - length (remove_dups dead); m]
                    (flat_map (λ i, np.chunk m i (np.data w0)) rows))) as Htake.
  { unfold np.take_rows. rewrite Hshape.
    assert (forallb (λ i, i <? n) rows = true) as ->.
    { apply forallb_forall. intros i Hi%list_elem_of_In.
      apply list_elem_of_filter in Hi as [_ Hi]. apply elem_of_seq in Hi.
      apply Nat.ltb_lt. lia. }
    change (np.size_of [m]) with (m * 1). rewrite Nat.mul_1_r.
    do 3 f_equal.
    destruct (norm_indices_lt _ _ _ Hdead) as (Hlt & _ & _).
    pose proof (count_true_keep_mask n _ Hlt) as Hcount.
    unfold np.keep_mask in Hcount. rewrite count_true_fmap in Hcount.
    fold rows in Hcount. lia. }
  exists (np.array [n] (np.keep_mask n dead)).
  assert (_make_delete_mask layer channel_indices st
          = (inr (np.array [n] (np.keep_mask n dead)), st)) as Hmask.
  { unfold _make_delete_mask.
    rewrite (bind_step _ _ _ _ _ (get_object_some _ _ _ Hl)).
    rewrite (bind_step _ _ _ _ _ (expect_some _ _ _ _ Hsh)).
    change (mapM id (tail [batch; Some n])) with (Some [n]).
    rewrite (bind_step _ _ _ _ _ (expect_some _ _ _ _ eq_refl)).
    apply expect_some. by apply ones_with_false_one_axis. }
  destruct (_apply_delete_mask_dense_runs next _ st _ _ _ _ _ _
              Hl2 Hcls Hw0 (where0_keep_mask n dead) Htake Hsh2 Hdims)
    as (st' & Hrun).
  assert (∃ m0, Some m0 ∈ [Some (np.array [n] (np.keep_mask n dead))]) as Hsome.
  { eexists. left. }
  destruct (_apply_delete_mask_dense _ _ _ _ _ _ _ Hl2 Hcls Hsome Hrun)
    as (m' & w1 & rows' & w1' & sh' & dims' & [= <-] & Hw1 & Hrows' & Hw1' & _ & _ & _
        & _ & ->).
  rewrite Hw0 in Hw1. injection Hw1 as <-.
  rewrite where0_keep_mask in Hrows'. injection Hrows' as <-.
  fold rows in Hw1'. rewrite Htake in Hw1'. injection Hw1' as <-.
  eexists _, _, _. split; [done|]. split; [done|].
  cbn [store]. rewrite lookup_insert_eq. done.
Qed.

End channels_more.

(** *** The edits' callbacks and the rebuilder together *)

Section callbacks.
Context {scalar : Type} {K : Keras scalar}.
#[local] Existing Instance same_copies_preorder.
Implicit Types (st : state scalar) (l : Layer scalar).

(** What a returning layer call did: one node more on the called
    operation, fed by the given tensors, and its output tensor returned. *)
Lemma call_layer_ok layer ins st t st' :
  call_layer layer ins st = (inr t, st') →
  ∃ l in_shapes out,
    store st !! layer = Some l ∧
    t = (layer, length (inbound_nodes l)) ∧
    st' = mkState
            (<[layer := called l in_shapes (mkNode (fst <$> ins) (snd <$> ins) out)]>
               (store st))
            (rebuilt st) (copied st) (edited st).
Proof.
  unfold call_layer. intros H.
  apply bind_ok in H as (l & st1 & Hget & H).
  unfold get_object in Hget. destruct (store st !! layer) as [l0|] eqn:Hl; [|done].
  injection Hget as -> <-.
  apply bind_ok in H as (shapes & st1 & Hshapes & H).
  assert (st1 = st) as ->.
  { eapply (runs_for_each same_state _ any_error) in Hshapes as [Heq _]; [done|].
    intros a. unfold inbound_node. repeat runs_step. }
  apply bind_ok in H as (out & st1 & [_ ->]%expect_ok & H).
  unfold append_node in H. rewrite Hl in H. injection H as <- <-. eauto 10.
Qed.

Lemma call_layer_edges layer ins st t st' :
  call_layer layer ins st = (inr t, st') →
  fst t = layer ∧ edges_of (store st) t = None ∧ edges_of (store st') t = Some ins ∧
  extends st st'.
Proof.
  intros (l & in_shapes & out & Hl & -> & ->)%call_layer_ok. split; [done|].
  unfold edges_of. cbn [fst snd store]. rewrite Hl, lookup_insert_eq. simpl.
  split; [|split].
  - by rewrite lookup_ge_None_2.
  - rewrite lookup_app_r, Nat.sub_diag by done. simpl. by rewrite zip_fst_snd.
  - by apply extends_append_node.
Qed.

(** A visit of a substituted node in a state that holds the node. *)
Lemma visit_substituted fuel model_inputs replace_tensors
    (masks : list (option (np.ndarray bool))) layer node_index fin st v :
  is_Some (edges_of (store st) (layer, node_index)) →
  replace_tensors !! (layer, node_index) = Some v →
  _rebuild_rec (S fuel) model_inputs replace_tensors masks (layer, node_index) fin st
  = (inr (v, fin), st).
Proof.
  intros [es Hes] Hsub. unfold edges_of in Hes. cbn [fst snd] in Hes.
  destruct (store st !! layer) as [l|] eqn:Hl; [|done]. simpl in Hes.
  destruct (inbound_nodes l !! node_index) as [node|] eqn:Hn; [|done].
  cbn [_rebuild_rec].
  rewrite (bind_step _ _ _ _ _ (inbound_node_some _ _ _ _ _ Hl Hn)).
  rewrite (bind_step _ _ _ _ _ (get_output_at_some _ _ _ _ _ Hl Hn)).
  by rewrite Hsub.
Qed.

Lemma get_output_at_edges layer node_index st t st' :
  get_output_at layer node_index st = (inr t, st') →
  st' = st ∧ t = (layer, node_index) ∧ is_Some (edges_of (store st) (layer, node_index)).
Proof.
  intros (-> & -> & l & node & Hl & Hn)%get_output_at_ok. split; [done|]. split; [done|].
  unfold edges_of. cbn [fst snd]. rewrite Hl. simpl. rewrite Hn. simpl. eauto.
Qed.

(** X12. The callback of [delete_layer], given the one rebuilt input of
    a node, changes nothing; and a rebuild visit of the deleted node
    under the substitution map it returned (merged over any earlier one)
    yields that input with an absent mask: consumers of the deleted node
    are wired to its rebuilt input, and the deleted operation is not
    called. *)
Theorem deleted_node_rebuilds_to_its_input
    this_layer node_index t st sub st'
    fuel model_inputs replace_tensors (masks : list (option (np.ndarray bool))) fin :
  _delete_layer this_layer node_index [t] st = (inr sub, st') →
  st' = st ∧
  _rebuild_rec (S fuel) model_inputs (sub ∪ replace_tensors) masks
               (this_layer, node_index) fin st'
  = (inr ((t, None), fin), st').
Proof.
  unfold _delete_layer. case_decide as Hlen; [done|].
  cbn [extract_if_single_element].
  intros H. apply bind_ok in H as (out & st1 & Hout & Hret).
  apply get_output_at_edges in Hout as (-> & -> & Hes). injection Hret as <- <-.
  split; [done|].
  apply visit_substituted; [done|].
  apply lookup_union_Some_l, lookup_singleton_eq.
Qed.

(** X13. After the callback of [replace_layer], or the one of
    [delete_channels], has returned for a node, the new operation has
    been called on the rebuilt inputs: it has one node more, fed by
    exactly those tensors, and nothing else has changed.  A rebuild visit
    of the replaced node under the returned substitution map yields the
    output of that new node, with an absent mask after [replace_layer]
    and with the delete mask after [delete_channels]. *)
Theorem replaced_node_rebuilds_to_new_output
    new_layer new_delete_mask this_layer node_index ins st sub st'
    fuel model_inputs replace_tensors (masks : list (option (np.ndarray bool))) fin :
  (_replace_layer new_layer this_layer node_index ins st = (inr sub, st') ∧
   new_delete_mask = None) ∨
  (∃ m, _delete_inbound_weights new_layer m this_layer node_index ins st
        = (inr sub, st') ∧ new_delete_mask = Some m) →
  ∃ new_output,
    call_layer new_layer ins st = (inr new_output, st') ∧
    fst new_output = new_layer ∧
    edges_of (store st) new_output = None ∧
    edges_of (store st') new_output = Some ins ∧
    _rebuild_rec (S fuel) model_inputs (sub ∪ replace_tensors) masks
                 (this_layer, node_index) fin st'
    = (inr ((new_output, new_delete_mask), fin), st').
Proof.
  intros [[H ->]|(m & H & ->)];
    [unfold _replace_layer in H|unfold _delete_inbound_weights in H];
    apply bind_ok in H as (new_output & st1 & Hcall & H);
    apply bind_ok in H as (out & st2 & Hout & Hret);
    apply get_output_at_edges in Hout as (-> & -> & Hes); injection Hret as <- <-;
    destruct (call_layer_edges _ _ _ _ _ Hcall) as (Hfst & Hnew & Hedges & _);
    exists new_output; (split; [done|]); (split; [done|]); (split; [done|]);
    (split; [done|]);
    (apply visit_substituted; [done|]);
    apply lookup_union_Some_l, lookup_singleton_eq.
Qed.

(** X14. After the callback of [insert_layer] has returned for a node,
    the new operation has one node more, fed by the rebuilt input, and
    the substitution map redirects the tensor of the node's first
    inbound edge: a rebuild visit of the producer of that tensor yields
    the output of the new node with an absent mask, whichever consumer
    of the producer the visit is made for. *)
Theorem inserted_layer_takes_over_producer
    new_layer this_layer node_index ins st sub st'
    fuel model_inputs replace_tensors (masks : list (option (np.ndarray bool))) fin :
  _insert_layer new_layer this_layer node_index ins st = (inr sub, st') →
  ∃ new_output producer rest,
    length ins ≤ 1 ∧
    call_layer new_layer ins st = (inr new_output, st') ∧
    fst new_output = new_layer ∧
    edges_of (store st) new_output = None ∧
    edges_of (store st') new_output = Some ins ∧
    edges_of (store st') (this_layer, node_index) = Some (producer :: rest) ∧
    _rebuild_rec (S fuel) model_inputs (sub ∪ replace_tensors) masks producer fin st'
    = (inr ((new_output, None), fin), st').
Proof.
  unfold _insert_layer. case_decide as Hlen; [done|]. intros H.
  apply bind_ok in H as (new_output & st1 & Hcall & H).
  apply bind_ok in H as (node & st2 & Hnode & H).
  apply inbound_node_ok in Hnode as (-> & l & Hl & Hn).
  apply bind_ok in H as (l0 & st2 & [Hl0 ->]%expect_ok & H).
  apply bind_ok in H as (i0 & st2 & [Hi0 ->]%expect_ok & H).
  apply bind_ok in H as (out & st2 & Hout & Hret).
  apply get_output_at_edges in Hout as (-> & -> & Hes). injection Hret as <- <-.
  destruct (call_layer_edges _ _ _ _ _ Hcall) as (Hfst & Hnew & Hedges & _).
  destruct (inbound_layers node) as [|l0' ls] eqn:Hls; [done|].
  destruct (node_indices node) as [|i0' ixs] eqn:His; [done|].
  injection Hl0 as ->. injection Hi0 as ->.
  exists new_output, (l0, i0), (zip ls ixs).
  split; [lia|]. split; [done|]. split; [done|]. split; [done|]. split; [done|].
  split.
  { unfold edges_of. cbn [fst snd]. rewrite Hl. simpl. rewrite Hn. simpl.
    by rewrite Hls, His. }
  apply visit_substituted; [done|].
  apply lookup_union_Some_l, lookup_singleton_eq.
Qed.

Lemma clean_copy_run model st model' st' :
  clean_copy model st = (inr model', st') →
  copy_model model (store st) = Some (model', store st') ∧
  copied st' = copied st ++ [model].
Proof.
  unfold clean_copy. destruct (copy_model _ _) as [[m s]|]; [|done].
  by intros [= <- <-].
Qed.

Lemma new_model_run ins outs st model st' :
  new_model ins outs st = (inr model, st') →
  build_model ins outs (store st) = Some model ∧ st' = st.
Proof.
  unfold new_model. destruct (build_model _ _ _) as [m|]; [|done].
  by intros [= <- <-].
Qed.

(** With a copy flag that is true, an edit that returns has copied the
    model it was given before anything else, has built the new model on
    the inputs of that copy, and returns the copy of the model it
    built. *)
Lemma reused_core_logic_copies_built
    fuel model layer modifier_function node_indices copy masks st result st' :
  truthy copy = true →
  (∀ this i ins, no_copy (modifier_function this i ins)) →
  reused_core_logic fuel model layer modifier_function node_indices copy masks st
  = (inr result, st') →
  ∃ model' s0 s1 new_outputs new s2,
    copy_model model s0 = Some (model', s1) ∧
    build_model (inputs model') new_outputs s2 = Some new ∧
    copy_model new s2 = Some (result, store st') ∧
    copied st' = copied st ++ [model; new].
Proof.
  intros Hcopy Hmod. unfold reused_core_logic. rewrite Hcopy.
  case_bool_decide as Hin; [|done]. intros H.
  apply bind_ok in H as (ns & st1 & Hns & H).
  apply no_copy_default_indices in Hns as [Hc1 _].
  apply bind_ok in H as ([model' layer'] & st2 & Hcp & H).
  apply bind_ok in Hcp as (model'' & st1' & Hclean & Hcp).
  apply clean_copy_run in Hclean as [Hcopy1 Hclean].
  assert (model'' = model') as ->.
  { apply bind_ok in Hcp as (l & sa & _ & Hcp).
    apply bind_ok in Hcp as (name & sb & _ & Hcp).
    apply bind_ok in Hcp as (layer'' & sc & _ & Hret). by injection Hret as -> _ _. }
  apply no_copy_layer_of_copy in Hcp as [Hc2 _].
  apply bind_ok in H as (order & st3 & Hord & H).
  apply no_copy_sorted_indices in Hord as [Hc3 _].
  apply bind_ok in H as ([us [replace_tensors fin]] & st4 & Hloop & H).
  eapply (runs_for_each_acc same_copies _ any_error) in Hloop as [Hc4 _];
    [|intros ??; by apply no_copy_edit_node].
  apply bind_ok in H as ([[new_outputs ms] fin'] & st5 & Hreb & H).
  apply no_copy_rebuild_submodel in Hreb as [Hc5 _].
  apply bind_ok in H as (new & st6 & Hnew & H).
  apply new_model_run in Hnew as [Hbuild ->].
  apply clean_copy_run in H as [Hcopy2 H].
  exists model', (store st1), (store st1'), new_outputs, new, (store st5).
  split; [done|]. split; [done|]. split; [done|].
  unfold same_copies in *.
  rewrite H, Hc5, Hc4, Hc3, Hc2, Hclean, Hc1. by rewrite <-app_assoc.
Qed.

(** X15. Whether an edit isolates its argument is decided by the copy
    flag alone.  A call of any of the four edits that is given the flag
    and returns has, when the flag is true, handed two models to
    [clean_copy] and no other: first the given model, then the model it
    built on the inputs of that first copy; and what it returns is the
    copy of the model it built.  When the flag is false or [None] it has
    handed nothing to [clean_copy]. *)
Theorem edits_copy_exactly_when_flag_true
    fuel model layer new_layer channel_indices node_indices (c : option bool)
    st result st' :
  insert_layer fuel model layer new_layer node_indices (Passed c) st = (inr result, st') ∨
  replace_layer fuel model layer new_layer node_indices (Passed c) st = (inr result, st') ∨
  delete_layer fuel model layer node_indices (Passed c) st = (inr result, st') ∨
  delete_channels fuel model layer channel_indices node_indices (Passed c) st
  = (inr result, st') →
  if truthy c
  then ∃ model' s0 s1 new_outputs new s2,
         copy_model model s0 = Some (model', s1) ∧
         build_model (inputs model') new_outputs s2 = Some new ∧
         copy_model new s2 = Some (result, store st') ∧
         copied st' = copied st ++ [model; new]
  else copied st' = copied st.
Proof.
  destruct (truthy c) eqn:Hc.
  - unfold insert_layer, replace_layer, delete_layer, delete_channels.
    cbn [with_default].
    intros [H|[H|[H|H]]].
    + eapply reused_core_logic_copies_built; [done| |exact H].
      apply no_copy__insert_layer.
    + eapply reused_core_logic_copies_built; [done| |exact H].
      apply no_copy__replace_layer.
    + eapply reused_core_logic_copies_built; [done| |exact H].
      apply no_copy__delete_layer.
    + apply bind_ok in H as (nl & st1 & Hw & H).
      apply _delete_channel_weights_ok in Hw as (_ & l' & _ & _ & Hc1).
      apply bind_ok in H as (m & st2 & Hm & H).
      apply _make_delete_mask_run in Hm as [<- _].
      apply bind_ok in H as (ms & st2 & Hms & H).
      apply input_masks_run in Hms as [<- _].
      rewrite <-Hc1. eapply reused_core_logic_copies_built; [done| |exact H].
      apply no_copy__delete_inbound_weights.
  - unfold insert_layer, replace_layer, delete_layer. cbn [with_default].
    intros [H|[H|[H|H]]].
    + eapply no_copy_reused_core_logic in H as [H _]; [done..|].
      apply no_copy__insert_layer.
    + eapply no_copy_reused_core_logic in H as [H _]; [done..|].
      apply no_copy__replace_layer.
    + eapply no_copy_reused_core_logic in H as [H _]; [done..|].
      apply no_copy__delete_layer.
    + by eapply (no_copy_delete_channels _ _ _ _ _ (Passed c)) in H as [H _].
Qed.

End callbacks.

(** *** The rebuilt graph mirrors the wiring of the original *)

Section rebuilder_wiring.
Context {scalar : Type} {K : Keras scalar}.
#[local] Existing Instance extends_preorder.
#[local] Existing Instance kept_preorder.
Implicit Types (st : state scalar) (l : Layer scalar).
Implicit Types (fin : gmap (nat * nat) ((nat * nat) * option (np.ndarray bool))).
Implicit Types (replace_tensors : gmap (nat * nat) ((nat * nat) * option (np.ndarray bool))).

Lemma kept_extends st st' : kept st st' → extends st st'.
Proof.
  intros H layer l Hl. destruct (H _ _ Hl) as (l' & ? & _ & _ & _ & ?). eauto.
Qed.

Lemma _rebuild_rec_kept fuel model_inputs replace_tensors masks ln fin st r st' :
  _rebuild_rec fuel model_inputs replace_tensors masks ln fin st = (r, st') →
  kept st st'.
Proof.
  intros Hrun.
  eapply (runs__rebuild_rec kept any_error); try done.
  - apply kept_append_node.
  - apply kept_new_object.
  - intros st0 node layer l Hl. exists l. eauto.
Qed.

Lemma visits_kept fuel model_inputs replace_tensors masks ys fin st r st' :
  for_each_acc (_rebuild_rec fuel model_inputs replace_tensors masks) ys fin st = (r, st') →
  kept st st'.
Proof.
  intros H.
  assert (runs kept any_error
            (for_each_acc (_rebuild_rec fuel model_inputs replace_tensors masks) ys fin))
    as Hr.
  { apply runs_for_each_acc; [apply _|].
    intros a c r0 s0 s1 Hr. split; [|done]. by eapply _rebuild_rec_kept. }
  by destruct (Hr _ _ _ H).
Qed.

Lemma compute_step_kept layer masks new_layer out ins output st st2 st' :
  _apply_delete_mask layer masks st = (inr (new_layer, out), st2) →
  call_layer new_layer ins st2 = (inr output, st') →
  kept st st2 ∧ kept st2 st'.
Proof.
  intros Hmask Hcall. split.
  - eapply (runs__apply_delete_mask kept any_error); try done.
    apply kept_new_object.
  - eapply (runs_call_layer kept any_error); try done.
    apply kept_append_node.
Qed.

Lemma edges_of_none_back st st' n :
  extends st st' → edges_of (store st') n = None → edges_of (store st) n = None.
Proof.
  intros Hext Hnone. destruct (edges_of (store st) n) as [es|] eqn:Hes; [|done].
  by rewrite (extends_edges _ _ _ _ Hext Hes) in Hnone.
Qed.

Lemma grows_by_cache_grows model_inputs replace_tensors new fin st fin' st' :
  grows_by model_inputs replace_tensors new fin st fin' st' →
  cache_grows model_inputs fin fin'.
Proof.
  intros (Hsub & _ & _ & Hin & Hfacts). split; [done|].
  intros k Hnone Hsome. assert (k ∈ new) as Hk by (by apply Hin).
  by destruct (Hfacts _ Hk) as (_ & ? & _).
Qed.

Lemma settled_mono model_inputs replace_tensors masks x res fin st fin' st' :
  settled model_inputs replace_tensors masks x res fin st →
  cache_grows model_inputs fin fin' →
  extends st st' →
  settled model_inputs replace_tensors masks x res fin' st'.
Proof.
  intros [[es Hes] Hwhy] [Hsub Hnew] Hext. split.
  { exists es. by eapply extends_edges. }
  destruct Hwhy as [Hrep|[[Hrep Hc]|(Hrep & Hc & k & m & Hidx & Hm & ->)]].
  - by left.
  - right. left. split; [done|]. by eapply lookup_weaken.
  - right. right. split; [done|]. split; [|eauto].
    destruct (fin' !! x) as [v|] eqn:Hv; [|done].
    assert (index_of x model_inputs = None) as Habs by (apply Hnew; eauto).
    congruence.
Qed.

Lemma wired_mono model_inputs replace_tensors masks st0 fin st fin' st' n out :
  wired model_inputs replace_tensors masks st0 fin st n out →
  cache_grows model_inputs fin fin' →
  kept st st' →
  wired model_inputs replace_tensors masks st0 fin' st' n out.
Proof.
  intros (es & results & l & l' & Hes & Hnew & Hout & Hall & Hl & Hl' & Hcls) Hg Hk.
  pose proof (kept_extends _ _ Hk) as Hext.
  destruct (Hk _ _ Hl) as (l1 & Hl1 & Hc1 & _).
  destruct (Hk _ _ Hl') as (l1' & Hl1' & Hc1' & _).
  exists es, results, l1, l1'.
  split; [by eapply extends_edges|]. split; [done|].
  split; [by eapply extends_edges|]. split.
  { eapply Forall2_impl; [exact Hall|]. intros y res Hy.
    eapply settled_mono; [exact Hy|exact Hg|exact Hext]. }
  split; [done|]. split; [done|]. congruence.
Qed.

Lemma wired_start model_inputs replace_tensors masks st0 st1 fin st n out :
  wired model_inputs replace_tensors masks st1 fin st n out →
  extends st0 st1 →
  wired model_inputs replace_tensors masks st0 fin st n out.
Proof.
  intros (es & results & l & l' & Hes & Hnew & Hrest) Hext.
  exists es, results, l, l'. split; [done|]. split; [|done].
  by eapply edges_of_none_back.
Qed.

Lemma visits_wire fuel model_inputs replace_tensors masks ys fin st results fin' st' :
  (∀ x fin st res fin' st',
     _rebuild_rec fuel model_inputs replace_tensors masks x fin st
     = (inr (res, fin'), st') →
     ∀ n v, fin !! n = None → fin' !! n = Some v →
            wired model_inputs replace_tensors masks st fin' st' n (fst v)) →
  for_each_acc (_rebuild_rec fuel model_inputs replace_tensors masks) ys fin st
  = (inr (results, fin'), st') →
  ∀ n v, fin !! n = None → fin' !! n = Some v →
         wired model_inputs replace_tensors masks st fin' st' n (fst v).
Proof.
  intros Hfuel. revert fin st results fin' st'.
  induction ys as [|y ys IH]; intros fin st results fin' st' Hrun n v Hnone Hsome.
  - injection Hrun as <- <- <-. congruence.
  - cbn [for_each_acc] in Hrun.
    apply bind_ok in Hrun as ([res fin1] & st1 & Hy & Hrun).
    apply bind_ok in Hrun as ([results' fin2] & st2 & Hys & Hret).
    injection Hret as <- <- <-.
    destruct (fin1 !! n) as [v1|] eqn:H1.
    + destruct (visits_spec _ _ _ _ _ _ _ _ _ _ (visit_spec_all _ _ _ _) Hys)
        as (new & Hg & _).
      assert (v = v1) as ->.
      { destruct Hg as (Hsub & _). pose proof (lookup_weaken _ _ _ _ H1 Hsub). congruence. }
      eapply wired_mono.
      * by eapply Hfuel.
      * by eapply grows_by_cache_grows.
      * by eapply visits_kept.
    + eapply wired_start; [by eapply IH|]. by eapply _rebuild_rec_extends.
Qed.

Lemma visit_wires fuel model_inputs replace_tensors masks x fin st res fin' st' :
  _rebuild_rec fuel model_inputs replace_tensors masks x fin st = (inr (res, fin'), st') →
  ∀ n v, fin !! n = None → fin' !! n = Some v →
         wired model_inputs replace_tensors masks st fin' st' n (fst v).
Proof.
  revert x fin st res fin' st'.
  induction fuel as [|fuel IH]; intros [layer node_index] fin st res fin' st' Hrun
    n v Hnone Hsome.
  { done. }
  apply _rebuild_rec_ok in Hrun
    as (l & node & Hl & Hn &
        [(Hsub & -> & ->) | [(Hsub & Hfin & -> & ->) |
         [(Hsub & Hfin & (k & m & Hin & _) & -> & ->) |
          (Hsub & Hfin & Hin & results & fin1 & st1 & st2 & new_layer &
           Hacc & _ & Hmask & Hcall & ->)]]]); [congruence..|].
  assert (edges_of (store st) (layer, node_index)
          = Some (zip (inbound_layers node) (node_indices node))) as Hx.
  { unfold edges_of. simpl. rewrite Hl. simpl. by rewrite Hn. }
  assert (fin1 !! (layer, node_index) = None) as Hfin1.
  { edestruct (visits_keep_blocked fuel model_inputs replace_tensors masks
                 (λ _, False) (layer, node_index)) as [_ Hnone'];
      [apply visit_keeps_blocked_all| | | |exact Hx|exact Hacc|].
    - intros y Hy. exact Hy.
    - intros s [[]| ->]. done.
    - intros s [].
    - apply Hnone'. by right. }
  pose proof (visits_kept _ _ _ _ _ _ _ _ _ Hacc) as Hk01.
  destruct (compute_step_kept _ _ _ _ _ _ _ _ _ Hmask Hcall) as [HkN2 Hk2'].
  assert (kept st1 st2) as Hk12.
  { etrans; [|exact HkN2]. intros layer0 l0 Hl0. exists l0. eauto. }
  assert (kept st1 st') as Hk1' by (by etrans).
  assert (cache_grows model_inputs fin1 (<[(layer, node_index) := res]> fin1)) as Hg.
  { split; [by apply insert_subseteq|]. intros k Hk1 Hk2.
    destruct (decide (k = (layer, node_index))) as [->|Hne]; [done|].
    rewrite lookup_insert_ne in Hk2 by done. rewrite Hk1 in Hk2. by destruct Hk2. }
  destruct (decide (n = (layer, node_index))) as [->|Hne].
  - rewrite lookup_insert_eq in Hsome. injection Hsome as <-.
    destruct (call_layer_edges _ _ _ _ _ Hcall) as (Hfst & Hnew & Hedges & _).
    destruct (Hk01 _ _ Hl) as (l1 & Hl1 & Hc1 & _).
    destruct (_apply_delete_mask_store _ _ _ _ _ _ Hmask)
      as [[-> ->]|(lN & l2 & HlN & _ & -> & Hc2 & _)].
    + destruct (Hk2' layer l1) as (l3 & Hl3 & Hc3 & _); [done|].
      exists (zip (inbound_layers node) (node_indices node)), results, l3, l3.
      split.
      { eapply extends_edges; [|exact Hx]. apply kept_extends. by etrans. }
      split.
      { eapply edges_of_none_back; [|exact Hnew].
        trans st1; [by apply kept_extends|]. intros layer0 l0 Hl0. eauto. }
      split; [done|]. split.
      { eapply Forall2_impl; [by eapply visits_settle|].
        intros y r Hy. eapply settled_mono; [exact Hy|exact Hg|by apply kept_extends]. }
      split; [done|]. split; [by rewrite Hfst|done].
    + cbn [store] in HlN. rewrite Hl1 in HlN. injection HlN as <-.
      destruct (Hk2' new_layer l2) as (l3 & Hl3 & Hc3 & _).
      { cbn [store]. apply lookup_insert_eq. }
      destruct (Hk1' _ _ Hl1) as (l4 & Hl4 & Hc4 & _).
      exists (zip (inbound_layers node) (node_indices node)), results, l4, l3.
      split.
      { eapply extends_edges; [|exact Hx]. apply kept_extends. by etrans. }
      split.
      { eapply edges_of_none_back; [|exact Hnew]. apply kept_extends. by etrans. }
      split; [done|]. split.
      { eapply Forall2_impl; [by eapply visits_settle|].
        intros y r Hy. eapply settled_mono; [exact Hy|exact Hg|by apply kept_extends]. }
      split; [done|]. split; [by rewrite Hfst|congruence].
  - rewrite lookup_insert_ne in Hsome by done.
    eapply wired_mono; [|exact Hg|exact Hk1'].
    eapply visits_wire; [exact IH|exact Hacc|done..].
Qed.

(** X16. What a rebuild adds to the cache mirrors the wiring of the
    original graph.  For every node instance that the cache has gained
    in a run of [rebuild_submodel]: the tensor cached for it is the
    output of a node that did not exist before the run; that node is on
    an operation of the same class as the node instance's own (the
    operation itself or what the Mask Propagator made of it); and its
    inbound tensors are, edge by edge and in order, what a visit of the
    inbound edges of the node instance returns: the substitute, the
    cached tensor, or the graph input. *)
Theorem rebuilt_nodes_mirror_the_wiring
    fuel model_inputs output_layers output_layers_node_indices
    replace_tensors fin input_delete_masks st outputs output_masks fin' st' :
  rebuild_submodel fuel model_inputs output_layers output_layers_node_indices
                   replace_tensors fin input_delete_masks st
  = (inr (outputs, output_masks, fin'), st') →
  ∀ n out mask,
    fin !! n = None → fin' !! n = Some (out, mask) →
    ∃ es results l l',
      edges_of (store st') n = Some es ∧
      edges_of (store st) out = None ∧
      edges_of (store st') out = Some (fst <$> results) ∧
      Forall2 (λ y res,
                 _rebuild_rec 1 model_inputs replace_tensors
                   (match input_delete_masks with
                    | None | Some [] => replicate (length model_inputs) None
                    | Some ms => ms
                    end) y fin' st'
                 = (inr (res, fin'), st'))
              es results ∧
      store st' !! fst n = Some l ∧ store st' !! fst out = Some l' ∧
      class_name l' = class_name l.
Proof.
  unfold rebuild_submodel. intros H n out mask Hnone Hsome.
  apply bind_ok in H as ([results fin1] & st1 & Hacc & H).
  apply bind_ok in H as (u & st2 & Hne & H).
  destruct (decide (results = [])); [done|].
  injection Hne as _ <-. injection H as _ _ <- <-.
  destruct (visits_wire _ _ _ _ _ _ _ _ _ _
              (visit_wires _ _ _ _) Hacc n (out, mask) Hnone Hsome)
    as (es & res & l & l' & Hes & Hnew & Hout & Hall & Hl & Hl' & Hcls).
  exists es, res, l, l'. repeat split; try done.
  eapply Forall2_impl; [exact Hall|].
  intros y r Hy. by apply settled_revisit.
Qed.

End rebuilder_wiring.

(** *** The further properties on the example graphs *)

(** X1 on the chain: [dense_1] replaced in place by the spare layer,
    which this call builds. *)
Lemma edits_keep_existing_objects_witness :
  ∃ r st',
    replace_layer (K:=toy_keras) 10 chain_model 1 3 None (Passed (Some false))
                  chain_spare_state
    = (r, st') ∧
    kept chain_spare_state st'.
Proof.
  eassert (replace_layer (K:=toy_keras) 10 chain_model 1 3 None (Passed (Some false))
             chain_spare_state = (inr _, _)) as Hrun.
  { vm_compute. reflexivity. }
  eexists _, _. split; [exact Hrun|].
  eapply (edits_keep_existing_objects (K:=toy_keras) 10 chain_model 1 3 [] None
           (Passed (Some false)) chain_spare_state _ _).
  - intros model s model' s' [= _ <-]. reflexivity.
  - right. left. exact Hrun.
Defined.

(** On the chain: the replaced [dense_1] and [dense_2] keep their
    weights, and the spare layer, which had none, was built by its first
    call. *)
Example replace_on_chain_builds_the_spare :
  (λ r, (weights <$> (store (snd r) !! 1), weights <$> (store (snd r) !! 2),
         np.shape <$> default [] (weights <$> (store (snd r) !! 3))))
    (replace_layer (K:=toy_keras) 10 chain_model 1 3 None (Passed (Some false))
                   chain_spare_state)
  = (Some (weights chain_dense_1), Some (weights chain_dense_2), [[4; 3]; [3]]).
Proof. vm_compute. reflexivity. Qed.

(** X2 on the diamond, rebuilt up to its two heads. *)
Lemma rebuild_without_masks_creates_no_object_witness :
  ∃ outputs output_masks fin' st',
    rebuild_submodel (K:=toy_keras) 10 [(0, 0)] [2; 3] [0; 0] ∅ ∅ None diamond_state
    = (inr (outputs, output_masks, fin'), st') ∧
    Forall (λ m, m = None) output_masks ∧
    masks_absent fin' ∧
    dom (store st') = dom (store diamond_state).
Proof.
  eassert (rebuild_submodel (K:=toy_keras) 10 [(0, 0)] [2; 3] [0; 0] ∅ ∅ None diamond_state
           = (inr (_, _, _), _)) as Hrun.
  { vm_compute. reflexivity. }
  eexists _, _, _, _. split; [exact Hrun|].
  eapply (rebuild_without_masks_creates_no_object (K:=toy_keras)
           10 [(0, 0)] [2; 3] [0; 0] ∅ ∅ diamond_state _ _ _ _).
  - intros k v Hk. rewrite lookup_empty in Hk. discriminate.
  - intros k v Hk. rewrite lookup_empty in Hk. discriminate.
  - exact Hrun.
Defined.

(** X3 on the diamond: the second call, with a budget of one. *)
Lemma rebuild_submodel_again_witness :
  ∃ outputs output_masks fin' st',
    rebuild_submodel (K:=toy_keras) 10 [(0, 0)] [2; 3] [0; 0] ∅ ∅ None diamond_state
    = (inr (outputs, output_masks, fin'), st') ∧
    rebuild_submodel (K:=toy_keras) 1 [(0, 0)] [2; 3] [0; 0] ∅ fin' None st'
    = (inr (outputs, output_masks, fin'), st').
Proof.
  eassert (rebuild_submodel (K:=toy_keras) 10 [(0, 0)] [2; 3] [0; 0] ∅ ∅ None diamond_state
           = (inr (_, _, _), _)) as Hrun.
  { vm_compute. reflexivity. }
  eexists _, _, _, _. split; [exact Hrun|].
  exact (rebuild_submodel_again (K:=toy_keras) _ _ _ _ _ _ _ _ _ _ _ _ Hrun 0).
Defined.

(** X5 on the chain, rebuilt without naming its input as the graph input. *)
Lemma rebuild_stops_at_dangling_operation_witness :
  _rebuild_rec (K:=toy_keras) 1 [] ∅ [] (0, 0) ∅ chain_state
  = (inl DanglingOperation, chain_state) ∧
  ∀ input_delete_masks,
    rebuild_submodel (K:=toy_keras) 0 [] [] [] ∅ ∅ input_delete_masks chain_state
    = (inl DanglingOperation, chain_state) ∧
    rebuild_submodel (K:=toy_keras) 1 [] [0] [0] ∅ ∅ input_delete_masks chain_state
    = (inl DanglingOperation, chain_state).
Proof.
  eapply (rebuild_stops_at_dangling_operation (K:=toy_keras) 0 [] ∅ [] 0 0 ∅ chain_state
           (toy_input 4) (mkNode [] [] [None; Some 4])).
  - reflexivity.
  - reflexivity.
  - reflexivity.
  - reflexivity.
  - reflexivity.
  - apply not_elem_of_nil.
Defined.

(** X6 on the diamond: the sum of the heads, given a mask. *)
Lemma mask_on_unsupported_kind_witness :
  _apply_delete_mask (scalar:=Z) 4 [Some keep_0_2; None] diamond_state
  = (inl (UnsupportedOperationKind "Add"), diamond_state).
Proof.
  eapply (mask_on_unsupported_kind (scalar:=Z) 4 [Some keep_0_2; None] diamond_state
           diamond_add).
  - reflexivity.
  - exists keep_0_2. constructor.
  - rewrite !not_elem_of_cons. repeat split; try discriminate. apply not_elem_of_nil.
Defined.

(** X7 on the convolution, given the mask that drops its second input
    channel. *)
Lemma conv2d_mask_trims_input_channels_only_witness :
  ∃ new_layer out st',
    _apply_delete_mask (scalar:=Z) 1 [Some keep_first_channel] conv_state
    = (inr (new_layer, out), st') ∧
    ∃ l' w0 w0' lead c c' f sh dims,
      store st' !! new_layer = Some l' ∧
      store st' !! 1 = Some conv_layer ∧
      weights conv_layer !! 0 = Some w0 ∧ weights l' !! 0 = Some w0' ∧
      np.shape w0 = lead ++ [c; f] ∧ np.shape w0' = lead ++ [c'; f] ∧
      length (weights l') = length (weights conv_layer) ∧
      (∀ i, 0 < i → weights l' !! i = weights conv_layer !! i) ∧
      config l' = delete "weights" (config conv_layer) ∧
      output_shape conv_layer = Some sh ∧ mapM id (tail sh) = Some dims ∧
      out = Some (np.ones dims).
Proof.
  eassert (_apply_delete_mask (scalar:=Z) 1 [Some keep_first_channel] conv_state
           = (inr (_, _), _)) as Hrun.
  { vm_compute. reflexivity. }
  eexists _, _, _. split; [exact Hrun|].
  eapply (conv2d_mask_trims_input_channels_only (scalar:=Z) 1 [Some keep_first_channel]
           conv_state conv_layer _ _ _).
  - reflexivity.
  - reflexivity.
  - exists keep_first_channel. constructor.
  - exact Hrun.
Defined.

(** On the convolution: the kernel keeps the first input channel. *)
Example conv_after_mask :
  (λ r, weights <$> (store (snd r) !! 2))
    (_apply_delete_mask (scalar:=Z) 1 [Some keep_first_channel] conv_state)
  = Some [np.array [1; 1; 1; 1] [5]%Z; np.array [1] [0]%Z].
Proof. vm_compute. reflexivity. Qed.

(** X8 on the chain: [dense_2] given the mask that drops the middle
    output of [dense_1]. *)
Lemma mask_propagation_adds_at_most_one_object_witness :
  ∃ new_layer out st',
    _apply_delete_mask (scalar:=Z) 2 [Some keep_0_2] chain_state
    = (inr (new_layer, out), st') ∧
    ((new_layer = 2 ∧ st' = chain_state) ∨
     (∃ l l', store chain_state !! 2 = Some l ∧
              (new_layer ∉ dom (store chain_state)) ∧
              st' = mkState (<[new_layer := l']> (store chain_state))
                            (rebuilt chain_state) (copied chain_state) (edited chain_state) ∧
              class_name l' = class_name l ∧ inbound_nodes l' = [])).
Proof.
  eassert (_apply_delete_mask (scalar:=Z) 2 [Some keep_0_2] chain_state
           = (inr (_, _), _)) as Hrun.
  { vm_compute. reflexivity. }
  eexists _, _, _. split; [exact Hrun|].
  exact (mask_propagation_adds_at_most_one_object (scalar:=Z) _ _ _ _ _ _ Hrun).
Defined.

(** X9 on the chain: the last channel of [dense_2], named from the end. *)
Lemma delete_channel_weights_distinct_indices_witness :
  ∃ new_layer l' st' n',
    _delete_channel_weights (scalar:=Z) 2 [-1]%Z chain_state = (inr new_layer, st') ∧
    (new_layer ∉ dom (store chain_state)) ∧
    store st' = <[new_layer := l']> (store chain_state) ∧
    class_name l' = class_name chain_dense_2 ∧ inbound_nodes l' = [] ∧
    channel_count l' = Some (Z.of_nat n') ∧
    n' = Z.to_nat 2 - length [-1]%Z ∧
    length [-1]%Z ≤ Z.to_nat 2 ∧
    Forall2 (λ w w', ∃ pre, np.shape w = pre ++ [Z.to_nat 2] ∧
                            np.shape w' = pre ++ [n'])
            (weights chain_dense_2) (weights l').
Proof.
  eapply (delete_channel_weights_distinct_indices (scalar:=Z) 2 [-1]%Z chain_state
           chain_dense_2 2 [1]).
  - reflexivity.
  - reflexivity.
  - lia.
  - reflexivity.
  - apply NoDup_singleton.
  - constructor; [by exists [3]|]. constructor; [by exists []|]. constructor.
Defined.

(** X10 on the chain: the input layer has no channels to delete. *)
Lemma delete_channels_without_channel_dimension_witness :
  delete_channels (K:=toy_keras) 10 chain_model 0 [0]%Z None Omitted chain_state
  = (inl MissingChannelDimension, chain_state).
Proof.
  eapply (delete_channels_without_channel_dimension (K:=toy_keras) 10 chain_model 0 [0]%Z
           None Omitted chain_state (toy_input 4)).
  - reflexivity.
  - reflexivity.
  - reflexivity.
Defined.

(** X11 on the chain: the middle channel of [dense_1] deleted, [dense_2]
    loses the middle row of its kernel. *)
Lemma channel_deletion_trims_next_dense_rows_witness :
  ∃ mask new_layer l' st',
    _make_delete_mask (scalar:=Z) 1 [1]%Z chain_state = (inr mask, chain_state) ∧
    _apply_delete_mask (scalar:=Z) 2 [Some mask] chain_state
    = (inr (new_layer, Some (np.ones [2])), st') ∧
    store st' !! new_layer = Some l' ∧
    weights l' =
      <[0 := np.array [3 - length (remove_dups [1]); 2]
               (flat_map (λ i, np.chunk 2 i [1; 2; 3; 4; 5; 6]%Z)
                         (filter (λ j, j ∉ [1]) (seq 0 3)))]> (weights chain_dense_2).
Proof.
  eapply (channel_deletion_trims_next_dense_rows (scalar:=Z) 1 2 [1]%Z chain_state
           chain_dense_1 chain_dense_2 None 3 2 (np.array [3; 2] [1; 2; 3; 4; 5; 6]%Z)
           [1] [None; Some 2] [2]).
  - reflexivity.
  - reflexivity.
  - reflexivity.
  - reflexivity.
  - reflexivity.
  - reflexivity.
  - reflexivity.
  - reflexivity.
  - reflexivity.
Defined.

(** X12 on the chain: [dense_1] deleted, its consumers get the input. *)
Lemma deleted_node_rebuilds_to_its_input_witness :
  ∃ sub st',
    _delete_layer (scalar:=Z) 1 0 [(0, 0)] chain_state = (inr sub, st') ∧
    st' = chain_state ∧
    _rebuild_rec (K:=toy_keras) 1 [(0, 0)] (sub ∪ ∅) [None] (1, 0) ∅ st'
    = (inr (((0, 0), None), ∅), st').
Proof.
  eassert (_delete_layer (scalar:=Z) 1 0 [(0, 0)] chain_state = (inr _, _)) as Hrun.
  { vm_compute. reflexivity. }
  eexists _, _. split; [exact Hrun|].
  exact (deleted_node_rebuilds_to_its_input (K:=toy_keras) 1 0 (0, 0) chain_state _ _
           0 [(0, 0)] ∅ [None] ∅ Hrun).
Defined.

(** X13 on the chain: [dense_1] replaced by the spare layer. *)
Lemma replaced_node_rebuilds_to_new_output_witness :
  ∃ sub st',
    _replace_layer (K:=toy_keras) 3 1 0 [(0, 0)] chain_spare_state = (inr sub, st') ∧
    ∃ new_output,
      call_layer (K:=toy_keras) 3 [(0, 0)] chain_spare_state = (inr new_output, st') ∧
      fst new_output = 3 ∧
      edges_of (store chain_spare_state) new_output = None ∧
      edges_of (store st') new_output = Some [(0, 0)] ∧
      _rebuild_rec (K:=toy_keras) 1 [(0, 0)] (sub ∪ ∅) [None] (1, 0) ∅ st'
      = (inr ((new_output, None), ∅), st').
Proof.
  eassert (_replace_layer (K:=toy_keras) 3 1 0 [(0, 0)] chain_spare_state
           = (inr _, _)) as Hrun.
  { vm_compute. reflexivity. }
  eexists _, _. split; [exact Hrun|].
  eapply (replaced_node_rebuilds_to_new_output (K:=toy_keras) 3 None 1 0 [(0, 0)]
           chain_spare_state _ _ 0 [(0, 0)] ∅ [None] ∅).
  left. split; [exact Hrun|reflexivity].
Defined.

(** X14 on the chain: the spare layer inserted before [dense_2] takes
    over the output of [dense_1]. *)
Lemma inserted_layer_takes_over_producer_witness :
  ∃ sub st',
    _insert_layer (K:=toy_keras) 3 2 0 [(1, 0)] chain_spare_state = (inr sub, st') ∧
    ∃ new_output producer rest,
      length [(1, 0)] ≤ 1 ∧
      call_layer (K:=toy_keras) 3 [(1, 0)] chain_spare_state = (inr new_output, st') ∧
      fst new_output = 3 ∧
      edges_of (store chain_spare_state) new_output = None ∧
      edges_of (store st') new_output = Some [(1, 0)] ∧
      edges_of (store st') (2, 0) = Some (producer :: rest) ∧
      _rebuild_rec (K:=toy_keras) 1 [(0, 0)] (sub ∪ ∅) [None] producer ∅ st'
      = (inr ((new_output, None), ∅), st').
Proof.
  eassert (_insert_layer (K:=toy_keras) 3 2 0 [(1, 0)] chain_spare_state
           = (inr _, _)) as Hrun.
  { vm_compute. reflexivity. }
  eexists _, _. split; [exact Hrun|].
  exact (inserted_layer_takes_over_producer (K:=toy_keras) 3 2 0 [(1, 0)]
           chain_spare_state _ _ 0 [(0, 0)] ∅ [None] ∅ Hrun).
Defined.

(** X15 on the chain: [dense_1] replaced by the spare layer with the copy
    flag set. *)
Lemma edits_copy_exactly_when_flag_true_witness :
  ∃ result st',
    replace_layer (K:=toy_keras) 10 chain_model 1 3 None (Passed (Some true))
                  chain_spare_state
    = (inr result, st') ∧
    ∃ model' s0 s1 new_outputs new s2,
      copy_model chain_model s0 = Some (model', s1) ∧
      build_model (inputs model') new_outputs s2 = Some new ∧
      copy_model new s2 = Some (result, store st') ∧
      copied st' = copied chain_spare_state ++ [chain_model; new].
Proof.
  eassert (replace_layer (K:=toy_keras) 10 chain_model 1 3 None (Passed (Some true))
             chain_spare_state = (inr _, _)) as Hrun.
  { vm_compute. reflexivity. }
  eexists _, _. split; [exact Hrun|].
  eapply (edits_copy_exactly_when_flag_true (K:=toy_keras) 10 chain_model 1 3 [] None
           (Some true) chain_spare_state _ _).
  right. left. exact Hrun.
Defined.

(** The whole edit on the chain: the middle channel of [dense_1] deleted.
    The new model ends in a new [dense_2] whose kernel lost its middle
    row, fed by a new [dense_1] whose kernel and bias lost their middle
    column; the layers of the given model are as they were. *)
Example delete_channels_on_chain :
  (λ r, (match fst r with inr m => output_layers m | inl _ => [] end,
         weights <$> (store (snd r) !! 3),
         weights <$> (store (snd r) !! 4),
         weights <$> (store (snd r) !! 1),
         weights <$> (store (snd r) !! 2)))
    (delete_channels (K:=toy_keras) 10 chain_model 1 [1]%Z None Omitted chain_state)
  = ([4],
     Some [np.array [4; 2] [1; 3; 4; 6; 7; 9; 10; 12]%Z; np.array [2] [0; 0]%Z],
     Some [np.array [2; 2] [1; 2; 5; 6]%Z; np.array [2] [7; 8]%Z],
     Some (weights chain_dense_1),
     Some (weights chain_dense_2)).
Proof. vm_compute. reflexivity. Qed.

(** X16 on the diamond: the first head, as rebuilt. *)
Lemma rebuilt_nodes_mirror_the_wiring_witness :
  ∃ outputs output_masks fin' st' out mask,
    rebuild_submodel (K:=toy_keras) 10 [(0, 0)] [2; 3] [0; 0] ∅ ∅ None diamond_state
    = (inr (outputs, output_masks, fin'), st') ∧
    fin' !! (2, 0) = Some (out, mask) ∧
    ∃ es results l l',
      edges_of (store st') (2, 0) = Some es ∧
      edges_of (store diamond_state) out = None ∧
      edges_of (store st') out = Some (fst <$> results) ∧
      Forall2 (λ y res,
                 _rebuild_rec (K:=toy_keras) 1 [(0, 0)] ∅ (replicate 1 None) y fin' st'
                 = (inr (res, fin'), st'))
              es results ∧
      store st' !! 2 = Some l ∧ store st' !! fst out = Some l' ∧
      class_name l' = class_name l.
Proof.
  eassert (rebuild_submodel (K:=toy_keras) 10 [(0, 0)] [2; 3] [0; 0] ∅ ∅ None diamond_state
           = (inr (_, _, _), _)) as Hrun.
  { vm_compute. reflexivity. }
  eassert (_ !! (2, 0) = Some (_, _)) as Hcached; cycle 1.
  { eexists _, _, _, _, _, _. split; [exact Hrun|]. split; [exact Hcached|].
    eapply (rebuilt_nodes_mirror_the_wiring (K:=toy_keras) _ _ _ _ _ _ _ _ _ _ _ _
              Hrun (2, 0)); [reflexivity|exact Hcached]. }
  vm_compute. reflexivity.
Defined.

(** On the diamond: the rebuilt first head is the second node of
    [head_a], fed by the second node of the trunk. *)
Example diamond_rebuilt_head :
  (λ r, (fst <$> (r.1.2 !! (2, 0)), edges_of (store r.2) (2, 1)))
    (match rebuild_submodel (K:=toy_keras) 10 [(0, 0)] [2; 3] [0; 0] ∅ ∅ None diamond_state
     with
     | (inr r, st') => (r, st')
     | (inl _, st') => (([], [], ∅), st')
     end)
  = (Some (2, 1), Some [(1, 1)]).
Proof. vm_compute. reflexivity. Qed.
